(** * xwax JACK device (jack.c): a shallow embedding and its properties

    The file follows jack.c top-down.  Part I is the model: the sample
    representation (IEEE binary32 on the JACK side, signed 16-bit on the
    xwax side), the two converters [interleave] and [uninterleave], the
    per-deck and per-cycle processing functions, and the client and deck
    set-up code.  Part II states and proves the properties.

    Conventions.
    - [jack_default_audio_sample_t] is C [float]: IEEE binary32, modelled by
      the Standard Library's [spec_float] at precision 24 and [emax] 128.
    - [signed short] is a [Z] kept in [-32768, 32767] by [wrap16]; the
      [int] that receives JACK's unsigned 32-bit sample rate is a [Z] reduced
      by [wrap32].  The other [int]s of jack.c stay far from their bounds.
    - C arrays reached through a moving pointer are a [cursor]: the array
      and the index the pointer stands at; every access is bounds-checked
      and an access outside the array is the undefined behaviour [None]
      (pure code) or [Fault] (code that runs in the [world]).
    - File-scope variables of jack.c, the device records they point to, the
      JACK port buffers and the log of calls into JACK and the collaborators
      make up the [world]; code that touches them runs in the monad [M].
    - What JACK, [malloc] and the player answer is not decided by jack.c:
      an [environment] maps the log of calls so far to the answer.
    - Diagnostics printed on stderr are not modelled. *)

From Stdlib Require Import ZArith QArith Qabs Qround Lia Bool List String Ascii.
From Stdlib Require Import Floats.SpecFloat.
From stdpp Require Import base option list gmap.

(* ================================================================== *)
(** * Part I: the model *)
(* ================================================================== *)

(** ** Constants *)

(** [#define MAX_DECKS 4] *)
Definition MAX_DECKS : Z := 4.

(** [#define SCALE 32768] *)
Definition SCALE : Z := 32768.

(** Modelled from the spec: device.h is not among the sources; the spec
    fixes the channel count at 2 and [register_ports] asserts it. *)
Definition DEVICE_CHANNELS : nat := 2.

(** ** Samples on the JACK side: IEEE binary32 *)

Module Float32.

Definition prec : Z := 24.
Definition emax : Z := 128.

Abbreviation float32 := spec_float.

(** A well-formed binary32 datum: canonical mantissa, exponent in range. *)
Definition valid (x : float32) : bool := valid_binary prec emax x.

Definition is_finite (x : float32) : bool :=
  match x with
  | S754_zero _ | S754_finite _ _ _ => true
  | S754_infinity _ | S754_nan => false
  end.

(** Multiplication and division, rounding to nearest even. *)
Definition mul : float32 -> float32 -> float32 := SFmul prec emax.
Definition div : float32 -> float32 -> float32 := SFdiv prec emax.

(** Conversion of an integer to [float] (usual arithmetic conversions and
    the cast [(jack_default_audio_sample_t)*buf]). *)
Definition of_Z (z : Z) : float32 := binary_normalize prec emax z 0 false.

(** The rational a finite datum denotes: [(-1)^s * m * 2^e]; 0 for the
    data that denote no number. *)
Definition to_Q (x : float32) : Q :=
  match x with
  | S754_finite s m e =>
      match e with
      | Zneg p => Qmake (cond_Zopp s (Zpos m)) (2 ^ p)%positive
      | _ => inject_Z (cond_Zopp s (Zpos m) * 2 ^ e)
      end
  | _ => 0%Q
  end.

(** The integral part of a finite datum, discarding the fraction (C's
    float-to-integer conversion truncates toward zero). *)
Definition trunc (x : float32) : option Z :=
  match x with
  | S754_zero _ => Some 0%Z
  | S754_finite s m e => Some (cond_Zopp s (Z.shiftl (Zpos m) e))
  | S754_infinity _ | S754_nan => None
  end.

(** The constant 1.0f. *)
Definition one : float32 := S754_finite false 8388608 (-23).

End Float32.

Export Float32.

(** Truncation of a rational toward zero. *)
Definition Qtrunc (q : Q) : Z := Z.quot (Qnum q) (Zpos (Qden q)).

(** ** Samples on the xwax side: [signed short] *)

(** Reduction of an integer to 16 bits, two's complement. *)
Definition wrap16 (z : Z) : Z := ((z + 32768) mod 65536 - 32768)%Z.


Definition SHRT_MIN : Z := (-32768)%Z.
Definition SHRT_MAX : Z := 32767%Z.
Definition INT_MIN : Z := (-2147483648)%Z.
Definition INT_MAX : Z := 2147483647%Z.

(** C defines [(signed short)f] only when the integral part of [f] fits a
    [signed short]: the result is then that integral part.  Otherwise (and
    for an infinity or a NaN) the behaviour is undefined, jack.c adds no
    clamp or wrap of its own, and builds of this very source differ in what
    they leave in the 16-bit cell.  That value is a parameter of the model:
    [fp_invalid x] is what the build's conversion delivers for [x], of which
    the cell keeps 16 bits. *)
Class Target := { fp_invalid : float32 -> Z }.

Definition short_of_float {T : Target} (x : float32) : Z :=
  match trunc x with
  | Some t =>
      if ((SHRT_MIN <=? t) && (t <=? SHRT_MAX))%Z then t else wrap16 (fp_invalid x)
  | None => wrap16 (fp_invalid x)
  end.

(** The conversion instruction of SSE ([cvttss2si] into a 32-bit register):
    the integral part when it fits an [int], the "integer indefinite"
    [INT_MIN] otherwise. *)
Definition int_of_float (x : float32) : Z :=
  match trunc x with
  | Some t => if ((INT_MIN <=? t) && (t <=? INT_MAX))%Z then t else INT_MIN
  | None => INT_MIN
  end.

(** x86-64, conversion at run time with SSE: [cvttss2si] followed by a store
    of the low 16 bits (GCC 12, [-O0] and [-O2]: 1.0 gives -32768, 1.5 gives
    -16384, 2.0 gives 0). *)
Definition x86_64 : Target := {| fp_invalid := int_of_float |}.

(** x86, conversion at run time with the x87 unit: [fistp] with a 16-bit
    operand stores the 16-bit "integer indefinite" for every value out of
    range (GCC 12, [-mno-sse -mfpmath=387]: 1.0, 1.5 and 2.0 all give
    -32768). *)
Definition x87 : Target := {| fp_invalid := fun _ => SHRT_MIN |}.


(** ** Arrays behind a moving pointer *)

Record cursor (A : Type) : Type := Cursor { arr : list A; pos : nat }.
Arguments Cursor {A} arr pos.
Arguments arr {A} c.
Arguments pos {A} c.

(** [*p] as an rvalue. *)
Definition deref {A} (p : cursor A) : option A := arr p !! pos p.

(** [*p = v]. *)
Definition store {A} (p : cursor A) (v : A) : option (cursor A) :=
  if decide (pos p < length (arr p))
  then Some (Cursor (<[pos p := v]> (arr p)) (pos p))
  else None.

(** [p++]. *)
Definition advance {A} (p : cursor A) : cursor A := Cursor (arr p) (S (pos p)).

(** A cell of the local [signed short buf[]]: [None] while it holds the
    indeterminate value of an uninitialised automatic variable. *)
Abbreviation cell := (option Z).

(** [for(n = 0; n < DEVICE_CHANNELS; n++) body], threading the state. *)
Definition for_channels {S : Type} (body : nat -> S -> option S) (st : S)
  : option S :=
  foldl (fun acc n => acc ≫= body n) (Some st) (seq 0 DEVICE_CHANNELS).

(** ** Sample format conversion *)

(** The expression [(signed short)(x * SCALE)]: [SCALE] is converted to
    [float], the product is a [float] product. *)
Definition to_short {T : Target} (x : float32) : Z :=
  short_of_float (mul x (of_Z SCALE)).

(** The expression [(jack_default_audio_sample_t)s / SCALE]. *)
Definition to_sample (s : Z) : float32 := div (of_Z s) (of_Z SCALE).

(** Body of the inner loop of [interleave]:
    [*buf = (signed short)( *jbuf[n] * SCALE); buf++; jbuf[n]++;] *)
Definition interleave_sample {T : Target} (n : nat)
    (st : cursor cell * list (cursor float32))
  : option (cursor cell * list (cursor float32)) :=
  j ← st.2 !! n;
  x ← deref j;
  buf ← store st.1 (Some (to_short x));
  Some (advance buf, <[n := advance j]> st.2).

(** [interleave(buf, jbuf, nframes)]: the loop [while(nframes--)]. *)
Fixpoint interleave {T : Target} (buf : cursor cell)
    (jbuf : list (cursor float32)) (nframes : nat)
  : option (cursor cell * list (cursor float32)) :=
  match nframes with
  | O => Some (buf, jbuf)
  | S nframes' =>
      st ← for_channels interleave_sample (buf, jbuf);
      interleave st.1 st.2 nframes'
  end.

(** Body of the inner loop of [uninterleave]:
    [*jbuf[n] = (jack_default_audio_sample_t)*buf / SCALE; buf++; jbuf[n]++;]
    Reading a cell that was never written is undefined. *)
Definition uninterleave_sample (n : nat)
    (st : list (cursor float32) * cursor cell)
  : option (list (cursor float32) * cursor cell) :=
  j ← st.1 !! n;
  c ← deref st.2;
  s ← c;
  j' ← store j (to_sample s);
  Some (<[n := advance j']> st.1, advance st.2).

(** [uninterleave(jbuf, buf, nframes)]. *)
Fixpoint uninterleave (jbuf : list (cursor float32)) (buf : cursor cell)
    (nframes : nat)
  : option (list (cursor float32) * cursor cell) :=
  match nframes with
  | O => Some (jbuf, buf)
  | S nframes' =>
      st ← for_channels uninterleave_sample (jbuf, buf);
      uninterleave st.1 st.2 nframes'
  end.

(** ** The world jack.c runs in *)

(** Handles and addresses.  A JACK client, a JACK port, a timecoder and a
    player are known to jack.c by pointer only; a device record is reached
    through its address. *)
Abbreviation client_t := nat (only parsing).
Abbreviation port_t := nat (only parsing).
Abbreviation timecoder_t := nat (only parsing).
Abbreviation player_t := nat (only parsing).
Abbreviation dev_ptr := nat (only parsing).

(** [struct jack_t]: the port handles of one deck; [None] is a null (or
    not yet assigned) pointer. *)
Record jack_t : Type := Jack {
  input_port : list (option port_t);
  output_port : list (option port_t)
}.

(** The functions a device record's hooks can point to: the three static
    functions of jack.c, or anything else. *)
Inductive fnptr : Type :=
| fn_start
| fn_stop
| fn_clear
| fn_other (id : nat).

(** Modelled from the spec: [struct device_t] (device.h is not among the
    sources), with the fields jack.c reads or writes: the backend state
    [local], the hooks, and the two collaborators. *)
Record device_t : Type := Device {
  local : option jack_t;
  pollfds : option fnptr;
  handle : option fnptr;
  start : option fnptr;
  stop : option fnptr;
  clear : option fnptr;
  timecoder : option timecoder_t;
  player : player_t
}.

Inductive port_flags : Type := JackPortIsInput | JackPortIsOutput.

(** Calls that leave jack.c, in the order they are made.  [EvProcessDeck]
    is a ghost event marking the entry of [process_deck]. *)
Inductive event : Type :=
| EvClientOpen (client_name : string)
| EvSetProcessCallback (c : client_t)
| EvOnShutdown (c : client_t)
| EvGetSampleRate (c : client_t)
| EvMalloc
| EvPortRegister (c : option client_t) (port_name : string) (flags : port_flags)
| EvProcessDeck (dv : dev_ptr) (nframes : nat)
| EvTimecoderSubmit (tc : timecoder_t) (pcm : list cell) (nframes : nat) (rate : Z)
| EvPlayerCollect (pl : player_t) (nframes : nat) (rate : Z).

(** What the outside answers, as a function of the calls made so far (the
    call being answered is the last one of the log). *)
Record environment : Type := Env {
  (** [jack_client_open]: the client, or NULL, and the status word. *)
  env_client_open : list event -> option client_t * Z;
  (** [jack_set_process_callback]: 0 on success. *)
  env_set_process_callback : list event -> Z;
  (** [jack_get_sample_rate]. *)
  env_sample_rate : list event -> Z;
  (** [malloc]: whether a block was obtained. *)
  env_malloc : list event -> bool;
  (** [jack_port_register]: the port, or NULL. *)
  env_port_register : list event -> option port_t;
  (** Modelled from the spec: [player_collect] (player.c is not among the
      sources) fills the buffer in place for the given frame count; the
      sample it writes at each index is the player's choice. *)
  env_player_collect : list event -> nat -> Z
}.

Record world : Type := World {
  (** [static jack_client_t *client = NULL;] *)
  client : option client_t;
  (** [static int rate, decks = 0;] *)
  rate : Z;
  decks : Z;
  (** [struct device_t *device[MAX_DECKS];] *)
  device : list (option dev_ptr);
  (** The device records, by address. *)
  heap : gmap dev_ptr device_t;
  (** The buffer JACK hands out for each port during the current cycle;
      a port without one gets NULL from [jack_port_get_buffer]. *)
  port_buffers : gmap port_t (list float32);
  (** The log of calls. *)
  trace : list event
}.

(** The world at program start: statics are zero-initialised. *)
Definition initial_world (h : gmap dev_ptr device_t)
    (pb : gmap port_t (list float32)) : world :=
  {| client := None; rate := 0; decks := 0;
     device := replicate (Z.to_nat MAX_DECKS) None;
     heap := h; port_buffers := pb; trace := [] |}.

Definition set_client (c : option client_t) (w : world) : world :=
  {| client := c; rate := rate w; decks := decks w; device := device w;
     heap := heap w; port_buffers := port_buffers w; trace := trace w |}.

Definition set_rate (r : Z) (w : world) : world :=
  {| client := client w; rate := r; decks := decks w; device := device w;
     heap := heap w; port_buffers := port_buffers w; trace := trace w |}.

Definition set_decks (n : Z) (w : world) : world :=
  {| client := client w; rate := rate w; decks := n; device := device w;
     heap := heap w; port_buffers := port_buffers w; trace := trace w |}.

Definition set_device (d : list (option dev_ptr)) (w : world) : world :=
  {| client := client w; rate := rate w; decks := decks w; device := d;
     heap := heap w; port_buffers := port_buffers w; trace := trace w |}.

Definition set_heap (h : gmap dev_ptr device_t) (w : world) : world :=
  {| client := client w; rate := rate w; decks := decks w; device := device w;
     heap := h; port_buffers := port_buffers w; trace := trace w |}.

Definition set_port_buffers (pb : gmap port_t (list float32)) (w : world)
  : world :=
  {| client := client w; rate := rate w; decks := decks w; device := device w;
     heap := heap w; port_buffers := pb; trace := trace w |}.

Definition set_trace (t : list event) (w : world) : world :=
  {| client := client w; rate := rate w; decks := decks w; device := device w;
     heap := heap w; port_buffers := port_buffers w; trace := t |}.

(** ** The monad of code that runs in the world *)

Inductive outcome (A : Type) : Type :=
| Ret (a : A) (w : world)   (** normal completion *)
| Abort (w : world)         (** a failed [assert]: the process is killed *)
| Fault.                    (** undefined behaviour *)
Arguments Ret {A} a w.
Arguments Abort {A} w.
Arguments Fault {A}.

Definition M (A : Type) : Type := world -> outcome A.

Definition ret {A} (a : A) : M A := fun w => Ret a w.

Definition bind {A B} (m : M A) (k : A -> M B) : M B :=
  fun w =>
    match m w with
    | Ret a w' => k a w'
    | Abort w' => Abort w'
    | Fault => Fault
    end.

Notation "'let*' x ':=' m 'in' k" := (bind m (fun x => k))
  (at level 10, x pattern, m at level 100, k at level 200).

Definition get {A} (f : world -> A) : M A := fun w => Ret (f w) w.
Definition modify (f : world -> world) : M unit := fun w => Ret tt (f w).
Definition abort {A} : M A := fun w => Abort w.
Definition fault {A} : M A := fun _ => Fault.

(** [assert(b)]. *)
Definition assert (b : bool) : M unit := if b then ret tt else abort.

(** A computation whose failure is undefined behaviour. *)
Definition defined {A} (o : option A) : M A :=
  match o with Some a => ret a | None => fault end.

(** Makes a call, logs it, and hands the log to the environment. *)
Definition call {A} (ev : event) (answer : list event -> A) : M A :=
  fun w => let t := trace w ++ [ev] in Ret (answer t) (set_trace t w).

(** [for(n = 0; n < count; n++) body n]. *)
Fixpoint for_each {A} (body : A -> M unit) (l : list A) : M unit :=
  match l with
  | [] => ret tt
  | a :: l' => let* _ := body a in for_each body l'
  end.

(** A loop that builds one result per iteration. *)
Fixpoint for_collect {A B} (body : A -> M B) (l : list A) : M (list B) :=
  match l with
  | [] => ret []
  | a :: l' =>
      let* b := body a in
      let* bs := for_collect body l' in
      ret (b :: bs)
  end.

(** ** Processing one deck *)

(** [signed short buf[1024 * 2];] *)
Definition BUF_LEN : nat := 1024 * 2.

(** [jbuf[n] = jack_port_get_buffer(port[n], nframes);
     assert(jbuf[n] != NULL);]
    Handing JACK a null port is undefined. *)
Definition get_buffer (ports : list (option port_t)) (n : nat)
  : M (list float32) :=
  let* p := defined (mjoin (ports !! n)) in
  let* b := get (fun w => port_buffers w !! p) in
  match b with
  | Some a => ret a
  | None => abort
  end.

(** Modelled from the spec: the effect of [player_collect] on the buffer it
    is given: the first [DEVICE_CHANNELS * nframes] cells are overwritten
    with the samples the player chose, each a [signed short]. *)
Definition player_fill (buf : list cell) (nframes : nat) (pcm : nat -> Z)
  : option (list cell) :=
  if decide (DEVICE_CHANNELS * nframes <= length buf)
  then Some (((fun i => Some (wrap16 (pcm i))) <$> seq 0 (DEVICE_CHANNELS * nframes))
             ++ drop (DEVICE_CHANNELS * nframes) buf)
  else None.

(** The samples [uninterleave] stored through [jbuf[n]] are the new
    contents of the buffer of port [ports[n]]. *)
Definition commit_buffer (ports : list (option port_t))
    (jbuf : list (cursor float32)) (n : nat) : M unit :=
  let* p := defined (mjoin (ports !! n)) in
  let* j := defined (jbuf !! n) in
  modify (fun w => set_port_buffers (<[p := arr j]> (port_buffers w)) w).

(** [process_deck(dv, nframes)] *)
Definition process_deck {T : Target} (env : environment) (dv : dev_ptr)
    (nframes : nat) : M unit :=
  let* _ := call (EvProcessDeck dv nframes) (fun _ => tt) in
  let* d := get (fun w => heap w !! dv) in
  let* d := defined d in
  let* jack := defined (local d) in
  (* Timecode input *)
  let* jbuf := for_collect (get_buffer (input_port jack)) (seq 0 DEVICE_CHANNELS) in
  let* st := defined (interleave (Cursor (replicate BUF_LEN None) 0)
                                 ((fun a => Cursor a 0) <$> jbuf) nframes) in
  let buf := arr st.1 in
  let* r := get rate in
  let* _ := match timecoder d with
            | Some tc =>
                call (EvTimecoderSubmit tc (take (DEVICE_CHANNELS * nframes) buf)
                        nframes r) (fun _ => tt)
            | None => ret tt
            end in
  (* Audio output *)
  let* jbuf := for_collect (get_buffer (output_port jack)) (seq 0 DEVICE_CHANNELS) in
  let* pcm := call (EvPlayerCollect (player d) nframes r) (env_player_collect env) in
  let* buf := defined (player_fill buf nframes pcm) in
  let* st := defined (uninterleave ((fun a => Cursor a 0) <$> jbuf)
                                   (Cursor buf 0) nframes) in
  for_each (commit_buffer (output_port jack) st.1) (seq 0 DEVICE_CHANNELS).

(** ** The process callback *)

(** [process_callback(nframes, arg)].  The loop bound [decks] is read once:
    nothing in [process_deck] writes it. *)
Definition process_callback {T : Target} (env : environment) (nframes : nat)
  : M Z :=
  let* k := get decks in
  let* _ := for_each
              (fun n =>
                 let* dv := get (fun w => mjoin (device w !! n)) in
                 let* dv := defined dv in
                 process_deck env dv nframes)
              (seq 0 (Z.to_nat k)) in
  ret 0%Z.

(** ** Client start-up *)

(** Reduction of an integer to 32 bits, two's complement. *)
Definition wrap32 (z : Z) : Z := ((z + 2147483648) mod 4294967296 - 2147483648)%Z.

(** The conversion in [rate = jack_get_sample_rate(client)]: the function
    returns a [jack_nframes_t], an unsigned 32-bit integer, and [rate] is an
    [int].  A value above [INT_MAX] does not fit; the result is then
    implementation-defined, and GCC and Clang define it as the reduction
    modulo 2^32. *)
Definition int_of_nframes (n : Z) : Z := wrap32 n.

(** [start_jack_client()] *)
Definition start_jack_client (env : environment) : M Z :=
  let* r := call (EvClientOpen "xwax") (env_client_open env) in
  let* _ := modify (set_client r.1) in
  match r.1 with
  | None => ret (-1)%Z
  | Some c =>
      let* rc := call (EvSetProcessCallback c) (env_set_process_callback env) in
      if negb (rc =? 0)%Z then ret (-1)%Z
      else
        let* _ := call (EvOnShutdown c) (fun _ => tt) in
        let* hz := call (EvGetSampleRate c) (env_sample_rate env) in
        let* _ := modify (set_rate (int_of_nframes hz)) in
        ret 0%Z
  end.

(** ** Port registration *)

(** [char port_name[32];] *)
Definition PORT_NAME_SIZE : nat := 32.

(** [const char channel[] = { 'L', 'R' };] *)
Definition channel : list ascii := ["L"; "R"]%char.

(** The stores [sprintf] makes into its destination for the formatted
    text [s]: the characters of [s], then the terminating NUL, at
    consecutive indexes from 0. *)
Definition sprintf_writes (s : string) : list (nat * ascii) :=
  imap (fun i c => (i, c)) (list_ascii_of_string s ++ [Ascii.zero]).

(** [sprintf(dst, ...)] into a destination of [size] bytes; a store past
    the end is undefined. *)
Definition sprintf (size : nat) (s : string) : option string :=
  if forallb (fun w => w.1 <? size) (sprintf_writes s) then Some s else None.

(** ["%s_timecode_%c"] and ["%s_playback_%c"] applied to [name] and [c]. *)
Definition port_name_format (name kind : string) (c : ascii) : string :=
  (name ++ kind ++ String c EmptyString)%string.

(** [sprintf(port_name, "%s<kind>%c", name, channel[n]);
     jack_port_register(client, port_name, JACK_DEFAULT_AUDIO_TYPE, flags, 0)] *)
Definition register_port (env : environment) (name kind : string) (n : nat)
    (flags : port_flags) : M (option port_t) :=
  let* c := defined (channel !! n) in
  let* port_name := defined (sprintf PORT_NAME_SIZE (port_name_format name kind c)) in
  let* cl := get client in
  call (EvPortRegister cl port_name flags) (env_port_register env).

Definition set_input_port (n : nat) (p : option port_t) (jack : jack_t) : jack_t :=
  Jack (<[n := p]> (input_port jack)) (output_port jack).

Definition set_output_port (n : nat) (p : option port_t) (jack : jack_t) : jack_t :=
  Jack (input_port jack) (<[n := p]> (output_port jack)).

(** The loop of [register_ports] over the channels still to do.  The
    result is the status and the [struct jack_t] as the loop left it. *)
Fixpoint register_ports_from (env : environment) (ns : list nat)
    (jack : jack_t) (name : string) : M (Z * jack_t) :=
  match ns with
  | [] => ret (0%Z, jack)
  | n :: ns' =>
      let* p := register_port env name "_timecode_" n JackPortIsInput in
      let jack := set_input_port n p jack in
      if p is None then ret ((-1)%Z, jack)
      else
        let* p := register_port env name "_playback_" n JackPortIsOutput in
        let jack := set_output_port n p jack in
        if p is None then ret ((-1)%Z, jack)
        else register_ports_from env ns' jack name
  end.

(** [register_ports(jack, name)] *)
Definition register_ports (env : environment) (jack : jack_t) (name : string)
  : M (Z * jack_t) :=
  let* _ := assert (DEVICE_CHANNELS =? 2) in
  register_ports_from env (seq 0 DEVICE_CHANNELS) jack name.

(** ** Deck initialisation *)

(** The block [malloc(sizeof(struct jack_t))] returns: no port assigned. *)
Definition fresh_jack : jack_t :=
  Jack (replicate DEVICE_CHANNELS None) (replicate DEVICE_CHANNELS None).

(** The assignments [dv->local = jack; dv->pollfds = NULL; dv->handle = NULL;
    dv->start = start; dv->stop = stop; dv->clear = clear;] *)
Definition install (jack : jack_t) (d : device_t) : device_t :=
  {| local := Some jack; pollfds := None; handle := None;
     start := Some fn_start; stop := Some fn_stop; clear := Some fn_clear;
     timecoder := timecoder d; player := player d |}.

(** [device[n] = dv;] *)
Definition store_device (n : Z) (dv : dev_ptr) : M unit :=
  let* dev := get device in
  if decide (0 <= n < Z.of_nat (length dev))%Z
  then modify (set_device (<[Z.to_nat n := Some dv]> dev))
  else fault.

(** [jack_init(dv, name)] *)
Definition jack_init (env : environment) (dv : dev_ptr) (name : string) : M Z :=
  let* cl := get client in
  let* r := match cl with
            | None => start_jack_client env
            | Some _ => ret 0%Z
            end in
  if (r =? -1)%Z then ret (-1)%Z
  else
    let* ok := call EvMalloc (env_malloc env) in
    if negb ok then ret (-1)%Z
    else
      let* rj := register_ports env fresh_jack name in
      if (rj.1 =? -1)%Z then ret (-1)%Z
      else
        let* d := get (fun w => heap w !! dv) in
        let* d := defined d in
        let* _ := modify (fun w => set_heap (<[dv := install rj.2 d]> (heap w)) w) in
        let* n := get decks in
        let* _ := assert (n <? MAX_DECKS)%Z in
        let* _ := store_device n dv in
        let* _ := modify (set_decks (n + 1)%Z) in
        ret 0%Z.

(** The decks registered so far, in registration order: the first [decks]
    slots of [device]. *)
Definition registered (w : world) : list (option dev_ptr) :=
  take (Z.to_nat (decks w)) (device w).


(** ** Notions used in the statements *)

(** The canonical exponent of the product of [m * 2^e] by [SCALE]. *)
Definition scaled_exponent (m : positive) (e : Z) : Z :=
  Z.max (Zdigits2 (Zpos m) + e - 9) (-149)%Z.

(** The cells [lo], ..., [lo + n - 1] of [b] have been written. *)
Definition initialised (b : list cell) (lo n : nat) : Prop :=
  forall i, i < n -> exists s : Z, b !! (lo + i) = Some (Some s).

(** Modelled from the spec: [round(x)], the integer nearest to [x], halves
    rounded away from zero. *)
Definition Qround (q : Q) : Z :=
  if Qle_bool 0 q then Qfloor (q + (1 # 2)) else Qceiling (q - (1 # 2)).

(** The sample 0.75 / 32768. *)
Definition three_quarters_step : float32 := S754_finite false 12582912 (-39).

(** The ports of one direction of a deck are assigned and JACK has, for
    each, a buffer of at least [N] samples. *)
Definition ports_ready (pb : gmap port_t (list float32)) (N : nat)
    (ports : list (option port_t)) (p0 p1 : port_t) (a0 a1 : list float32) : Prop :=
  ports = [Some p0; Some p1]
  /\ pb !! p0 = Some a0 /\ pb !! p1 = Some a1
  /\ N <= length a0 /\ N <= length a1.

(** The samples [process_deck] hands to the timecoder: channel-interleaved
    conversions of the first [N] input frames. *)
Definition interleaved {T : Target} (N : nat) (in0 in1 : list float32) (pcm : list cell) : Prop :=
  length pcm = DEVICE_CHANNELS * N
  /\ forall (c f : nat) (ch : list float32) (v : float32),
       [in0; in1] !! c = Some ch -> f < N -> ch !! f = Some v ->
       pcm !! (DEVICE_CHANNELS * f + c) = Some (Some (to_short v)).

(** An output buffer after the cycle: its first [N] frames hold the
    conversions of the player's samples for channel [c], the rest is as
    before. *)
Definition rendered (N c : nat) (pcm : nat -> Z) (old new : list float32) : Prop :=
  length new = length old
  /\ (forall f, f < N ->
        new !! f = Some (to_sample (wrap16 (pcm (DEVICE_CHANNELS * f + c)))))
  /\ (forall i, N <= i -> new !! i = old !! i).

(** The events one call of [process_deck] adds to the log. *)
Definition deck_events (dv : dev_ptr) (d : device_t) (N : nat) (r : Z)
    (pcm : list cell) : list event :=
  [EvProcessDeck dv N]
  ++ match timecoder d with
     | Some tc => [EvTimecoderSubmit tc pcm N r]
     | None => []
     end
  ++ [EvPlayerCollect (player d) N r].

(** ** Two-state invariants of computations in [M] *)

(** Every completed run of [m] (normal or aborted) relates the world before
    to the world after by [R]. *)
Definition steps (R : relation world) {A} (m : M A) : Prop :=
  forall w, match m w with
            | Ret _ w' => R w w'
            | Abort w' => R w w'
            | Fault => True
            end.

(** Only the log grew, and only by events satisfying [P]. *)
Definition logs (P : event -> Prop) : relation world :=
  fun w w' => exists t, trace w' = trace w ++ t /\ Forall P t.

(** The deck registry and the device records are as before. *)
Definition keeps_registry : relation world :=
  fun w w' => heap w' = heap w /\ device w' = device w /\ decks w' = decks w.

(** The client handle is as before. *)
Definition keeps_client : relation world :=
  fun w w' => client w' = client w.

(** ** Observations on the log *)

(** The deck and frame count of an entry into [process_deck]. *)
Definition deck_call (ev : event) : option (dev_ptr * nat) :=
  match ev with
  | EvProcessDeck dv n => Some (dv, n)
  | _ => None
  end.

(** The entries into [process_deck] recorded in a log, in order. *)
Definition deck_calls (t : list event) : list (dev_ptr * nat) := omap deck_call t.

Definition is_submit (ev : event) : bool :=
  match ev with EvTimecoderSubmit _ _ _ _ => true | _ => false end.

Definition is_collect (ev : event) : bool :=
  match ev with EvPlayerCollect _ _ _ => true | _ => false end.

(** A call that opens the client connection or installs the process
    callback. *)
Definition is_connect (ev : event) : bool :=
  match ev with
  | EvClientOpen _ | EvSetProcessCallback _ => true
  | _ => false
  end.

Definition is_port_register (ev : event) : bool :=
  match ev with EvPortRegister _ _ _ => true | _ => false end.

(** Deck [dv] can be processed for [N] frames in world [w]: its record
    carries the JACK state, and all four port buffers are there. *)
Definition deck_ready (w : world) (N : nat) (dv : dev_ptr) : Prop :=
  exists (d : device_t) (jack : jack_t) (pi0 pi1 po0 po1 : port_t)
         (in0 in1 out0 out1 : list float32),
    heap w !! dv = Some d /\ local d = Some jack
    /\ ports_ready (port_buffers w) N (input_port jack) pi0 pi1 in0 in1
    /\ ports_ready (port_buffers w) N (output_port jack) po0 po1 out0 out1.

(** The loop body of [process_callback]. *)
Definition callback_body {T : Target} (env : environment) (N n : nat) : M unit :=
  let* dv := get (fun w => mjoin (device w !! n)) in
  let* dv := defined dv in
  process_deck env dv N.

(** ** Notions about deck initialisation *)

(** JACK and [malloc] grant everything asked of them. *)
Definition grants_all (env : environment) : Prop :=
  (forall t, is_Some (env_client_open env t).1)
  /\ (forall t, env_set_process_callback env t = 0%Z)
  /\ (forall t, env_malloc env t = true)
  /\ (forall t, is_Some (env_port_register env t)).

(** The steps of [jack_init] that follow a successful port registration. *)
Definition register_deck (dv : dev_ptr) (jack : jack_t) : M Z :=
  let* d := get (fun w => heap w !! dv) in
  let* d := defined d in
  let* _ := modify (fun w => set_heap (<[dv := install jack d]> (heap w)) w) in
  let* n := get decks in
  let* _ := assert (n <? MAX_DECKS)%Z in
  let* _ := store_device n dv in
  let* _ := modify (set_decks (n + 1)%Z) in
  ret 0%Z.

(** The steps of [jack_init] up to and including port registration: the
    status ([-1] when one of them failed) and the port handles. *)
Definition connect_deck (env : environment) (name : string) : M (Z * jack_t) :=
  let* cl := get client in
  let* r := match cl with
            | None => start_jack_client env
            | Some _ => ret 0%Z
            end in
  if (r =? -1)%Z then ret ((-1)%Z, fresh_jack)
  else
    let* ok := call EvMalloc (env_malloc env) in
    if negb ok then ret ((-1)%Z, fresh_jack)
    else register_ports env fresh_jack name.

(** The worlds a sequence of [jack_init] calls that returned leads to from
    [w], with the decks of the calls that returned 0, in call order. *)
Inductive registrations (env : environment) (w : world)
  : list dev_ptr -> world -> Prop :=
| init_none : registrations env w [] w
| init_done (dvs : list dev_ptr) (w1 w2 : world) (dv : dev_ptr) (name : string) :
    registrations env w dvs w1 ->
    jack_init env dv name w1 = Ret 0%Z w2 ->
    registrations env w (dvs ++ [dv]) w2
| init_failed (dvs : list dev_ptr) (w1 w2 : world) (dv : dev_ptr) (name : string) :
    registrations env w dvs w1 ->
    jack_init env dv name w1 = Ret (-1)%Z w2 ->
    registrations env w dvs w2.

Definition count_events (p : event -> bool) (t : list event) : nat :=
  length (List.filter p t).

(** No output frame was stored and the player was not asked. *)
Definition output_untouched : relation world :=
  fun w w' =>
    port_buffers w' = port_buffers w
    /\ exists t, trace w' = trace w ++ t /\ count_events is_collect t = 0.

(** Every run of [m] that ends in a failed assertion relates the world
    before to the world at the assertion by [R]. *)
Definition aborts (R : relation world) {A} (m : M A) : Prop :=
  forall w w', m w = Abort w' -> R w w'.

(** JACK has no buffer for one of the ports. *)
Definition buffer_missing (pb : gmap port_t (list float32)) (ports : list port_t)
  : Prop :=
  Exists (fun p => pb !! p = None) ports.

(** ** A two-deck set-up used to exercise the statements *)

Definition demo_env : environment :=
  {| env_client_open := fun _ => (Some 1, 0%Z);
     env_set_process_callback := fun _ => 0%Z;
     env_sample_rate := fun _ => 44100%Z;
     env_malloc := fun _ => true;
     env_port_register := fun t => Some (length t);
     env_player_collect := fun _ i => (Z.of_nat i * 1000)%Z |}.

(** Deck A has a timecoder attached, deck B has none. *)
Definition demo_deck_a : device_t :=
  {| local := Some (Jack [Some 10; Some 11] [Some 12; Some 13]);
     pollfds := None; handle := None;
     start := Some fn_start; stop := Some fn_stop; clear := Some fn_clear;
     timecoder := Some 7; player := 8 |}.

Definition demo_deck_b : device_t :=
  {| local := Some (Jack [Some 20; Some 21] [Some 22; Some 23]);
     pollfds := None; handle := None;
     start := Some fn_start; stop := Some fn_stop; clear := Some fn_clear;
     timecoder := None; player := 9 |}.

Definition demo_buffers : gmap port_t (list float32) :=
  list_to_map
    ((fun p => (p, [one; three_quarters_step; S754_zero false]))
       <$> [10; 11; 12; 13; 20; 21; 22; 23]).

Definition demo_world : world :=
  {| client := Some 1; rate := 44100; decks := 2;
     device := [Some 0; Some 1; None; None];
     heap := <[0 := demo_deck_a]> (<[1 := demo_deck_b]> ∅);
     port_buffers := demo_buffers;
     trace := [] |}.

(** The world before any deck is initialised, holding the two demo device
    records without JACK state. *)
Definition blank_deck (tc : option timecoder_t) (pl : player_t) : device_t :=
  {| local := None; pollfds := Some (fn_other 1); handle := Some (fn_other 2);
     start := None; stop := None; clear := None;
     timecoder := tc; player := pl |}.

Definition cold_world : world :=
  initial_world (<[0 := blank_deck (Some 7) 8]> (<[1 := blank_deck None 9]> ∅)) ∅.

(** Port buffers of 1025 frames each. *)
Definition long_buffers : gmap port_t (list float32) :=
  list_to_map
    ((fun p => (p, replicate 1025 (S754_zero false)))
       <$> [10; 11; 12; 13; 20; 21; 22; 23]).

(** Four decks registered. *)
Definition full_world : world :=
  {| client := Some 1; rate := 44100; decks := 4;
     device := [Some 0; Some 1; Some 0; Some 1];
     heap := <[0 := demo_deck_a]> (<[1 := demo_deck_b]> ∅);
     port_buffers := demo_buffers;
     trace := [] |}.

(** A JACK server that refuses the first connection and accepts later
    ones. *)
Definition env_flaky : environment :=
  {| env_client_open :=
       fun t => if count_events is_connect t =? 1 then (None, 17%Z) else (Some 1, 0%Z);
     env_set_process_callback := fun _ => 0%Z;
     env_sample_rate := fun _ => 44100%Z;
     env_malloc := fun _ => true;
     env_port_register := fun t => Some (length t);
     env_player_collect := fun _ _ => 0%Z |}.

(** A JACK server that accepts the connection and refuses the callback. *)
Definition env_no_callback : environment :=
  {| env_client_open := fun _ => (Some 1, 0%Z);
     env_set_process_callback := fun _ => (-1)%Z;
     env_sample_rate := fun _ => 44100%Z;
     env_malloc := fun _ => true;
     env_port_register := fun t => Some (length t);
     env_player_collect := fun _ _ => 0%Z |}.

(** No memory. *)
Definition env_no_memory : environment :=
  {| env_client_open := fun _ => (Some 1, 0%Z);
     env_set_process_callback := fun _ => 0%Z;
     env_sample_rate := fun _ => 44100%Z;
     env_malloc := fun _ => false;
     env_port_register := fun t => Some (length t);
     env_player_collect := fun _ _ => 0%Z |}.

(** A JACK server that grants the first three ports and refuses the
    fourth. *)
Definition env_no_ports : environment :=
  {| env_client_open := fun _ => (Some 1, 0%Z);
     env_set_process_callback := fun _ => 0%Z;
     env_sample_rate := fun _ => 44100%Z;
     env_malloc := fun _ => true;
     env_port_register :=
       fun t => if count_events is_port_register t <=? 3 then Some (length t) else None;
     env_player_collect := fun _ _ => 0%Z |}.

(** The world a [jack_init] that returned leaves behind. *)
Definition after_init (env : environment) (dv : dev_ptr) (name : string)
    (w : world) : world :=
  match jack_init env dv name w with
  | Ret _ w' => w'
  | _ => w
  end.

(** The worlds after the decks 0, 1, 0, 1 were initialised in turn from
    program start. *)
Definition one_deck_world : world := after_init demo_env 0 "deckA" cold_world.
Definition two_deck_world : world := after_init demo_env 1 "deckB" one_deck_world.
Definition three_deck_world : world := after_init demo_env 0 "deckC" two_deck_world.
Definition four_deck_world : world := after_init demo_env 1 "deckD" three_deck_world.

(** The sample 1.5. *)
Definition one_and_a_half : float32 := S754_finite false 12582912 (-23).

(** A JACK server that reports a sample rate above [INT_MAX]. *)
Definition env_high_rate : environment :=
  {| env_client_open := fun _ => (Some 1, 0%Z);
     env_set_process_callback := fun _ => 0%Z;
     env_sample_rate := fun _ => 4000000000%Z;
     env_malloc := fun _ => true;
     env_port_register := fun t => Some (length t);
     env_player_collect := fun _ _ => 0%Z |}.


(** ** Notions used in the further properties *)

(** The cells [0], ..., [n - 1] of [b] hold [signed short] values. *)
Definition holds_shorts (b : list cell) (n : nat) : Prop :=
  forall i, i < n ->
    exists s : Z, b !! i = Some (Some s) /\ (-32768 <= s <= 32767)%Z.

(** The four registrations of one deck, in the order [register_ports] asks
    for them. *)
Definition port_requests (c : option client_t) (name : string) : list event :=
  [EvPortRegister c (name ++ "_timecode_L") JackPortIsInput;
   EvPortRegister c (name ++ "_playback_L") JackPortIsOutput;
   EvPortRegister c (name ++ "_timecode_R") JackPortIsInput;
   EvPortRegister c (name ++ "_playback_R") JackPortIsOutput].

Definition is_install (ev : event) : bool :=
  match ev with EvSetProcessCallback _ => true | _ => false end.

Definition is_rate_query (ev : event) : bool :=
  match ev with EvGetSampleRate _ => true | _ => false end.

(** A call made for one deck: the allocation of its [struct jack_t] or the
    registration of one of its ports. *)
Definition is_deck_setup (ev : event) : bool :=
  match ev with EvMalloc | EvPortRegister _ _ _ => true | _ => false end.

(** The client handle and the sample rate are as before, and only calls
    made for one deck were logged. *)
Definition session_kept : relation world :=
  fun w w' =>
    client w' = client w /\ rate w' = rate w
    /\ logs (fun ev => is_deck_setup ev = true) w w'.

(** The steps of [jack_init] between client start-up and the writes to the
    device record: the allocation and the port registration. *)
Definition allocate_deck (env : environment) (name : string) : M (Z * jack_t) :=
  let* ok := call EvMalloc (env_malloc env) in
  if negb ok then ret ((-1)%Z, fresh_jack)
  else register_ports env fresh_jack name.

(** The backend state of deck [dv] is in place: its record points to a
    [struct jack_t] with all four ports assigned and carries the hooks of
    jack.c. *)
Definition deck_installed (w : world) (dv : dev_ptr) : Prop :=
  exists (d : device_t) (jack : jack_t) (pi0 pi1 po0 po1 : port_t),
    heap w !! dv = Some d /\ local d = Some jack
    /\ input_port jack = [Some pi0; Some pi1]
    /\ output_port jack = [Some po0; Some po1]
    /\ pollfds d = None /\ handle d = None
    /\ start d = Some fn_start /\ stop d = Some fn_stop /\ clear d = Some fn_clear.

(** The session state, the registry and the device records are as
    before. *)
Definition keeps_setup : relation world :=
  fun w w' =>
    client w' = client w /\ rate w' = rate w /\ decks w' = decks w
    /\ device w' = device w /\ heap w' = heap w.



(** A deck name of 21 characters. *)
Definition long_name : string := "abcdefghijklmnopqrstu".


(* ================================================================== *)
(** * Part II: properties *)
(* ================================================================== *)

(** ** Binary32 arithmetic with the power of two [SCALE] *)

Section FloatFacts.
Local Open Scope Z_scope.

Lemma digits2_pos_size (m : positive) : digits2_pos m = Pos.size m.
Proof. induction m as [m IH|m IH|]; simpl; by rewrite ?IH. Qed.

Lemma Zdigits2_log2 (z : Z) : 0 < z -> Zdigits2 z = Z.log2 z + 1.
Proof.
  destruct z as [|p|p]; try lia. intros _. simpl Zdigits2.
  rewrite digits2_pos_size.
  destruct p as [p|p|]; simpl; try reflexivity; lia.
Qed.

Lemma Zdigits2_mul_pow2_pos (z k : Z) :
  0 < z -> 0 <= k -> Zdigits2 (z * 2 ^ k) = Zdigits2 z + k.
Proof.
  intros Hz Hk. rewrite !Zdigits2_log2 by (try apply Z.mul_pos_pos; lia).
  rewrite Z.log2_mul_pow2 by lia. lia.
Qed.

Lemma Zdigits2_mul_pow2 (m : positive) (k : Z) :
  0 <= k -> Zdigits2 (Zpos m * 2 ^ k) = Zdigits2 (Zpos m) + k.
Proof. intros Hk. by apply Zdigits2_mul_pow2_pos. Qed.

Lemma iter_pos_nat {A} (f : A -> A) (p : positive) (x : A) :
  SpecFloat.iter_pos f p x = Nat.iter (Pos.to_nat p) f x.
Proof.
  revert x. induction p as [p IH|p IH|]; intros x; simpl SpecFloat.iter_pos.
  - rewrite !IH, Pos2Nat.inj_xI, <- Nat.iter_add, <- Nat.iter_succ_r.
    f_equal. lia.
  - rewrite !IH, Pos2Nat.inj_xO, <- Nat.iter_add. f_equal. lia.
  - reflexivity.
Qed.

Lemma shr_1_double (z : Z) :
  0 <= z -> shr_1 (Build_shr_record (2 * z) false false) = Build_shr_record z false false.
Proof. destruct z; try lia; reflexivity. Qed.

Lemma iter_shr_1_exact (n : nat) (z : Z) :
  0 <= z ->
  Nat.iter n shr_1 (Build_shr_record (z * 2 ^ Z.of_nat n) false false)
  = Build_shr_record z false false.
Proof.
  revert z. induction n as [|n IH]; intros z Hz.
  - simpl. f_equal. lia.
  - rewrite Nat.iter_succ_r.
    replace (z * 2 ^ Z.of_nat (S n)) with (2 * (z * 2 ^ Z.of_nat n)).
    2:{ rewrite Nat2Z.inj_succ, Z.pow_succ_r by lia. ring. }
    rewrite shr_1_double by (apply Z.mul_nonneg_nonneg; lia).
    by apply IH.
Qed.

Lemma shr_exact (z e k : Z) :
  0 <= z -> 0 <= k ->
  shr (Build_shr_record (z * 2 ^ k) false false) e k
  = (Build_shr_record z false false, e + k).
Proof.
  intros Hz Hk. destruct k as [|p|p]; try lia.
  - simpl. rewrite Z.mul_1_r, Z.add_0_r. reflexivity.
  - unfold shr. rewrite iter_pos_nat.
    rewrite <- (positive_nat_Z p) at 1. by rewrite iter_shr_1_exact.
Qed.

(** Rounding a mantissa that carries [k] trailing zero bits below a
    canonical one is exact. *)
Lemma binary_round_aux_exact (s : bool) (m : positive) (e k : Z) :
  0 <= k ->
  canonical_mantissa prec emax m (e + k) = true ->
  binary_round_aux prec emax s (Zpos m * 2 ^ k) e loc_Exact
  = if e + k <=? emax - prec then S754_finite s m (e + k) else S754_infinity s.
Proof.
  intros Hk Hc. unfold canonical_mantissa in Hc. apply Z.eqb_eq in Hc.
  change (Zpos (digits2_pos m)) with (Zdigits2 (Zpos m)) in Hc.
  unfold binary_round_aux, shr_fexp.
  rewrite Zdigits2_mul_pow2 by done.
  replace (fexp prec emax (Zdigits2 (Zpos m) + k + e) - e) with k.
  2:{ replace (Zdigits2 (Zpos m) + k + e) with (Zdigits2 (Zpos m) + (e + k)) by lia. lia. }
  simpl shr_record_of_loc. rewrite shr_exact by lia.
  simpl round_nearest_even. simpl shr_record_of_loc.
  rewrite Hc, Z.sub_diag. reflexivity.
Qed.


Lemma of_Z_SCALE : of_Z SCALE = S754_finite false 8388608 (-8).
Proof. reflexivity. Qed.

Lemma valid_finite_inv (s : bool) (m : positive) (e : Z) :
  valid (S754_finite s m e) = true ->
  Z.max (Zdigits2 (Zpos m) + e - 24) (-149) = e /\ e <= 104 /\ 1 <= Zdigits2 (Zpos m).
Proof.
  unfold valid, valid_binary, bounded, canonical_mantissa, fexp, SpecFloat.emin.
  intros [H1 H2]%andb_prop. apply Z.eqb_eq in H1. apply Z.leb_le in H2.
  change (emax - prec) with 104 in H2. change (3 - emax - prec) with (-149) in H1.
  change prec with 24 in H1. simpl Zdigits2. split; [exact H1|]. split; [exact H2|]. lia.
Qed.

(** Multiplication by [SCALE], a power of two, commits no rounding error:
    the product is the datum of value [m * 2^(e+15)], or an infinity when
    that is too large for binary32. *)
Lemma mul_SCALE_finite (s : bool) (m : positive) (e : Z) :
  valid (S754_finite s m e) = true ->
  let E := scaled_exponent m e in
  mul (S754_finite s m e) (of_Z SCALE)
  = if E <=? 104
    then S754_finite s (Z.to_pos (Zpos m * 2 ^ (e + 15 - E))) E
    else S754_infinity s.
Proof.
  intros Hv E. apply valid_finite_inv in Hv as (Hc & He & Hd).
  assert (Hj : 0 <= e + 15 - E) by (unfold E, scaled_exponent; lia).
  assert (Hk : 0 <= 23 - (e + 15 - E)) by (unfold E, scaled_exponent; lia).
  assert (HM : Zpos (Z.to_pos (Zpos m * 2 ^ (e + 15 - E))) = Zpos m * 2 ^ (e + 15 - E)).
  { apply Z2Pos.id. apply Z.mul_pos_pos; [lia|]. by apply Z.pow_pos_nonneg. }
  rewrite of_Z_SCALE. unfold mul, SFmul. rewrite xorb_false_r.
  replace (Zpos (m * 8388608)) with
    (Zpos (Z.to_pos (Zpos m * 2 ^ (e + 15 - E))) * 2 ^ (23 - (e + 15 - E))).
  2:{ rewrite HM, <- Z.mul_assoc, <- Z.pow_add_r by lia.
      replace (e + 15 - E + (23 - (e + 15 - E))) with 23 by lia. reflexivity. }
  rewrite binary_round_aux_exact; [|lia|].
  - replace (e + -8 + (23 - (e + 15 - E))) with E by lia. reflexivity.
  - unfold canonical_mantissa. apply Z.eqb_eq.
    change (Zpos (digits2_pos (Z.to_pos (Zpos m * 2 ^ (e + 15 - E)))))
      with (Zdigits2 (Zpos (Z.to_pos (Zpos m * 2 ^ (e + 15 - E))))).
    rewrite HM, Zdigits2_mul_pow2 by lia.
    unfold fexp, SpecFloat.emin. change (3 - emax - prec) with (-149).
    change prec with 24. unfold E, scaled_exponent in *. lia.
Qed.

Lemma trunc_mul_SCALE (s : bool) (m : positive) (e : Z) :
  valid (S754_finite s m e) = true ->
  scaled_exponent m e <= 104 ->
  trunc (mul (S754_finite s m e) (of_Z SCALE))
  = Some (cond_Zopp s (Z.shiftl (Zpos m) (e + 15))).
Proof.
  intros Hv HE. rewrite mul_SCALE_finite by done.
  apply valid_finite_inv in Hv as (Hc & He & Hd).
  set (E := scaled_exponent m e) in *.
  assert (Hj : 0 <= e + 15 - E) by (unfold E, scaled_exponent; lia).
  destruct (Z.leb_spec E 104); [|lia]. simpl trunc.
  rewrite Z2Pos.id by (apply Z.mul_pos_pos; [lia|]; by apply Z.pow_pos_nonneg).
  rewrite <- Z.shiftl_mul_pow2, Z.shiftl_shiftl by lia.
  do 3 f_equal. lia.
Qed.


Lemma cond_Zopp_mul (s : bool) (a b : Z) : cond_Zopp s a * b = cond_Zopp s (a * b).
Proof. destruct s; simpl; lia. Qed.

Lemma quot_cond_Zopp (s : bool) (a b : Z) :
  0 <= a -> 0 < b -> Z.quot (cond_Zopp s a) b = cond_Zopp s (a / b).
Proof.
  intros Ha Hb. destruct s; simpl.
  - rewrite Z.quot_opp_l, Z.quot_div_nonneg by lia. reflexivity.
  - by apply Z.quot_div_nonneg.
Qed.

(** [trunc] is truncation of the denoted rational, here after scaling. *)
Lemma Qtrunc_to_Q_scaled (s : bool) (m : positive) (e : Z) :
  Qtrunc (to_Q (S754_finite s m e) * inject_Z SCALE)
  = cond_Zopp s (Z.shiftl (Zpos m) (e + 15)).
Proof.
  unfold Qtrunc, to_Q. destruct e as [|p|p].
  - simpl Qnum. simpl Qden. rewrite Z.quot_1_r, Z.shiftl_mul_pow2 by lia.
    rewrite Z.pow_0_r, Z.mul_1_r, cond_Zopp_mul. reflexivity.
  - simpl Qnum. simpl Qden. rewrite Z.quot_1_r, Z.shiftl_mul_pow2 by lia.
    rewrite !cond_Zopp_mul, Z.pow_add_r by lia. f_equal. unfold SCALE.
    change (2 ^ 15) with 32768. ring.
  - simpl Qnum. simpl Qden. rewrite Pos.mul_1_r, cond_Zopp_mul.
    rewrite quot_cond_Zopp; [|unfold SCALE; lia|lia].
    f_equal. rewrite Pos2Z.inj_pow.
    replace (Z.neg p + 15) with (15 + - Z.pos p) by lia.
    rewrite <- Z.shiftl_shiftl, (Z.shiftl_mul_pow2 _ 15) by lia.
    change (Z.shiftl ?a (- ?b)) with (Z.shiftr a b).
    rewrite Z.shiftr_div_pow2 by lia. reflexivity.
Qed.

Lemma trunc_mul_SCALE_Q (x : float32) :
  valid x = true -> is_finite x = true ->
  (INT_MIN <= Qtrunc (to_Q x * inject_Z SCALE) <= INT_MAX) ->
  trunc (mul x (of_Z SCALE)) = Some (Qtrunc (to_Q x * inject_Z SCALE)).
Proof.
  intros Hv Hf Hr. destruct x as [s|s| |s m e]; try discriminate.
  - destruct s; reflexivity.
  - rewrite Qtrunc_to_Q_scaled in *. apply trunc_mul_SCALE; [done|].
    pose proof Hv as (Hc & He & Hd)%valid_finite_inv.
    unfold scaled_exponent.
    destruct (Z.le_gt_cases (e + 15) 31) as [Hs|Hs]; [lia|exfalso].
    rewrite Z.shiftl_mul_pow2 in Hr by lia.
    assert (2 ^ 32 <= 2 ^ (e + 15)) by (apply Z.pow_le_mono_r; lia).
    assert (2 ^ 32 <= Zpos m * 2 ^ (e + 15)) by nia.
    unfold INT_MIN, INT_MAX in Hr. destruct s; simpl in Hr; lia.
Qed.

(** Truncation is off by less than one. *)
Lemma Qtrunc_error (q : Q) : (Qabs (inject_Z (Qtrunc q) - q) < 1)%Q.
Proof.
  destruct q as [a b]. unfold Qtrunc, Qlt, Qminus, Qplus, Qopp, Qabs, inject_Z.
  simpl Qnum. simpl Qden.
  pose proof (Z.quot_rem' a (Zpos b)) as Hqr.
  pose proof (Z.rem_bound_abs a (Zpos b)) as Hb.
  rewrite Pos.mul_1_l. lia.
Qed.


Lemma Zpos_iter_xO (m d : positive) :
  Zpos (Pos.iter xO m d) = Zpos m * 2 ^ Zpos d.
Proof.
  induction d as [|d IH] using Pos.peano_ind.
  - simpl. lia.
  - rewrite Pos.iter_succ, Pos2Z.inj_xO, IH, Pos2Z.inj_succ, Z.pow_succ_r by lia.
    ring.
Qed.

Lemma shl_align_spec (mx : positive) (ex ex' : Z) :
  ex' <= ex ->
  shl_align mx ex ex' = (Z.to_pos (Zpos mx * 2 ^ (ex - ex')), ex').
Proof.
  intros Hle. unfold shl_align. destruct (ex' - ex) as [|d|d] eqn:Hd; try lia.
  - replace (ex - ex') with 0 by lia. rewrite Z.pow_0_r, Z.mul_1_r.
    simpl. f_equal. lia.
  - replace (ex - ex') with (Zpos d) by lia.
    rewrite <- Zpos_iter_xO. reflexivity.
Qed.

(** Integers below [2^24] in magnitude convert to [float] exactly. *)
Lemma of_Z_small (t : Z) :
  t <> 0 -> Z.abs t < 2 ^ 24 ->
  let d := Zdigits2 (Z.abs t) in
  of_Z t = S754_finite (t <? 0) (Z.to_pos (Z.abs t * 2 ^ (24 - d))) (d - 24).
Proof.
  intros Ht Hb d.
  assert (Hd : 1 <= d <= 24).
  { unfold d. rewrite Zdigits2_log2 by lia.
    pose proof (Z.log2_nonneg (Z.abs t)).
    assert (Z.log2 (Z.abs t) < 24) by (apply Z.log2_lt_pow2; lia). lia. }
  assert (Haux : forall (s : bool) (p : positive),
    Zdigits2 (Zpos p) = d ->
    binary_round prec emax s p 0
    = S754_finite s (Z.to_pos (Zpos p * 2 ^ (24 - d))) (d - 24)).
  { intros s p Hp. unfold binary_round.
    change (Zpos (digits2_pos p)) with (Zdigits2 (Zpos p)). rewrite Hp.
    replace (fexp prec emax (d + 0)) with (d - 24)
      by (unfold fexp, SpecFloat.emin; change prec with 24; change emax with 128; lia).
    rewrite shl_align_spec by lia.
    replace (0 - (d - 24)) with (24 - d) by lia.
    assert (HM : Zpos (Z.to_pos (Zpos p * 2 ^ (24 - d))) = Zpos p * 2 ^ (24 - d)).
    { apply Z2Pos.id. apply Z.mul_pos_pos; [lia|]. apply Z.pow_pos_nonneg; lia. }
    pose proof (binary_round_aux_exact s (Z.to_pos (Zpos p * 2 ^ (24 - d))) (d - 24) 0)
      as Hr.
    rewrite Z.pow_0_r, Z.mul_1_r, Z.add_0_r in Hr. rewrite Hr; [|lia|].
    - destruct (Z.leb_spec (d - 24) (emax - prec)); [done|].
      change (emax - prec) with 104 in *. lia.
    - unfold canonical_mantissa. apply Z.eqb_eq.
      change (Zpos (digits2_pos ?q)) with (Zdigits2 (Zpos q)).
      rewrite HM, Zdigits2_mul_pow2, Hp by lia.
      unfold fexp, SpecFloat.emin. change prec with 24. change emax with 128. lia. }
  destruct t as [|p|p]; [done| |]; simpl in d; apply Haux; reflexivity.
Qed.

(** Division of a normal datum by [SCALE] only lowers the exponent. *)
Lemma div_SCALE_normal (s : bool) (m : positive) (e : Z) :
  Zdigits2 (Zpos m) = 24 -> -133 <= e <= 119 ->
  div (S754_finite s m e) (of_Z SCALE) = S754_finite s m (e - 15).
Proof.
  intros Hd He. rewrite of_Z_SCALE. unfold div, SFdiv, SFdiv_core_binary.
  rewrite Hd. change (Zdigits2 8388608) with 24.
  replace (Z.min (fexp prec emax (24 + e - (24 + -8))) (e - -8)) with (e - 16)
    by (unfold fexp, SpecFloat.emin; change prec with 24; change emax with 128; lia).
  replace (e - -8 - (e - 16)) with 24 by lia.
  rewrite Z.shiftl_mul_pow2 by lia.
  assert (Hdiv : Z.div_eucl (Zpos m * 2 ^ 24) 8388608 = (Zpos m * 2 ^ 1, 0)).
  { pose proof (Z.div_eucl_eq (Zpos m * 2 ^ 24) 8388608) as Heq.
    pose proof (Z.mod_pos_bound (Zpos m * 2 ^ 24) 8388608) as Hb.
    unfold Z.modulo in Hb.
    destruct (Z.div_eucl (Zpos m * 2 ^ 24) 8388608) as [q r].
    specialize (Heq ltac:(lia)). specialize (Hb ltac:(lia)).
    change (2 ^ 24) with 16777216 in *. change (2 ^ 1) with 2.
    f_equal; lia. }
  rewrite Hdiv. change (new_location 8388608 0) with loc_Exact.
  rewrite xorb_false_r, binary_round_aux_exact; [|lia|].
  - replace (e - 16 + 1) with (e - 15) by lia.
    destruct (Z.leb_spec (e - 15) (emax - prec)); [done|].
    change (emax - prec) with 104 in *. lia.
  - unfold canonical_mantissa. apply Z.eqb_eq.
    change (Zpos (digits2_pos m)) with (Zdigits2 (Zpos m)). rewrite Hd.
    unfold fexp, SpecFloat.emin. change prec with 24. change emax with 128. lia.
Qed.

(** Converting a [signed short] to [float] and dividing by [SCALE] is
    exact. *)
Lemma div_of_short (t : Z) :
  -32768 <= t <= 32767 ->
  (to_Q (div (of_Z t) (of_Z SCALE)) == t # 32768)%Q.
Proof.
  intros Ht. destruct (Z.eq_dec t 0) as [->|Hnz]; [reflexivity|].
  rewrite of_Z_small by lia.
  set (d := Zdigits2 (Z.abs t)).
  assert (Hd : 1 <= d <= 16).
  { unfold d. rewrite Zdigits2_log2 by lia.
    pose proof (Z.log2_nonneg (Z.abs t)).
    assert (Z.log2 (Z.abs t) < 16) by (apply Z.log2_lt_pow2; lia). lia. }
  assert (HM : Zpos (Z.to_pos (Z.abs t * 2 ^ (24 - d))) = Z.abs t * 2 ^ (24 - d)).
  { apply Z2Pos.id. apply Z.mul_pos_pos; [lia|]. apply Z.pow_pos_nonneg; lia. }
  rewrite div_SCALE_normal; [| |lia].
  2:{ rewrite HM, Zdigits2_mul_pow2_pos by lia. fold d. lia. }
  unfold to_Q. destruct (d - 24 - 15) as [|q|q] eqn:Hq; try lia.
  unfold Qeq. simpl Qnum. simpl Qden. rewrite HM, Pos2Z.inj_pow.
  replace (Zpos q) with ((24 - d) + 15) by lia.
  rewrite Z.pow_add_r by lia. change (2 ^ 15) with 32768.
  destruct (Z.ltb_spec t 0); simpl cond_Zopp; nia.
Qed.

End FloatFacts.


(** ** The two converters *)

Section Converter.
Context `{T : Target}.

Lemma for_channels_unfold {S : Type} (body : nat -> S -> option S) (st : S) :
  for_channels body st = body 0 st ≫= body 1.
Proof. reflexivity. Qed.

Lemma interleave_sample_eq (n : nat) (b : list cell) (bp : nat)
    (jbuf : list (cursor float32)) (a : list float32) (o : nat) (x : float32) :
  jbuf !! n = Some (Cursor a o) -> a !! o = Some x -> bp < length b ->
  interleave_sample n (Cursor b bp, jbuf)
  = Some (Cursor (<[bp := Some (to_short x)]> b) (S bp),
          <[n := Cursor a (S o)]> jbuf).
Proof.
  intros Hj Hx Hb. unfold interleave_sample, deref, store. simpl.
  rewrite Hj. simpl. rewrite Hx. simpl. by rewrite decide_True.
Qed.

(** One pass of the inner loop of [interleave]. *)
Lemma interleave_frame (b : list cell) (bp : nat) (a0 a1 : list float32)
    (o0 o1 : nat) (x0 x1 : float32) :
  a0 !! o0 = Some x0 -> a1 !! o1 = Some x1 -> bp + 1 < length b ->
  for_channels interleave_sample (Cursor b bp, [Cursor a0 o0; Cursor a1 o1])
  = Some (Cursor (<[S bp := Some (to_short x1)]> (<[bp := Some (to_short x0)]> b))
                 (S (S bp)),
          [Cursor a0 (S o0); Cursor a1 (S o1)]).
Proof.
  intros H0 H1 Hb. rewrite for_channels_unfold.
  rewrite (interleave_sample_eq 0 _ _ _ a0 o0 x0) by (done || lia). simpl.
  rewrite (interleave_sample_eq 1 _ _ _ a1 o1 x1);
    [done|done|done|rewrite length_insert; lia].
Qed.

Lemma interleave_spec (N : nat) :
  forall (b : list cell) (bp : nat) (a0 a1 : list float32) (o0 o1 : nat),
  bp + 2 * N <= length b -> o0 + N <= length a0 -> o1 + N <= length a1 ->
  exists b' : list cell,
    interleave (Cursor b bp) [Cursor a0 o0; Cursor a1 o1] N
    = Some (Cursor b' (bp + 2 * N), [Cursor a0 (o0 + N); Cursor a1 (o1 + N)])
    /\ length b' = length b
    /\ (forall i, i < bp \/ bp + 2 * N <= i -> b' !! i = b !! i)
    /\ (forall f, f < N ->
          b' !! (bp + 2 * f) = (fun x => Some (to_short x)) <$> a0 !! (o0 + f)
          /\ b' !! (bp + 2 * f + 1) = (fun x => Some (to_short x)) <$> a1 !! (o1 + f)).
Proof.
  induction N as [|N IH]; intros b bp a0 a1 o0 o1 Hb H0 H1.
  - exists b. simpl. rewrite !Nat.add_0_r.
    split; [done|]. split; [done|]. split; [done|]. intros f Hf. lia.
  - destruct (lookup_lt_is_Some_2 a0 o0 ltac:(lia)) as [x0 Hx0].
    destruct (lookup_lt_is_Some_2 a1 o1 ltac:(lia)) as [x1 Hx1].
    change (interleave ?c ?j (S N))
      with (for_channels interleave_sample (c, j) ≫= fun st => interleave st.1 st.2 N).
    rewrite (interleave_frame _ _ _ _ _ _ x0 x1) by (done || lia).
    set (b1 := <[S bp := Some (to_short x1)]> (<[bp := Some (to_short x0)]> b)).
    assert (Hl1 : length b1 = length b) by (unfold b1; by rewrite !length_insert).
    destruct (IH b1 (S (S bp)) a0 a1 (S o0) (S o1)) as (b' & Hrun & Hlen & Hout & Hin);
      try lia.
    exists b'. split; [|split; [|split]].
    + replace (bp + 2 * S N) with (S (S bp) + 2 * N) by lia.
      replace (o0 + S N) with (S o0 + N) by lia.
      replace (o1 + S N) with (S o1 + N) by lia. exact Hrun.
    + lia.
    + intros i Hi. rewrite Hout by lia. unfold b1.
      rewrite !list_lookup_insert_ne by lia. done.
    + intros [|f] Hf.
      * replace (bp + 2 * 0) with bp by lia. rewrite !Nat.add_0_r, Hx0, Hx1.
        cbn [fmap option_fmap option_map].
        rewrite !Hout by lia. unfold b1. split.
        -- rewrite list_lookup_insert_ne by lia.
           apply list_lookup_insert_eq. lia.
        -- replace (bp + 1) with (S bp) by lia.
           apply list_lookup_insert_eq. rewrite length_insert. lia.
      * destruct (Hin f ltac:(lia)) as [E0 E1].
        replace (bp + 2 * S f) with (S (S bp) + 2 * f) by lia.
        replace (o0 + S f) with (S o0 + f) by lia.
        replace (o1 + S f) with (S o1 + f) by lia. done.
Qed.


End Converter.

Lemma uninterleave_sample_eq (n : nat) (jbuf : list (cursor float32))
    (a : list float32) (o : nat) (b : list cell) (bp : nat) (s : Z) :
  jbuf !! n = Some (Cursor a o) -> b !! bp = Some (Some s) -> o < length a ->
  uninterleave_sample n (jbuf, Cursor b bp)
  = Some (<[n := Cursor (<[o := to_sample s]> a) (S o)]> jbuf, Cursor b (S bp)).
Proof.
  intros Hj Hs Ho. unfold uninterleave_sample, deref, store. simpl.
  rewrite Hj. simpl. rewrite Hs. simpl. by rewrite decide_True.
Qed.

(** One pass of the inner loop of [uninterleave]. *)
Lemma uninterleave_frame (a0 a1 : list float32) (o0 o1 : nat) (b : list cell)
    (bp : nat) (s0 s1 : Z) :
  b !! bp = Some (Some s0) -> b !! S bp = Some (Some s1) ->
  o0 < length a0 -> o1 < length a1 ->
  for_channels uninterleave_sample ([Cursor a0 o0; Cursor a1 o1], Cursor b bp)
  = Some ([Cursor (<[o0 := to_sample s0]> a0) (S o0);
           Cursor (<[o1 := to_sample s1]> a1) (S o1)],
          Cursor b (S (S bp))).
Proof.
  intros H0 H1 Ho0 Ho1. rewrite for_channels_unfold.
  rewrite (uninterleave_sample_eq 0 _ a0 o0 _ _ s0) by done. simpl.
  by rewrite (uninterleave_sample_eq 1 _ a1 o1 _ _ s1).
Qed.

Lemma uninterleave_spec (N : nat) :
  forall (a0 a1 : list float32) (o0 o1 : nat) (b : list cell) (bp : nat),
  o0 + N <= length a0 -> o1 + N <= length a1 -> initialised b bp (2 * N) ->
  exists a0' a1' : list float32,
    uninterleave [Cursor a0 o0; Cursor a1 o1] (Cursor b bp) N
    = Some ([Cursor a0' (o0 + N); Cursor a1' (o1 + N)], Cursor b (bp + 2 * N))
    /\ (length a0' = length a0 /\ length a1' = length a1)
    /\ (forall i, i < o0 \/ o0 + N <= i -> a0' !! i = a0 !! i)
    /\ (forall i, i < o1 \/ o1 + N <= i -> a1' !! i = a1 !! i)
    /\ (forall f, f < N ->
          a0' !! (o0 + f) = b !! (bp + 2 * f) ≫= fmap to_sample
          /\ a1' !! (o1 + f) = b !! (bp + 2 * f + 1) ≫= fmap to_sample).
Proof.
  induction N as [|N IH]; intros a0 a1 o0 o1 b bp H0 H1 Hinit.
  - exists a0, a1. simpl. rewrite !Nat.add_0_r.
    split; [done|]. split; [done|]. split; [done|]. split; [done|].
    intros f Hf. lia.
  - destruct (Hinit 0 ltac:(lia)) as [s0 Hs0].
    destruct (Hinit 1 ltac:(lia)) as [s1 Hs1].
    rewrite Nat.add_0_r in Hs0. replace (bp + 1) with (S bp) in Hs1 by lia.
    change (uninterleave ?j ?c (S N))
      with (for_channels uninterleave_sample (j, c)
              ≫= fun st => uninterleave st.1 st.2 N).
    rewrite (uninterleave_frame _ _ _ _ _ _ s0 s1) by (done || lia).
    set (a0s := <[o0 := to_sample s0]> a0).
    set (a1s := <[o1 := to_sample s1]> a1).
    destruct (IH a0s a1s (S o0) (S o1) b (S (S bp)))
      as (a0' & a1' & Hrun & [Hl0 Hl1] & Hout0 & Hout1 & Hin).
    { unfold a0s. rewrite length_insert. lia. }
    { unfold a1s. rewrite length_insert. lia. }
    { intros i Hi. destruct (Hinit (S (S i)) ltac:(lia)) as [s Hs].
      exists s. rewrite <- Hs. f_equal. lia. }
    exists a0', a1'. split; [|split; [|split; [|split]]].
    + replace (bp + 2 * S N) with (S (S bp) + 2 * N) by lia.
      replace (o0 + S N) with (S o0 + N) by lia.
      replace (o1 + S N) with (S o1 + N) by lia. exact Hrun.
    + unfold a0s, a1s in *. rewrite length_insert in Hl0, Hl1. done.
    + intros i Hi. rewrite Hout0 by lia. unfold a0s.
      by rewrite list_lookup_insert_ne by lia.
    + intros i Hi. rewrite Hout1 by lia. unfold a1s.
      by rewrite list_lookup_insert_ne by lia.
    + intros [|f] Hf.
      * replace (bp + 2 * 0) with bp by lia. rewrite !Nat.add_0_r.
        replace (bp + 1) with (S bp) by lia. rewrite Hs0, Hs1.
        cbn [mbind option_bind fmap option_fmap option_map].
        rewrite Hout0, Hout1 by lia. unfold a0s, a1s.
        split; apply list_lookup_insert_eq; lia.
      * destruct (Hin f ltac:(lia)) as [E0 E1].
        replace (bp + 2 * S f) with (S (S bp) + 2 * f) by lia.
        replace (o0 + S f) with (S o0 + f) by lia.
        replace (o1 + S f) with (S o1 + f) by lia. done.
Qed.


(** ** Accuracy of the conversion *)

Lemma Qtrunc_bounds (q : Q) (a b : Z) :
  (inject_Z a <= q <= inject_Z b)%Q -> (a <= Qtrunc q <= b)%Z.
Proof.
  destruct q as [n d]. unfold Qle, Qtrunc, inject_Z. simpl Qnum. simpl Qden.
  intros [Ha Hb].
  pose proof (Z.quot_rem' n (Zpos d)) as Hqr.
  pose proof (Z.rem_bound_abs n (Zpos d)) as Hr.
  pose proof (Z.rem_sign_mul n (Zpos d)) as Hs.
  specialize (Hr ltac:(lia)). specialize (Hs ltac:(lia)).
  nia.
Qed.

Lemma wrap16_small (z : Z) : (-32768 <= z <= 32767)%Z -> wrap16 z = z.
Proof. intros Hz. unfold wrap16. rewrite Z.mod_small by lia. lia. Qed.

Section Numeric.
Context `{T : Target}.

(** What [interleave] stores for a sample whose scaled integral part fits
    a [signed short]: that integral part. *)
Lemma to_short_in_range (v : float32) :
  valid v = true -> is_finite v = true ->
  (SHRT_MIN <= Qtrunc (to_Q v * inject_Z SCALE) <= SHRT_MAX)%Z ->
  to_short v = Qtrunc (to_Q v * inject_Z SCALE).
Proof.
  intros Hv Hf Hr. unfold to_short, short_of_float.
  rewrite trunc_mul_SCALE_Q
    by (done || (unfold INT_MIN, INT_MAX, SHRT_MIN, SHRT_MAX in *; lia)).
  destruct Hr as [Hlo Hhi]. apply Z.leb_le in Hlo, Hhi. by rewrite Hlo, Hhi.
Qed.

(** For any other sample it is left to the target. *)
Lemma to_short_out_of_range (v : float32) :
  valid v = true -> is_finite v = true ->
  ~ (SHRT_MIN <= Qtrunc (to_Q v * inject_Z SCALE) <= SHRT_MAX)%Z ->
  to_short v = wrap16 (fp_invalid (mul v (of_Z SCALE))).
Proof.
  intros Hv Hf Hr. unfold to_short, short_of_float.
  destruct v as [s|s| |s m e]; [|done|done|].
  { destruct Hr. by destruct s. }
  rewrite Qtrunc_to_Q_scaled in Hr.
  destruct (Z.leb_spec (scaled_exponent m e) 104) as [HE|HE].
  - rewrite trunc_mul_SCALE by done.
    destruct ((SHRT_MIN <=? _) && (_ <=? SHRT_MAX))%Z eqn:Hin; [|done].
    apply andb_prop in Hin as [Hlo Hhi]. apply Z.leb_le in Hlo, Hhi. by destruct Hr.
  - rewrite mul_SCALE_finite by done. cbv zeta.
    destruct (Z.leb_spec (scaled_exponent m e) 104); [lia|done].
Qed.

Lemma sample_roundtrip (v : float32) :
  valid v = true -> is_finite v = true ->
  (- (1) <= to_Q v <= 32767 # 32768)%Q ->
  (Qabs (to_Q (to_sample (to_short v)) - to_Q v) <= 1 # 32768)%Q.
Proof.
  intros Hv Hf [Hlo Hhi].
  set (t := Qtrunc (to_Q v * inject_Z SCALE)).
  assert (Ht : (-32768 <= t <= 32767)%Z).
  { apply Qtrunc_bounds. unfold SCALE. split.
    - change (inject_Z (-32768)) with (- (1) * inject_Z 32768)%Q.
      by apply Qmult_le_compat_r.
    - apply Qle_trans with ((32767 # 32768) * inject_Z 32768)%Q;
        [by apply Qmult_le_compat_r|done]. }
  rewrite to_short_in_range by (done || (fold t; unfold SHRT_MIN, SHRT_MAX; lia)).
  fold t. unfold to_sample.
  rewrite div_of_short by done.
  assert (He : ((t # 32768) - to_Q v
                == (inject_Z t - to_Q v * inject_Z SCALE) * (1 # 32768))%Q).
  { rewrite (Qmake_Qdiv t 32768). unfold SCALE. field. }
  rewrite He, Qabs_Qmult. change (Qabs (1 # 32768)) with (1 # 32768)%Q.
  apply Qle_trans with (1 * (1 # 32768))%Q; [|done].
  apply Qmult_le_compat_r; [|done].
  apply Qlt_le_weak, Qtrunc_error.
Qed.

End Numeric.

Section ConverterTheorems.
Context `{T : Target}.

Lemma interleave_cells (N : nat) (in0 in1 : list float32) (b : list cell) :
  2 * N <= length b -> N <= length in0 -> N <= length in1 ->
  exists b' : list cell,
    interleave (Cursor b 0) [Cursor in0 0; Cursor in1 0] N
    = Some (Cursor b' (2 * N), [Cursor in0 N; Cursor in1 N])
    /\ length b' = length b
    /\ (forall i, 2 * N <= i -> b' !! i = b !! i)
    /\ forall (c f : nat) (ch : list float32) (v : float32),
         [in0; in1] !! c = Some ch -> f < N -> ch !! f = Some v ->
         b' !! (DEVICE_CHANNELS * f + c) = Some (Some (to_short v)).
Proof.
  intros Hb H0 H1.
  destruct (interleave_spec N b 0 in0 in1 0 0) as (b' & Hrun & Hlen & Hout & Hin);
    try lia.
  exists b'. split; [exact Hrun|]. split; [exact Hlen|]. split.
  { intros i Hi. apply Hout. lia. }
  intros c f ch v Hc Hf Hv. destruct (Hin f Hf) as [E0 E1].
  rewrite !Nat.add_0_l in E0, E1. change DEVICE_CHANNELS with 2.
  destruct c as [|[|c]]; simpl in Hc; [| |done]; injection Hc as <-.
  - rewrite Nat.add_0_r, E0, Hv. done.
  - rewrite E1, Hv. done.
Qed.

(** C2 (as amended): for every frame count [N] and every two input channel
    arrays of at least [N] samples, [interleave] succeeds and writes, for
    each frame [f] and each channel [c] in channel order,
    [dst[2 * f + c] = (signed short)(src[c][f] * 32768)].  For a finite
    sample whose product has its integral part within the signed 16-bit
    range this is the product truncated toward zero, not rounded.
    [interleave] neither clamps nor wraps: for any other finite sample the
    cell holds what the target's conversion delivers for the product, which
    C leaves undefined. *)
Theorem interleave_truncates_in_range (N : nat) (in0 in1 : list float32)
    (b : list cell) :
  2 * N <= length b -> N <= length in0 -> N <= length in1 ->
  exists b' : list cell,
    interleave (Cursor b 0) [Cursor in0 0; Cursor in1 0] N
    = Some (Cursor b' (2 * N), [Cursor in0 N; Cursor in1 N])
    /\ forall (c f : nat) (ch : list float32) (v : float32),
         [in0; in1] !! c = Some ch -> f < N -> ch !! f = Some v ->
         b' !! (DEVICE_CHANNELS * f + c) = Some (Some (to_short v))
         /\ (valid v = true -> is_finite v = true ->
             ((SHRT_MIN <= Qtrunc (to_Q v * inject_Z SCALE) <= SHRT_MAX)%Z ->
              to_short v = Qtrunc (to_Q v * inject_Z SCALE))
             /\ (~ (SHRT_MIN <= Qtrunc (to_Q v * inject_Z SCALE) <= SHRT_MAX)%Z ->
                 to_short v = wrap16 (fp_invalid (mul v (of_Z SCALE))))).
Proof.
  intros Hb H0 H1.
  destruct (interleave_cells N in0 in1 b Hb H0 H1) as (b' & Hrun & _ & _ & Hin).
  exists b'. split; [exact Hrun|].
  intros c f ch v Hc Hf Hv. split; [by eapply Hin|]. intros Hvalid Hfin.
  split; [by apply to_short_in_range|by apply to_short_out_of_range].
Qed.

(** C1: for every frame and channel position, a well-formed sample [v]
    within the signed 16-bit fixed-point range ([-1 <= v <= 32767/32768])
    comes back from [interleave] followed by [uninterleave] within one
    quantization step: [|v' - v| <= 1/32768]. *)
Theorem roundtrip_within_one_step (N : nat) (in0 in1 out0 out1 : list float32)
    (b : list cell) :
  2 * N <= length b ->
  N <= length in0 -> N <= length in1 ->
  N <= length out0 -> N <= length out1 ->
  exists (b' : list cell) (out0' out1' : list float32),
    interleave (Cursor b 0) [Cursor in0 0; Cursor in1 0] N
    = Some (Cursor b' (2 * N), [Cursor in0 N; Cursor in1 N])
    /\ uninterleave [Cursor out0 0; Cursor out1 0] (Cursor b' 0) N
       = Some ([Cursor out0' N; Cursor out1' N], Cursor b' (2 * N))
    /\ forall (c f : nat) (ch : list float32) (v : float32),
         [in0; in1] !! c = Some ch -> f < N -> ch !! f = Some v ->
         valid v = true -> is_finite v = true ->
         (- (1) <= to_Q v <= 32767 # 32768)%Q ->
         exists (ch' : list float32) (v' : float32),
           [out0'; out1'] !! c = Some ch' /\ ch' !! f = Some v'
           /\ (Qabs (to_Q v' - to_Q v) <= 1 # 32768)%Q.
Proof.
  intros Hb Hi0 Hi1 Ho0 Ho1.
  destruct (interleave_spec N b 0 in0 in1 0 0) as (b' & Hrun & Hlen & _ & Hin);
    try lia.
  assert (Hinit : initialised b' 0 (2 * N)).
  { intros i Hi. rewrite Nat.add_0_l.
    destruct (Hin (i / 2) ltac:(apply Nat.Div0.div_lt_upper_bound; lia)) as [E0 E1].
    rewrite !Nat.add_0_l in E0, E1.
    destruct (lookup_lt_is_Some_2 in0 (i / 2)
                ltac:(pose proof (Nat.Div0.div_lt_upper_bound i 2 N); lia)) as [x0 Hx0].
    destruct (lookup_lt_is_Some_2 in1 (i / 2)
                ltac:(pose proof (Nat.Div0.div_lt_upper_bound i 2 N); lia)) as [x1 Hx1].
    rewrite Hx0 in E0. rewrite Hx1 in E1.
    cbn [fmap option_fmap option_map] in E0, E1.
    pose proof (Nat.div_mod_eq i 2) as Hdm.
    pose proof (Nat.mod_upper_bound i 2 ltac:(lia)) as Hm.
    destruct (i mod 2) as [|[|r]] eqn:Hr; [| |lia].
    - exists (to_short x0). rewrite <- E0. f_equal. lia.
    - exists (to_short x1). rewrite <- E1. f_equal. lia. }
  destruct (uninterleave_spec N out0 out1 0 0 b' 0)
    as (out0' & out1' & Hrun' & _ & _ & _ & Hout); try lia; [done|].
  exists b', out0', out1'. split; [exact Hrun|]. split; [exact Hrun'|].
  intros c f ch v Hc Hf Hv Hvalid Hfin Hrange.
  destruct (Hin f Hf) as [E0 E1]. destruct (Hout f Hf) as [F0 F1].
  rewrite !Nat.add_0_l in E0, E1, F0, F1.
  destruct c as [|[|c]]; simpl in Hc; [| |done]; injection Hc as <-.
  - exists out0', (to_sample (to_short v)). split; [done|]. split.
    + rewrite F0, E0, Hv. done.
    + by apply sample_roundtrip.
  - exists out1', (to_sample (to_short v)). split; [done|]. split.
    + rewrite F1, E1, Hv. done.
    + by apply sample_roundtrip.
Qed.


End ConverterTheorems.


(** ** Processing in the world *)

Lemma bind_Ret {A B} (m : M A) (k : A -> M B) (w w' : world) (a : A) :
  m w = Ret a w' -> bind m k w = k a w'.
Proof. intros H. unfold bind. by rewrite H. Qed.

Ltac proj :=
  cbn [client rate decks device heap port_buffers trace
       set_client set_rate set_decks set_device set_heap set_port_buffers set_trace].
Ltac step := erewrite bind_Ret; [|reflexivity]; cbv beta; proj.

Lemma get_buffers_ready (ports : list (option port_t)) (N : nat) (w : world)
    (p0 p1 : port_t) (a0 a1 : list float32) :
  ports_ready (port_buffers w) N ports p0 p1 a0 a1 ->
  for_collect (get_buffer ports) (seq 0 DEVICE_CHANNELS) w = Ret [a0; a1] w.
Proof.
  intros (-> & H0 & H1 & _ & _).
  unfold for_collect, get_buffer, bind, get, defined, ret. simpl.
  rewrite H0, H1. reflexivity.
Qed.

Lemma commit_buffers (p0 p1 : port_t) (j0 j1 : cursor float32) (w : world) :
  for_each (commit_buffer [Some p0; Some p1] [j0; j1]) (seq 0 DEVICE_CHANNELS) w
  = Ret tt (set_port_buffers (<[p1 := arr j1]> (<[p0 := arr j0]> (port_buffers w))) w).
Proof. reflexivity. Qed.

Lemma player_fill_spec (b : list cell) (N : nat) (pcm : nat -> Z) :
  DEVICE_CHANNELS * N <= length b ->
  exists b', player_fill b N pcm = Some b'
    /\ forall i, i < DEVICE_CHANNELS * N -> b' !! i = Some (Some (wrap16 (pcm i))).
Proof.
  intros Hb. unfold player_fill. rewrite decide_True by done.
  eexists. split; [reflexivity|]. intros i Hi.
  rewrite lookup_app_l by (rewrite length_fmap, length_seq; lia).
  rewrite list_lookup_fmap, lookup_seq_lt by lia. reflexivity.
Qed.

Section Deck.
Context {T : Target}.

Lemma process_deck_spec (env : environment) (dv : dev_ptr) (N : nat) (w : world)
    (d : device_t) (jack : jack_t) (pi0 pi1 po0 po1 : port_t)
    (in0 in1 out0 out1 : list float32) :
  heap w !! dv = Some d -> local d = Some jack ->
  ports_ready (port_buffers w) N (input_port jack) pi0 pi1 in0 in1 ->
  ports_ready (port_buffers w) N (output_port jack) po0 po1 out0 out1 ->
  DEVICE_CHANNELS * N <= BUF_LEN ->
  exists (pcm : list cell) (out0' out1' : list float32),
    let t := trace w ++ deck_events dv d N (rate w) pcm in
    process_deck env dv N w
    = Ret tt (set_port_buffers (<[po1 := out1']> (<[po0 := out0']> (port_buffers w)))
                (set_trace t w))
    /\ interleaved N in0 in1 pcm
    /\ rendered N 0 (env_player_collect env t) out0 out0'
    /\ rendered N 1 (env_player_collect env t) out1 out1'.
Proof.
  intros Hd Hl Hin Hout HN.
  pose proof Hin as (Ei & Hi0 & Hi1 & Li0 & Li1).
  pose proof Hout as (Eo & Ho0 & Ho1 & Lo0 & Lo1).
  assert (Hb : 2 * N <= length (replicate (A:=cell) BUF_LEN None))
    by (rewrite length_replicate; exact HN).
  destruct (interleave_cells N in0 in1 (replicate BUF_LEN None) Hb Li0 Li1)
    as (b & Hrun & Hlen & _ & Hcells).
  rewrite length_replicate in Hlen.
  set (pcm := take (DEVICE_CHANNELS * N) b).
  set (t := trace w ++ deck_events dv d N (rate w) pcm).
  destruct (player_fill_spec b N (env_player_collect env t)) as (b2 & Hfill & Hb2);
    [lia|].
  destruct (uninterleave_spec N out0 out1 0 0 b2 0)
    as (out0' & out1' & Hrun' & [Hl0 Hl1] & Hk0 & Hk1 & Hw); [lia|lia| |].
  { intros i Hi. rewrite Nat.add_0_l. eexists. apply Hb2. exact Hi. }
  exists pcm, out0', out1'. fold t. cbn zeta. split; [|split; [|split]].
  - unfold process_deck.
    step. step. rewrite Hd. step. rewrite Hl. step.
    erewrite bind_Ret; [|eapply (get_buffers_ready _ N); exact Hin].
    cbn [fmap list_fmap]. rewrite Hrun. step. cbn [fst arr]. step. fold pcm.
    assert (Hsub :
      match timecoder d with
      | Some tc => call (EvTimecoderSubmit tc pcm N (rate w)) (fun _ => tt)
      | None => ret tt
      end (set_trace (trace w ++ [EvProcessDeck dv N]) w)
      = Ret tt (set_trace
                  (trace w ++ [EvProcessDeck dv N]
                     ++ match timecoder d with
                        | Some tc => [EvTimecoderSubmit tc pcm N (rate w)]
                        | None => []
                        end) w)).
    { destruct (timecoder d).
      - unfold call. cbn [trace set_trace]. by rewrite <- app_assoc.
      - by rewrite app_nil_r. }
    erewrite bind_Ret; [|exact Hsub]. clear Hsub.
    erewrite bind_Ret; [|eapply (get_buffers_ready _ N); exact Hout].
    step. cbn [trace set_trace].
    replace ((trace w ++ [EvProcessDeck dv N]
                ++ match timecoder d with
                   | Some tc => [EvTimecoderSubmit tc pcm N (rate w)]
                   | None => []
                   end) ++ [EvPlayerCollect (player d) N (rate w)]) with t.
    2:{ unfold t, deck_events. by rewrite <- !app_assoc. }
    rewrite Hfill. step. cbn [fmap list_fmap]. rewrite Hrun'. step.
    cbn [fst]. rewrite Eo, commit_buffers. reflexivity.
  - split.
    + unfold pcm. rewrite length_take. lia.
    + intros c f ch v Hc Hf Hv. unfold pcm.
      rewrite lookup_take_lt.
      * by eapply Hcells.
      * destruct c as [|[|c]]; simpl in Hc; [| |done]; unfold DEVICE_CHANNELS; lia.
  - split; [done|]. split.
    + intros f Hf. destruct (Hw f Hf) as [E0 _]. rewrite Nat.add_0_l in E0.
      rewrite E0, Nat.add_0_l, Hb2 by (unfold DEVICE_CHANNELS; lia).
      rewrite Nat.add_0_r. reflexivity.
    + intros i Hi. apply Hk0. lia.
  - split; [done|]. split.
    + intros f Hf. destruct (Hw f Hf) as [_ E1]. rewrite Nat.add_0_l in E1.
      rewrite E1, Nat.add_0_l, Hb2 by (unfold DEVICE_CHANNELS; lia).
      reflexivity.
    + intros i Hi. apply Hk1. lia.
Qed.


End Deck.

Section Steps.
Context (R : relation world) `{!PreOrder R}.

Lemma steps_ret {A} (a : A) : steps R (ret a).
Proof. intros w. simpl. reflexivity. Qed.

Lemma steps_get {A} (f : world -> A) : steps R (get f).
Proof. intros w. simpl. reflexivity. Qed.

Lemma steps_abort {A} : steps R (@abort A).
Proof. intros w. simpl. reflexivity. Qed.

Lemma steps_fault {A} : steps R (@fault A).
Proof. intros w. exact I. Qed.

Lemma steps_assert (b : bool) : steps R (assert b).
Proof. destruct b; [apply steps_ret|apply steps_abort]. Qed.

Lemma steps_defined {A} (o : option A) : steps R (defined o).
Proof. destruct o; [apply steps_ret|apply steps_fault]. Qed.

Lemma steps_modify (f : world -> world) :
  (forall w, R w (f w)) -> steps R (modify f).
Proof. intros H w. apply H. Qed.

Lemma steps_call {A} (ev : event) (answer : list event -> A) :
  (forall w, R w (set_trace (trace w ++ [ev]) w)) -> steps R (call ev answer).
Proof. intros H w. apply H. Qed.

Lemma steps_bind {A B} (m : M A) (k : A -> M B) :
  steps R m -> (forall a, steps R (k a)) -> steps R (bind m k).
Proof.
  intros Hm Hk w. unfold bind. specialize (Hm w).
  destruct (m w) as [a w1|w1|]; [|done|done].
  specialize (Hk a w1). destruct (k a w1); [|  |done]; by etrans.
Qed.

Lemma steps_for_each {A} (body : A -> M unit) (l : list A) :
  (forall a, steps R (body a)) -> steps R (for_each body l).
Proof.
  intros Hb. induction l as [|a l IH]; simpl.
  - apply steps_ret.
  - apply steps_bind; [apply Hb|]. intros _. exact IH.
Qed.

Lemma steps_for_collect {A B} (body : A -> M B) (l : list A) :
  (forall a, steps R (body a)) -> steps R (for_collect body l).
Proof.
  intros Hb. induction l as [|a l IH]; simpl.
  - apply steps_ret.
  - apply steps_bind; [apply Hb|]. intros b.
    apply steps_bind; [exact IH|]. intros bs. apply steps_ret.
Qed.

End Steps.

#[global] Instance logs_preorder (P : event -> Prop) : PreOrder (logs P).
Proof.
  split.
  - intros w. exists []. by rewrite app_nil_r.
  - intros w1 w2 w3 (t1 & E1 & F1) (t2 & E2 & F2). exists (t1 ++ t2).
    split; [by rewrite E2, E1, app_assoc|]. by apply Forall_app.
Qed.

#[global] Instance keeps_registry_preorder : PreOrder keeps_registry.
Proof.
  split.
  - by intros w.
  - intros w1 w2 w3 (A1 & B1 & C1) (A2 & B2 & C2).
    repeat split; congruence.
Qed.

#[global] Instance keeps_client_preorder : PreOrder keeps_client.
Proof. split; [by intros w|]. intros w1 w2 w3 H1 H2. unfold keeps_client in *. congruence. Qed.

Ltac steps_step :=
  lazymatch goal with
  | |- PreOrder _ => exact _
  | |- steps _ (ret _) => apply steps_ret
  | |- steps _ (get _) => apply steps_get
  | |- steps _ abort => apply steps_abort
  | |- steps _ fault => apply steps_fault
  | |- steps _ (assert _) => apply steps_assert
  | |- steps _ (defined _) => apply steps_defined
  | |- steps _ (for_each _ _) => apply steps_for_each; [|intros ?]
  | |- steps _ (for_collect _ _) => apply steps_for_collect; [|intros ?]
  | |- steps _ (bind _ _) => apply steps_bind; [| |intros ?]
  | |- steps _ (match ?x with _ => _ end) => destruct x
  end.

Ltac steps_auto := repeat steps_step.

Lemma deck_calls_none (t : list event) :
  Forall (fun ev => deck_call ev = None) t -> deck_calls t = [].
Proof.
  induction 1 as [|ev t Hev _ IH]; [done|].
  unfold deck_calls in *. simpl. by rewrite Hev.
Qed.

Ltac steps_leaf :=
  first
    [ apply steps_modify; intros ?; first [done | by repeat split]
    | apply steps_call; intros ?; first [done | by repeat split] ].

Section DeckFrames.
Context {T : Target}.

Lemma bind_Ret_inv {A B} (m : M A) (k : A -> M B) (w w' : world) (b : B) :
  bind m k w = Ret b w' -> exists a w1, m w = Ret a w1 /\ k a w1 = Ret b w'.
Proof. unfold bind. destruct (m w) as [a w1| |]; [|done|done]. eauto. Qed.

Lemma logs_call (P : event -> Prop) (ev : event) (w : world) :
  P ev -> logs P w (set_trace (trace w ++ [ev]) w).
Proof. intros Hev. exists [ev]. split; [done|]. by constructor. Qed.

Lemma logs_same_trace (P : event -> Prop) (w w' : world) :
  trace w' = trace w -> logs P w w'.
Proof. intros E. exists []. split; [by rewrite app_nil_r|done]. Qed.

Lemma get_buffer_steps (R : relation world) `{!PreOrder R}
    (ports : list (option port_t)) (n : nat) :
  steps R (get_buffer ports n).
Proof. unfold get_buffer. steps_auto. Qed.

Lemma process_deck_keeps_registry (env : environment) (dv : dev_ptr) (N : nat) :
  steps keeps_registry (process_deck env dv N).
Proof.
  unfold process_deck, commit_buffer.
  steps_auto; try (apply get_buffer_steps; exact _); steps_leaf.
Qed.

(** A completed [process_deck] logged its own entry first and no other
    entry into [process_deck]. *)
Lemma process_deck_calls (env : environment) (dv : dev_ptr) (N : nat)
    (w w' : world) :
  process_deck env dv N w = Ret tt w' ->
  exists t, trace w' = trace w ++ t /\ deck_calls t = [(dv, N)].
Proof.
  unfold process_deck. intros (a & w1 & Hcall & Hrest)%bind_Ret_inv.
  injection Hcall as <- <-.
  match type of Hrest with
  | ?k _ = _ =>
      assert (Hk : steps (logs (fun ev => deck_call ev = None)) k)
  end.
  { unfold commit_buffer.
    steps_auto; try (apply get_buffer_steps; exact _);
      first [ apply steps_call; intros ?; by apply logs_call
            | apply steps_modify; intros ?; by apply logs_same_trace ]. }
  specialize (Hk (set_trace (trace w ++ [EvProcessDeck dv N]) w)).
  rewrite Hrest in Hk. destruct Hk as (t & Et & Ft).
  exists (EvProcessDeck dv N :: t). split.
  - rewrite Et. simpl. by rewrite <- app_assoc.
  - unfold deck_calls. simpl. f_equal. by apply deck_calls_none.
Qed.

End DeckFrames.

Section Callback.
Context {T : Target}.

Lemma ports_ready_update (pb : gmap port_t (list float32)) (N : nat)
    (ports : list (option port_t)) (p0 p1 : port_t) (a0 a1 : list float32)
    (po0 po1 : port_t) (o0 o1 o0' o1' : list float32) :
  ports_ready pb N ports p0 p1 a0 a1 ->
  pb !! po0 = Some o0 -> pb !! po1 = Some o1 ->
  length o0' = length o0 -> length o1' = length o1 ->
  exists a0' a1',
    ports_ready (<[po1 := o1']> (<[po0 := o0']> pb)) N ports p0 p1 a0' a1'.
Proof.
  intros (-> & H0 & H1 & L0 & L1) Ho0 Ho1 E0 E1.
  assert (Hkeep : forall p a, pb !! p = Some a -> N <= length a ->
            exists a', (<[po1 := o1']> (<[po0 := o0']> pb)) !! p = Some a'
                       /\ N <= length a').
  { intros p a Hp La. destruct (decide (p = po1)) as [->|Hn1].
    - exists o1'. rewrite lookup_insert_eq. split; [done|]. 
      rewrite Ho1 in Hp. injection Hp as <-. lia.
    - rewrite lookup_insert_ne by done. destruct (decide (p = po0)) as [->|Hn0].
      + exists o0'. rewrite lookup_insert_eq. split; [done|].
        rewrite Ho0 in Hp. injection Hp as <-. lia.
      + rewrite lookup_insert_ne by done. eauto. }
  destruct (Hkeep p0 a0 H0 L0) as (a0' & ? & ?).
  destruct (Hkeep p1 a1 H1 L1) as (a1' & ? & ?).
  exists a0', a1'. by repeat split.
Qed.

Lemma process_deck_ready (env : environment) (dv : dev_ptr) (N : nat) (w : world) :
  deck_ready w N dv -> DEVICE_CHANNELS * N <= BUF_LEN ->
  exists w', process_deck env dv N w = Ret tt w'
    /\ forall dv', deck_ready w N dv' -> deck_ready w' N dv'.
Proof.
  intros (d & jack & pi0 & pi1 & po0 & po1 & in0 & in1 & out0 & out1
          & Hd & Hl & Hin & Hout) HN.
  destruct (process_deck_spec env dv N w d jack pi0 pi1 po0 po1 in0 in1 out0 out1)
    as (pcm & out0' & out1' & Hrun & _ & [L0 _] & [L1 _]); try done.
  cbn zeta in Hrun. eexists. split; [exact Hrun|].
  intros dv' (d' & jack' & qi0 & qi1 & qo0 & qo1 & i0 & i1 & u0 & u1
              & Hd' & Hl' & Hin' & Hout').
  destruct Hout as (_ & Ho0 & Ho1 & _ & _).
  destruct (ports_ready_update _ _ _ _ _ _ _ po0 po1 out0 out1 out0' out1' Hin')
    as (i0' & i1' & Hin''); try done.
  destruct (ports_ready_update _ _ _ _ _ _ _ po0 po1 out0 out1 out0' out1' Hout')
    as (u0' & u1' & Hout''); try done.
  exists d', jack', qi0, qi1, qo0, qo1, i0', i1', u0', u1'.
  split; [exact Hd'|]. split; [exact Hl'|]. split; [exact Hin''|exact Hout''].
Qed.

(** With every listed deck ready, the loop runs to completion. *)
Lemma callback_loop_runs (env : environment) (N : nat) (dvs : list dev_ptr) :
  DEVICE_CHANNELS * N <= BUF_LEN ->
  forall (lo : nat) (w : world),
  (forall i dv, dvs !! i = Some dv -> device w !! (lo + i) = Some (Some dv)) ->
  Forall (deck_ready w N) dvs ->
  exists w', for_each (callback_body env N) (seq lo (length dvs)) w = Ret tt w'.
Proof.
  intros HN. induction dvs as [|dv dvs IH]; intros lo w Hdev Hready.
  - by eexists.
  - apply Forall_cons in Hready as [Hr Hrs].
    destruct (process_deck_ready env dv N w Hr HN) as (w1 & Hrun & Hkeep).
    pose proof (process_deck_keeps_registry env dv N w) as Hreg.
    rewrite Hrun in Hreg. destruct Hreg as (_ & Edev & _).
    destruct (IH (S lo) w1) as (w' & Hloop).
    { intros i dv' Hi. rewrite Edev.
      replace (S lo + i) with (lo + S i) by lia. by apply Hdev. }
    { eapply Forall_impl; [exact Hrs|]. exact Hkeep. }
    assert (Hbody : callback_body env N lo w = Ret tt w1).
    { unfold callback_body, bind, get, defined.
      pose proof (Hdev 0 dv eq_refl) as Hslot. rewrite Nat.add_0_r in Hslot.
      rewrite Hslot. exact Hrun. }
    exists w'. cbn [length seq for_each].
    erewrite bind_Ret; [|exact Hbody]. exact Hloop.
Qed.

(** Whatever the world, a loop that completed entered [process_deck] once
    for each index, in order, with the deck found in that slot. *)
Lemma callback_loop_calls (env : environment) (N : nat) (l : list nat) :
  forall (w w' : world),
  for_each (callback_body env N) l w = Ret tt w' ->
  exists (t : list event) (dvs : list dev_ptr),
    trace w' = trace w ++ t
    /\ deck_calls t = (fun dv => (dv, N)) <$> dvs
    /\ Forall2 (fun n dv => device w !! n = Some (Some dv)) l dvs.
Proof.
  induction l as [|n l IH]; intros w w' Hrun.
  - injection Hrun as <-. exists [], []. by rewrite app_nil_r.
  - simpl in Hrun. apply bind_Ret_inv in Hrun as ([] & w1 & Hbody & Hrest).
    unfold callback_body in Hbody.
    apply bind_Ret_inv in Hbody as (odv & w0 & Hget & Hbody).
    injection Hget as <- <-.
    destruct (mjoin (device w !! n)) as [dv|] eqn:Hslot; [|done].
    assert (Hdeck : process_deck env dv N w = Ret tt w1) by exact Hbody.
    destruct (process_deck_calls env dv N w w1 Hdeck) as (t1 & Et1 & Ec1).
    pose proof (process_deck_keeps_registry env dv N w) as Hreg.
    rewrite Hdeck in Hreg. destruct Hreg as (_ & Edev & _).
    destruct (IH w1 w' Hrest) as (t2 & dvs & Et2 & Ec2 & Hall).
    exists (t1 ++ t2), (dv :: dvs). split; [|split].
    + by rewrite Et2, Et1, app_assoc.
    + unfold deck_calls in *. by rewrite omap_app, Ec1, Ec2.
    + constructor.
      * destruct (device w !! n) as [[?|]|]; by simplify_eq/=.
      * eapply Forall2_impl; [exact Hall|]. intros n' dv''. by rewrite Edev.
Qed.

Lemma slots_registered (dev : list (option dev_ptr)) (dvs : list dev_ptr) :
  forall lo k,
  Forall2 (fun n dv => dev !! n = Some (Some dv)) (seq lo k) dvs ->
  take k (drop lo dev) = Some <$> dvs.
Proof.
  induction dvs as [|dv dvs IH]; intros lo k Hall.
  - apply Forall2_nil_inv_r in Hall. by destruct k.
  - destruct k as [|k]; [by apply Forall2_nil_cons_inv in Hall|].
    simpl in Hall. apply Forall2_cons in Hall as [Hlo Hall].
    rewrite (drop_S _ _ _ Hlo). simpl. f_equal. by apply IH.
Qed.

End Callback.

(** ** Cycles that end in the assertion *)

Lemma count_events_app (p : event -> bool) (t1 t2 : list event) :
  count_events p (t1 ++ t2) = count_events p t1 + count_events p t2.
Proof. unfold count_events. by rewrite List.filter_app, length_app. Qed.

#[global] Instance output_untouched_preorder : PreOrder output_untouched.
Proof.
  split.
  - intros w. split; [done|]. exists []. by rewrite app_nil_r.
  - intros w1 w2 w3 (B1 & t1 & E1 & C1) (B2 & t2 & E2 & C2).
    split; [congruence|]. exists (t1 ++ t2).
    split; [by rewrite E2, E1, app_assoc|]. rewrite count_events_app. lia.
Qed.

Lemma bind_Abort {A B} (m : M A) (k : A -> M B) (w w' : world) :
  m w = Abort w' -> bind m k w = Abort w'.
Proof. intros H. unfold bind. by rewrite H. Qed.

Section Aborts.
Context (R : relation world) `{!PreOrder R}.

Lemma aborts_bind {A B} (m : M A) (k : A -> M B) :
  steps R m -> (forall a, aborts R (k a)) -> aborts R (bind m k).
Proof.
  intros Hm Hk w w'. unfold bind. specialize (Hm w).
  destruct (m w) as [a w1|w1|]; [|by intros [= <-]|done].
  intros Hrun. etrans; [exact Hm|]. by eapply Hk.
Qed.

End Aborts.

Section DeckAborts.
Context {T : Target}.

Lemma output_untouched_call (ev : event) (w : world) :
  is_collect ev = false -> output_untouched w (set_trace (trace w ++ [ev]) w).
Proof.
  intros Hev. split; [done|]. exists [ev]. split; [done|].
  unfold count_events. simpl. by rewrite Hev.
Qed.

Lemma commit_buffers_complete (ports : list (option port_t))
    (jbuf : list (cursor float32)) (l : list nat) (w : world) :
  match for_each (commit_buffer ports jbuf) l w with
  | Abort _ => False
  | _ => True
  end.
Proof.
  revert w. induction l as [|n l IH]; intros w; [done|].
  cbn [for_each]. unfold bind at 1. unfold commit_buffer at 1.
  unfold bind, defined, modify, ret, fault.
  destruct (mjoin (ports !! n)); [|done]. destruct (jbuf !! n); [|done]. apply IH.
Qed.

(** Once the player has been asked, nothing in [process_deck] asserts. *)
Lemma deck_output_completes (env : environment) (d : device_t) (jack : jack_t)
    (N : nat) (r : Z) (buf : list cell) (jbuf : list (list float32)) (w : world) :
  match
    (let* pcm := call (EvPlayerCollect (player d) N r) (env_player_collect env) in
     let* buf := defined (player_fill buf N pcm) in
     let* st := defined (uninterleave ((fun a => Cursor a 0) <$> jbuf)
                                      (Cursor buf 0) N) in
     for_each (commit_buffer (output_port jack) st.1) (seq 0 DEVICE_CHANNELS)) w
  with
  | Abort _ => False
  | _ => True
  end.
Proof.
  unfold bind, call, defined, ret, fault.
  destruct (player_fill _ _ _) as [b|]; [|done].
  destruct (uninterleave _ _ _) as [st|]; [|done].
  apply commit_buffers_complete.
Qed.

Lemma process_deck_aborts (env : environment) (dv : dev_ptr) (N : nat) :
  aborts output_untouched (process_deck env dv N).
Proof.
  unfold process_deck.
  apply aborts_bind; [exact _|apply steps_call; intros ?; by apply output_untouched_call|].
  intros _. apply aborts_bind; [exact _|apply steps_get; exact _|]. intros od.
  apply aborts_bind; [exact _|apply steps_defined; exact _|]. intros d.
  apply aborts_bind; [exact _|apply steps_defined; exact _|]. intros jack.
  apply aborts_bind; [exact _| |].
  { apply steps_for_collect; [exact _|]. intros n. apply get_buffer_steps. exact _. }
  intros jbuf. apply aborts_bind; [exact _|apply steps_defined; exact _|]. intros st.
  cbv zeta.
  apply aborts_bind; [exact _|apply steps_get; exact _|]. intros r.
  apply aborts_bind; [exact _| |].
  { destruct (timecoder d).
    - apply steps_call. intros ?. by apply output_untouched_call.
    - apply steps_ret. exact _. }
  intros _. apply aborts_bind; [exact _| |].
  { apply steps_for_collect; [exact _|]. intros n. apply get_buffer_steps. exact _. }
  intros jbuf' w w' Hrun.
  pose proof (deck_output_completes env d jack N r (arr st.1) jbuf' w) as Hc.
  by rewrite Hrun in Hc.
Qed.

(** The assertion fires at the first port without a buffer. *)
Lemma get_buffers_missing (p0 p1 : port_t) (w : world) :
  buffer_missing (port_buffers w) [p0; p1] ->
  for_collect (get_buffer [Some p0; Some p1]) (seq 0 DEVICE_CHANNELS) w = Abort w.
Proof.
  intros Hm. unfold for_collect, get_buffer, bind, get, defined, ret. simpl.
  destruct (port_buffers w !! p0) eqn:H0; [|done].
  destruct (port_buffers w !! p1) eqn:H1; [|done].
  apply Exists_cons in Hm as [Hm|Hm]; [congruence|].
  apply Exists_cons in Hm as [Hm|Hm]; [congruence|]. by apply Exists_nil in Hm.
Qed.

Lemma process_deck_missing_buffer (env : environment) (dv : dev_ptr) (N : nat)
    (w : world) (d : device_t) (jack : jack_t) (pi0 pi1 po0 po1 : port_t) :
  heap w !! dv = Some d -> local d = Some jack ->
  input_port jack = [Some pi0; Some pi1] ->
  output_port jack = [Some po0; Some po1] ->
  N <= 1024 ->
  (forall a, port_buffers w !! pi0 = Some a -> N <= length a) ->
  (forall a, port_buffers w !! pi1 = Some a -> N <= length a) ->
  buffer_missing (port_buffers w) [pi0; pi1; po0; po1] ->
  exists w', process_deck env dv N w = Abort w'.
Proof.
  intros Hd Hl Ei Eo HN L0 L1 Hm. unfold process_deck.
  step. step. rewrite Hd. step. rewrite Hl. step. rewrite Ei.
  destruct (decide (buffer_missing (port_buffers w) [pi0; pi1])) as [Hin|Hin].
  { eexists. apply bind_Abort. by apply (get_buffers_missing pi0 pi1). }
  destruct (port_buffers w !! pi0) as [in0|] eqn:H0;
    [|destruct Hin; by apply Exists_cons_hd].
  destruct (port_buffers w !! pi1) as [in1|] eqn:H1;
    [|destruct Hin; by apply Exists_cons_tl, Exists_cons_hd].
  assert (Hout : buffer_missing (port_buffers w) [po0; po1]).
  { apply Exists_cons in Hm as [Hm|Hm]; [congruence|].
    apply Exists_cons in Hm as [Hm|Hm]; [congruence|]. exact Hm. }
  erewrite bind_Ret; [|eapply (get_buffers_ready _ N)].
  2:{ split; [reflexivity|]. proj. split; [exact H0|]. split; [exact H1|].
      split; [by apply L0|by apply L1]. }
  assert (Hb : 2 * N <= length (replicate (A:=cell) BUF_LEN None))
    by (rewrite length_replicate; unfold BUF_LEN; lia).
  destruct (interleave_cells N in0 in1 (replicate BUF_LEN None) Hb
              (L0 _ eq_refl) (L1 _ eq_refl)) as (b & Hrun & _).
  cbn [fmap list_fmap]. rewrite Hrun. step. cbn [fst arr]. step.
  destruct (timecoder d) as [tc|].
  - step. eexists. rewrite Eo. apply bind_Abort. by apply get_buffers_missing.
  - step. eexists. rewrite Eo. apply bind_Abort. by apply get_buffers_missing.
Qed.

End DeckAborts.

Section CallbackAborts.
Context {T : Target}.

(** A [process_deck] that ended in the assertion logged its own entry
    first and no other entry into [process_deck]. *)
Lemma process_deck_calls_abort (env : environment) (dv : dev_ptr) (N : nat)
    (w w' : world) :
  process_deck env dv N w = Abort w' ->
  exists t, trace w' = trace w ++ t /\ deck_calls t = [(dv, N)].
Proof.
  unfold process_deck. unfold bind at 1. unfold call at 1. intros Hrest.
  match type of Hrest with
  | ?k _ = _ =>
      assert (Hk : steps (logs (fun ev => deck_call ev = None)) k)
  end.
  { unfold commit_buffer.
    steps_auto; try (apply get_buffer_steps; exact _);
      first [ apply steps_call; intros ?; by apply logs_call
            | apply steps_modify; intros ?; by apply logs_same_trace ]. }
  specialize (Hk (set_trace (trace w ++ [EvProcessDeck dv N]) w)).
  rewrite Hrest in Hk. destruct Hk as (t & Et & Ft).
  exists (EvProcessDeck dv N :: t). split.
  - rewrite Et. simpl. by rewrite <- app_assoc.
  - unfold deck_calls. simpl. f_equal. by apply deck_calls_none.
Qed.

(** A loop that ended in the assertion entered [process_deck] once for
    each index up to the one where it stopped, in order, and for no index
    after it. *)
Lemma callback_loop_aborts (env : environment) (N : nat) (l : list nat) :
  forall (w w' : world),
  for_each (callback_body env N) l w = Abort w' ->
  exists (t : list event) (dvs : list dev_ptr) (l1 l2 : list nat),
    l = l1 ++ l2 /\ l1 <> []
    /\ trace w' = trace w ++ t
    /\ deck_calls t = (fun dv => (dv, N)) <$> dvs
    /\ Forall2 (fun n dv => device w !! n = Some (Some dv)) l1 dvs.
Proof.
  induction l as [|n l IH]; intros w w' Hrun; [done|].
  cbn [for_each] in Hrun. unfold bind at 1 in Hrun.
  destruct (callback_body env N n w) as [[] w1|w1|] eqn:Hbody; [| |done].
  - unfold callback_body in Hbody.
    apply bind_Ret_inv in Hbody as (odv & w0 & Hget & Hbody).
    injection Hget as <- <-.
    destruct (mjoin (device w !! n)) as [dv|] eqn:Hslot; [|done].
    assert (Hdeck : process_deck env dv N w = Ret tt w1) by exact Hbody.
    destruct (process_deck_calls env dv N w w1 Hdeck) as (t1 & Et1 & Ec1).
    pose proof (process_deck_keeps_registry env dv N w) as Hreg.
    rewrite Hdeck in Hreg. destruct Hreg as (_ & Edev & _).
    destruct (IH w1 w' Hrun) as (t2 & dvs & l1 & l2 & -> & Hne & Et2 & Ec2 & Hall).
    exists (t1 ++ t2), (dv :: dvs), (n :: l1), l2.
    split; [done|]. split; [done|]. split; [by rewrite Et2, Et1, app_assoc|].
    split; [unfold deck_calls in *; by rewrite omap_app, Ec1, Ec2|].
    constructor.
    + destruct (device w !! n) as [[?|]|]; by simplify_eq/=.
    + eapply Forall2_impl; [exact Hall|]. intros n' dv''. by rewrite Edev.
  - injection Hrun as ->. unfold callback_body, bind, get, defined in Hbody.
    destruct (mjoin (device w !! n)) as [dv|] eqn:Hslot; [|done].
    assert (Hdeck : process_deck env dv N w = Abort w') by exact Hbody.
    destruct (process_deck_calls_abort env dv N w w' Hdeck) as (t1 & Et1 & Ec1).
    exists t1, [dv], [n], l. split; [done|]. split; [done|]. split; [done|].
    split; [done|]. constructor; [|constructor].
    destruct (device w !! n) as [[?|]|]; by simplify_eq/=.
Qed.

End CallbackAborts.

Section CycleTheorems.
Context {T : Target}.

(** C4 (as amended): for every deck whose four port buffers are available
    with at least [N] frames, and every frame count [N <= 1024],
    [process_deck] completes, makes exactly one collect-from-player call,
    makes one submit-to-decoder call when a timecoder is attached to the
    deck and none otherwise, hands the timecoder the interleaved input, and
    stores both output buffers with all of their first [N] frames written:
    frame [f] of channel [c] holds the conversion of sample [2 * f + c] of
    the player.  Every cycle that ends in a failed assertion ends before
    the player is asked and before any output frame is stored; and the
    cycle does end so when JACK has no buffer for one of the deck's four
    ports. *)
Theorem process_deck_cycle (env : environment) (dv : dev_ptr) (N : nat)
    (w : world) (d : device_t) (jack : jack_t) (pi0 pi1 po0 po1 : port_t)
    (in0 in1 out0 out1 : list float32) :
  (heap w !! dv = Some d -> local d = Some jack ->
   ports_ready (port_buffers w) N (input_port jack) pi0 pi1 in0 in1 ->
   ports_ready (port_buffers w) N (output_port jack) po0 po1 out0 out1 ->
   N <= 1024 ->
   exists (w' : world) (pcm : list cell) (out0' out1' : list float32),
     process_deck env dv N w = Ret tt w'
     /\ trace w' = trace w ++ deck_events dv d N (rate w) pcm
     /\ interleaved N in0 in1 pcm
     /\ count_events is_submit (deck_events dv d N (rate w) pcm)
        = match timecoder d with Some _ => 1 | None => 0 end
     /\ count_events is_collect (deck_events dv d N (rate w) pcm) = 1
     /\ port_buffers w' = <[po1 := out1']> (<[po0 := out0']> (port_buffers w))
     /\ rendered N 0 (env_player_collect env (trace w')) out0 out0'
     /\ rendered N 1 (env_player_collect env (trace w')) out1 out1')
  /\ (forall w' : world,
        process_deck env dv N w = Abort w' -> output_untouched w w')
  /\ (heap w !! dv = Some d -> local d = Some jack ->
      input_port jack = [Some pi0; Some pi1] ->
      output_port jack = [Some po0; Some po1] ->
      N <= 1024 ->
      (forall a, port_buffers w !! pi0 = Some a -> N <= length a) ->
      (forall a, port_buffers w !! pi1 = Some a -> N <= length a) ->
      buffer_missing (port_buffers w) [pi0; pi1; po0; po1] ->
      exists w' : world, process_deck env dv N w = Abort w').
Proof.
  split; [|split].
  - intros Hd Hl Hin Hout HN.
    destruct (process_deck_spec env dv N w d jack pi0 pi1 po0 po1 in0 in1 out0 out1)
      as (pcm & out0' & out1' & Hrun & Hpcm & Hr0 & Hr1); try done.
    { unfold DEVICE_CHANNELS, BUF_LEN. lia. }
    cbn zeta in Hrun. eexists _, pcm, out0', out1'.
    split; [exact Hrun|]. proj.
    split; [done|]. split; [done|].
    split; [by unfold deck_events; destruct (timecoder d)|].
    split; [by unfold deck_events; destruct (timecoder d)|]. done.
  - intros w'. apply process_deck_aborts.
  - apply process_deck_missing_buffer.
Qed.

(** C3 (as amended): whatever the frame count and the world, a
    [process_callback] that returns returns 0 and has entered
    [process_deck] exactly once for each registered deck, in registration
    order; and it does return whenever the registered decks are ready for
    the cycle (JACK has a buffer of [N] frames for each of their ports) and
    [N <= 1024].  A [process_callback] that ends in a failed assertion
    returns nothing: it has entered [process_deck] once for each deck of an
    initial segment of the registry, in order, the last of them being the
    deck whose assertion failed, and for no deck after it. *)
Theorem process_callback_order (env : environment) (N : nat) (w : world) :
  (forall (r : Z) (w' : world),
     process_callback env N w = Ret r w' ->
     r = 0%Z
     /\ exists (t : list event) (dvs : list dev_ptr),
          trace w' = trace w ++ t
          /\ registered w = Some <$> dvs
          /\ deck_calls t = (fun dv => (dv, N)) <$> dvs)
  /\ (forall dvs : list dev_ptr,
        registered w = Some <$> dvs ->
        Z.to_nat (decks w) <= length (device w) ->
        Forall (deck_ready w N) dvs -> N <= 1024 ->
        exists w', process_callback env N w = Ret 0%Z w')
  /\ (forall w' : world,
        process_callback env N w = Abort w' ->
        exists (t : list event) (dvs : list dev_ptr),
          trace w' = trace w ++ t
          /\ deck_calls t = (fun dv => (dv, N)) <$> dvs
          /\ dvs <> []
          /\ Some <$> dvs = take (length dvs) (registered w)).
Proof.
  assert (Hcb : process_callback env N w
                = bind (for_each (callback_body env N) (seq 0 (Z.to_nat (decks w))))
                       (fun _ => ret 0%Z) w) by reflexivity.
  split; [|split].
  - intros r w' Hrun. rewrite Hcb in Hrun.
    apply bind_Ret_inv in Hrun as ([] & w1 & Hloop & Hret).
    injection Hret as <- <-. split; [done|].
    destruct (callback_loop_calls env N _ _ _ Hloop) as (t & dvs & Et & Ec & Hall).
    exists t, dvs. split; [done|]. split; [|done].
    unfold registered. rewrite <- (drop_0 (device w)). by apply slots_registered.
  - intros dvs Hreg Hlen Hready HN. rewrite Hcb.
    assert (Hk : length dvs = Z.to_nat (decks w)).
    { unfold registered in Hreg. apply (f_equal length) in Hreg.
      rewrite length_take, length_fmap in Hreg. lia. }
    destruct (callback_loop_runs env N dvs ltac:(unfold DEVICE_CHANNELS, BUF_LEN; lia)
                0 w) as (w' & Hloop); [|done|].
    { intros i dv Hi. rewrite Nat.add_0_l.
      assert (Hs : registered w !! i = Some (Some dv))
        by (by rewrite Hreg, list_lookup_fmap, Hi).
      unfold registered in Hs. by apply lookup_take_Some in Hs as [Hs _]. }
    exists w'. rewrite Hk in Hloop. erewrite bind_Ret; [|exact Hloop]. done.
  - intros w' Hrun. rewrite Hcb in Hrun. unfold bind in Hrun.
    destruct (for_each (callback_body env N) (seq 0 (Z.to_nat (decks w))) w)
      as [[] w1|w1|] eqn:Hloop; [done| |done].
    injection Hrun as ->.
    destruct (callback_loop_aborts env N _ _ _ Hloop)
      as (t & dvs & l1 & l2 & Hl & Hne & Et & Ec & Hall).
    pose proof (Forall2_length _ _ _ Hall) as Hlen.
    assert (Hle : length l1 <= Z.to_nat (decks w)).
    { apply (f_equal length) in Hl. rewrite length_seq, length_app in Hl. lia. }
    assert (Hl1 : l1 = seq 0 (length l1)).
    { apply (f_equal (take (length l1))) in Hl.
      rewrite take_app_length, take_seq, Nat.min_l in Hl by lia. done. }
    exists t, dvs. split; [exact Et|]. split; [exact Ec|]. split.
    { intros ->. destruct l1; [done|]. by apply Forall2_nil_inv_r in Hall. }
    rewrite Hl1 in Hall. apply slots_registered in Hall.
    rewrite drop_0 in Hall. unfold registered.
    rewrite take_take, <- Hlen, Nat.min_l by lia. by rewrite Hall.
Qed.

End CycleTheorems.

(** ** Port names *)

Lemma length_list_ascii_of_string (s : string) :
  length (list_ascii_of_string s) = String.length s.
Proof. induction s as [|c s IH]; simpl; [done|by rewrite IH]. Qed.

Lemma length_string_append (s1 s2 : string) :
  String.length (s1 ++ s2) = String.length s1 + String.length s2.
Proof. induction s1 as [|c s1 IH]; simpl; [done|by rewrite IH]. Qed.

Lemma sprintf_writes_in_bounds (size : nat) (s : string) :
  String.length s < size ->
  Forall (fun wr => wr.1 < size) (sprintf_writes s).
Proof.
  intros Hs. apply Forall_forall. intros [i c] Hin. unfold sprintf_writes in Hin.
  apply elem_of_lookup_imap in Hin as (k & x & Heq & Hk).
  injection Heq as -> ->. apply lookup_lt_Some in Hk.
  rewrite length_app, length_list_ascii_of_string in Hk. simpl in *. lia.
Qed.

Lemma sprintf_fits (size : nat) (s : string) :
  String.length s < size -> sprintf size s = Some s.
Proof.
  intros Hs. unfold sprintf.
  assert (H : forallb (fun wr => wr.1 <? size) (sprintf_writes s) = true).
  { apply forallb_forall. intros wr Hin%list_elem_of_In.
    pose proof (sprintf_writes_in_bounds size s Hs) as Hall.
    rewrite Forall_forall in Hall. apply Nat.ltb_lt. by apply Hall. }
  by rewrite H.
Qed.

Lemma sprintf_Some (size : nat) (s r : string) : sprintf size s = Some r -> r = s.
Proof. unfold sprintf. destruct (forallb _ _); congruence. Qed.

Lemma length_port_name_format (name kind : string) (c : ascii) :
  String.length (port_name_format name kind c)
  = String.length name + String.length kind + 1.
Proof.
  unfold port_name_format. rewrite !length_string_append. simpl. lia.
Qed.

(** C10: the port-name buffer holds 32 bytes, and for a deck name of at
    most 20 characters every store [sprintf] makes while formatting a
    ["_timecode_"] or ["_playback_"] port name, the terminating NUL
    included, lands inside it. *)
Theorem port_name_in_bounds (name kind : string) (n : nat) (c : ascii) :
  String.length name <= 20 ->
  kind = "_timecode_"%string \/ kind = "_playback_"%string ->
  channel !! n = Some c ->
  PORT_NAME_SIZE = 32
  /\ Forall (fun wr => wr.1 < PORT_NAME_SIZE)
            (sprintf_writes (port_name_format name kind c))
  /\ sprintf PORT_NAME_SIZE (port_name_format name kind c)
     = Some (port_name_format name kind c).
Proof.
  intros Hname Hkind _.
  assert (Hlen : String.length (port_name_format name kind c) < PORT_NAME_SIZE).
  { rewrite length_port_name_format. unfold PORT_NAME_SIZE.
    destruct Hkind as [-> | ->]; simpl; lia. }
  split; [done|]. split; [by apply sprintf_writes_in_bounds|by apply sprintf_fits].
Qed.

(** The bound is sharp: one more character and the NUL is stored at
    index 32. *)
Lemma port_name_overflows (name : string) (c : ascii) :
  String.length name = 21 ->
  sprintf PORT_NAME_SIZE (port_name_format name "_timecode_" c) = None.
Proof.
  intros Hname. unfold sprintf.
  assert (H : forallb (fun wr => wr.1 <? PORT_NAME_SIZE)
                (sprintf_writes (port_name_format name "_timecode_" c)) = false).
  { apply not_true_is_false. intros Hall.
    rewrite forallb_forall in Hall.
    specialize (Hall (32, Ascii.zero)). simpl in Hall.
    assert (In (32, Ascii.zero) (sprintf_writes (port_name_format name "_timecode_" c)))
      as Hin; [|by specialize (Hall Hin)].
    apply list_elem_of_In. unfold sprintf_writes. apply elem_of_lookup_imap.
    exists 32, Ascii.zero. split; [done|].
    rewrite lookup_app_r; rewrite length_list_ascii_of_string, length_port_name_format, Hname;
      simpl; [done|lia]. }
  by rewrite H.
Qed.

(** ** Port registration *)

Section RegisterPorts.
Context (env : environment).

(** What one [sprintf] and [jack_port_register] pair does when it
    completes. *)
Lemma register_port_inv (name kind : string) (n : nat) (flags : port_flags)
    (w w' : world) (p : option port_t) :
  register_port env name kind n flags w = Ret p w' ->
  exists c : ascii,
    channel !! n = Some c
    /\ w' = set_trace (trace w ++ [EvPortRegister (client w)
                                     (port_name_format name kind c) flags]) w
    /\ p = env_port_register env (trace w').
Proof.
  unfold register_port. intros Hrun.
  destruct (channel !! n) as [c|] eqn:Hc; [|done].
  exists c. split; [done|].
  apply bind_Ret_inv in Hrun as (c' & w0 & Hc' & Hrun). injection Hc' as <- <-.
  apply bind_Ret_inv in Hrun as (s & w0 & Hs & Hrun).
  destruct (sprintf PORT_NAME_SIZE (port_name_format name kind c)) as [s'|] eqn:Hfmt;
    [|done].
  injection Hs as <- <-. apply sprintf_Some in Hfmt as ->.
  apply bind_Ret_inv in Hrun as (cl & w0 & Hcl & Hrun). injection Hcl as <- <-.
  injection Hrun as <- <-. done.
Qed.

Lemma register_port_run (name kind : string) (n : nat) (flags : port_flags)
    (w : world) (c : ascii) :
  channel !! n = Some c ->
  String.length (port_name_format name kind c) < PORT_NAME_SIZE ->
  let w' := set_trace (trace w ++ [EvPortRegister (client w)
                                     (port_name_format name kind c) flags]) w in
  register_port env name kind n flags w = Ret (env_port_register env (trace w')) w'.
Proof.
  intros Hc Hlen. unfold register_port, bind, defined.
  rewrite Hc. cbn [ret]. rewrite sprintf_fits by done. reflexivity.
Qed.

Lemma register_ports_inv (jack jack' : jack_t) (name : string) (w w' : world) :
  register_ports env jack name w = Ret (0%Z, jack') w' ->
  exists tl pl tr pr : port_t,
    trace w'
    = trace w
      ++ [EvPortRegister (client w) (name ++ "_timecode_L") JackPortIsInput;
          EvPortRegister (client w) (name ++ "_playback_L") JackPortIsOutput;
          EvPortRegister (client w) (name ++ "_timecode_R") JackPortIsInput;
          EvPortRegister (client w) (name ++ "_playback_R") JackPortIsOutput]
    /\ input_port jack' = <[1 := Some tr]> (<[0 := Some tl]> (input_port jack))
    /\ output_port jack' = <[1 := Some pr]> (<[0 := Some pl]> (output_port jack)).
Proof.
  intros Hrun. change (register_ports_from env [0; 1] jack name w = Ret (0%Z, jack') w') in Hrun.
  cbn [register_ports_from] in Hrun.
  apply bind_Ret_inv in Hrun as (p1 & w1 & H1 & Hrun).
  apply register_port_inv in H1 as (c1 & Hc1 & -> & ->).
  injection Hc1 as <-.
  destruct (env_port_register env _) as [tl|] eqn:E1 in Hrun; [|done].
  apply bind_Ret_inv in Hrun as (p2 & w2 & H2 & Hrun).
  apply register_port_inv in H2 as (c2 & Hc2 & -> & ->).
  injection Hc2 as <-.
  destruct (env_port_register env _) as [pl|] eqn:E2 in Hrun; [|done].
  apply bind_Ret_inv in Hrun as (p3 & w3 & H3 & Hrun).
  apply register_port_inv in H3 as (c3 & Hc3 & -> & ->).
  injection Hc3 as <-.
  destruct (env_port_register env _) as [tr|] eqn:E3 in Hrun; [|done].
  apply bind_Ret_inv in Hrun as (p4 & w4 & H4 & Hrun).
  apply register_port_inv in H4 as (c4 & Hc4 & -> & ->).
  injection Hc4 as <-.
  destruct (env_port_register env _) as [pr|] eqn:E4 in Hrun; [|done].
  injection Hrun as <- <-.
  exists tl, pl, tr, pr. cbn [trace client set_trace]. split; [|done].
  rewrite <- !app_assoc. reflexivity.
Qed.

Lemma register_ports_granted (jack : jack_t) (name : string) (w : world) :
  String.length name <= 20 ->
  (forall t, is_Some (env_port_register env t)) ->
  exists (jack' : jack_t) (w' : world),
    register_ports env jack name w = Ret (0%Z, jack') w'.
Proof.
  intros Hname Hgrant.
  change (exists jack' w', register_ports_from env [0; 1] jack name w = Ret (0%Z, jack') w').
  cbn [register_ports_from].
  assert (Hfit : forall kind c,
            kind = "_timecode_"%string \/ kind = "_playback_"%string ->
            String.length (port_name_format name kind c) < PORT_NAME_SIZE).
  { intros kind c Hkind. rewrite length_port_name_format. unfold PORT_NAME_SIZE.
    destruct Hkind as [-> | ->]; simpl; lia. }
  pose proof (register_port_run name "_timecode_" 0 JackPortIsInput w "L"%char
                eq_refl (Hfit _ _ (or_introl eq_refl))) as H1.
  cbv zeta in H1. destruct (Hgrant (trace (set_trace
    (trace w ++ [EvPortRegister (client w)
                   (port_name_format name "_timecode_" "L") JackPortIsInput]) w)))
    as [tl Htl].
  rewrite Htl in H1. rewrite (bind_Ret _ _ _ _ _ H1). clear H1 Htl.
  cbv beta iota zeta.
  match goal with |- context [bind (register_port _ _ _ _ _) _ ?w1] =>
    pose proof (register_port_run name "_playback_" 0 JackPortIsOutput w1 "L"%char
                  eq_refl (Hfit _ _ (or_intror eq_refl))) as H2;
    cbv zeta in H2;
    destruct (Hgrant (trace (set_trace
      (trace w1 ++ [EvPortRegister (client w1)
                      (port_name_format name "_playback_" "L") JackPortIsOutput]) w1)))
      as [pl Hpl]
  end.
  rewrite Hpl in H2. rewrite (bind_Ret _ _ _ _ _ H2). clear H2 Hpl.
  cbv beta iota zeta. cbn [register_ports_from].
  match goal with |- context [bind (register_port _ _ _ _ _) _ ?w1] =>
    pose proof (register_port_run name "_timecode_" 1 JackPortIsInput w1 "R"%char
                  eq_refl (Hfit _ _ (or_introl eq_refl))) as H3;
    cbv zeta in H3;
    destruct (Hgrant (trace (set_trace
      (trace w1 ++ [EvPortRegister (client w1)
                      (port_name_format name "_timecode_" "R") JackPortIsInput]) w1)))
      as [tr Htr]
  end.
  rewrite Htr in H3. rewrite (bind_Ret _ _ _ _ _ H3). clear H3 Htr.
  cbv beta iota zeta.
  match goal with |- context [bind (register_port _ _ _ _ _) _ ?w1] =>
    pose proof (register_port_run name "_playback_" 1 JackPortIsOutput w1 "R"%char
                  eq_refl (Hfit _ _ (or_intror eq_refl))) as H4;
    cbv zeta in H4;
    destruct (Hgrant (trace (set_trace
      (trace w1 ++ [EvPortRegister (client w1)
                      (port_name_format name "_playback_" "R") JackPortIsOutput]) w1)))
      as [pr Hpr]
  end.
  rewrite Hpr in H4. rewrite (bind_Ret _ _ _ _ _ H4). clear H4 Hpr.
  cbv beta iota zeta. cbn [register_ports_from]. by eexists _, _.
Qed.

(** C6: a [register_ports] that succeeds has made exactly four
    registrations, in this order and with exactly these names: the input
    port [<name>_timecode_L], the output port [<name>_playback_L], the input
    port [<name>_timecode_R], the output port [<name>_playback_R]; the two
    input and the two output handles are stored in channel order.  It does
    succeed when the name has at most 20 characters and JACK grants every
    port. *)
Theorem register_ports_names (jack : jack_t) (name : string) (w : world) :
  (forall (jack' : jack_t) (w' : world),
     register_ports env jack name w = Ret (0%Z, jack') w' ->
     exists tl pl tr pr : port_t,
       trace w'
       = trace w
         ++ [EvPortRegister (client w) (name ++ "_timecode_L") JackPortIsInput;
             EvPortRegister (client w) (name ++ "_playback_L") JackPortIsOutput;
             EvPortRegister (client w) (name ++ "_timecode_R") JackPortIsInput;
             EvPortRegister (client w) (name ++ "_playback_R") JackPortIsOutput]
       /\ input_port jack' = <[1 := Some tr]> (<[0 := Some tl]> (input_port jack))
       /\ output_port jack' = <[1 := Some pr]> (<[0 := Some pl]> (output_port jack)))
  /\ (String.length name <= 20 ->
      (forall t, is_Some (env_port_register env t)) ->
      exists (jack' : jack_t) (w' : world),
        register_ports env jack name w = Ret (0%Z, jack') w').
Proof.
  split.
  - intros jack' w'. apply register_ports_inv.
  - apply register_ports_granted.
Qed.

End RegisterPorts.

(** ** Deck initialisation *)

Section JackInit.
Context (env : environment).

Lemma jack_init_split (dv : dev_ptr) (name : string) (w : world) :
  jack_init env dv name w
  = bind (connect_deck env name)
         (fun rj => if (rj.1 =? -1)%Z then ret (-1)%Z else register_deck dv rj.2) w.
Proof.
  unfold jack_init, connect_deck, bind, get.
  destruct (match client w with
            | Some _ => ret 0%Z
            | None => start_jack_client env
            end w) as [r w1|w1|]; [|done|done].
  destruct (r =? -1)%Z; [done|]. unfold call.
  destruct (negb (env_malloc env _)); [done|].
  destruct (register_ports env fresh_jack name _) as [rj w2|w2|]; done.
Qed.

Lemma register_port_steps (R : relation world) `{!PreOrder R}
    (name kind : string) (n : nat) (flags : port_flags) :
  (forall w c s f, R w (set_trace (trace w ++ [EvPortRegister c s f]) w)) ->
  steps R (register_port env name kind n flags).
Proof.
  intros HR. unfold register_port. steps_auto. apply steps_call. intros w. apply HR.
Qed.

Lemma register_ports_steps (R : relation world) `{!PreOrder R}
    (jack : jack_t) (name : string) :
  (forall w c s f, R w (set_trace (trace w ++ [EvPortRegister c s f]) w)) ->
  steps R (register_ports env jack name).
Proof.
  intros HR. unfold register_ports. apply steps_bind; [exact _|apply steps_assert; exact _|].
  intros _. generalize (seq 0 DEVICE_CHANNELS) as ns. intros ns. revert jack.
  induction ns as [|n ns IH]; intros jack; cbn [register_ports_from].
  - apply steps_ret. exact _.
  - apply steps_bind; [exact _|by apply register_port_steps|]. intros [p|].
    + apply steps_bind; [exact _|by apply register_port_steps|]. intros [q|].
      * apply IH.
      * apply steps_ret. exact _.
    + apply steps_ret. exact _.
Qed.

Lemma start_jack_client_keeps_registry :
  steps keeps_registry (start_jack_client env).
Proof. unfold start_jack_client. steps_auto; steps_leaf. Qed.

Lemma connect_deck_keeps_registry (name : string) :
  steps keeps_registry (connect_deck env name).
Proof.
  unfold connect_deck. steps_auto;
    first [ apply start_jack_client_keeps_registry
          | apply register_ports_steps; [exact _|intros; by repeat split]
          | steps_leaf ].
Qed.

Lemma register_deck_status (dv : dev_ptr) (jack : jack_t) (w w' : world) (r : Z) :
  register_deck dv jack w = Ret r w' -> r = 0%Z.
Proof.
  unfold register_deck. intros Hrun.
  repeat (apply bind_Ret_inv in Hrun as (? & ? & _ & Hrun)).
  by injection Hrun as <- _.
Qed.

Lemma jack_init_failure_keeps_registry (dv : dev_ptr) (name : string)
    (w w' : world) :
  jack_init env dv name w = Ret (-1)%Z w' -> keeps_registry w w'.
Proof.
  rewrite jack_init_split. intros (rj & w1 & Hconn & Hrest)%bind_Ret_inv.
  pose proof (connect_deck_keeps_registry name w) as Hkeep.
  rewrite Hconn in Hkeep.
  destruct (rj.1 =? -1)%Z.
  - by injection Hrest as <-.
  - by apply register_deck_status in Hrest.
Qed.

(** C9: whenever [jack_init] returns -1, whichever step failed, the device
    record it was given (indeed every device record) is as it was, hooks
    and [local] included, and so are the array [device] and the count
    [decks]. *)
Theorem jack_init_failure_frame (dv : dev_ptr)
    (name : string) (w w' : world) :
  jack_init env dv name w = Ret (-1)%Z w' ->
  heap w' !! dv = heap w !! dv
  /\ heap w' = heap w /\ device w' = device w /\ decks w' = decks w.
Proof.
  intros Hrun.
  destruct (jack_init_failure_keeps_registry dv name w w' Hrun) as (Hh & Hd & Hn).
  by rewrite Hh.
Qed.

Lemma start_jack_client_granted (w : world) :
  grants_all env -> exists w', start_jack_client env w = Ret 0%Z w'.
Proof.
  intros (Hopen & Hcb & _ & _). unfold start_jack_client.
  erewrite bind_Ret; [|reflexivity]. erewrite bind_Ret; [|reflexivity].
  destruct (Hopen (trace w ++ [EvClientOpen "xwax"])) as [c Hc]. rewrite Hc.
  erewrite bind_Ret; [|reflexivity]. rewrite Hcb. cbn [Z.eqb negb].
  by eexists.
Qed.

Lemma connect_deck_granted (name : string) (w : world) :
  grants_all env -> String.length name <= 20 ->
  exists (jack : jack_t) (w1 : world),
    connect_deck env name w = Ret (0%Z, jack) w1 /\ keeps_registry w w1.
Proof.
  intros Hg Hname.
  assert (Hstart : exists w0,
            match client w with
            | Some _ => ret 0%Z
            | None => start_jack_client env
            end w = Ret 0%Z w0).
  { destruct (client w); [by eexists|by apply start_jack_client_granted]. }
  destruct Hstart as [w0 Hstart].
  destruct Hg as (_ & _ & Hmalloc & Hports).
  destruct (register_ports_granted env fresh_jack name
              (set_trace (trace w0 ++ [EvMalloc]) w0) Hname Hports) as (jack & w1 & Hreg).
  assert (Hrun : connect_deck env name w = Ret (0%Z, jack) w1).
  { unfold connect_deck. erewrite bind_Ret; [|reflexivity]. cbv beta.
    erewrite bind_Ret; [|exact Hstart]. cbn [Z.eqb].
    erewrite bind_Ret; [|reflexivity]. rewrite Hmalloc. cbn [negb]. exact Hreg. }
  exists jack, w1. split; [exact Hrun|].
  pose proof (connect_deck_keeps_registry name w) as Hkeep. by rewrite Hrun in Hkeep.
Qed.

Lemma store_device_run (n : Z) (dv : dev_ptr) (w : world) :
  (0 <= n < Z.of_nat (length (device w)))%Z ->
  store_device n dv w
  = Ret tt (set_device (<[Z.to_nat n := Some dv]> (device w)) w).
Proof.
  intros Hn. unfold store_device, bind, get, modify. by rewrite decide_True.
Qed.

(** Registration proper, below capacity: the deck is appended. *)
Lemma register_deck_appends (dv : dev_ptr) (jack : jack_t) (w : world) (d : device_t) :
  heap w !! dv = Some d ->
  (0 <= decks w < Z.of_nat (length (device w)))%Z ->
  (decks w < MAX_DECKS)%Z ->
  exists w', register_deck dv jack w = Ret 0%Z w'
    /\ registered w' = registered w ++ [Some dv]
    /\ decks w' = (decks w + 1)%Z
    /\ length (device w') = length (device w)
    /\ heap w' !! dv = Some (install jack d).
Proof.
  intros Hd Hn Hcap. unfold register_deck.
  erewrite bind_Ret; [|reflexivity]. cbv beta. rewrite Hd.
  erewrite bind_Ret; [|reflexivity]. erewrite bind_Ret; [|reflexivity].
  erewrite bind_Ret; [|reflexivity]. cbn [decks set_heap].
  apply Z.ltb_lt in Hcap. rewrite Hcap. erewrite bind_Ret; [|reflexivity].
  erewrite bind_Ret; [|by apply store_device_run].
  erewrite bind_Ret; [|reflexivity].
  eexists. split; [reflexivity|].
  split; [|proj; split; [done|split; [by rewrite length_insert|by rewrite lookup_insert_eq]]].
  unfold registered. proj.
  replace (Z.to_nat (decks w + 1)) with (S (Z.to_nat (decks w))) by lia.
  erewrite take_S_r; [|apply list_lookup_insert_eq; lia].
  f_equal. apply take_insert_ge. lia.
Qed.

(** Registration proper, at capacity: the assertion fails with the array
    and the count untouched. *)
Lemma register_deck_full (dv : dev_ptr) (jack : jack_t) (w : world) (d : device_t) :
  heap w !! dv = Some d ->
  (MAX_DECKS <= decks w)%Z ->
  exists w', register_deck dv jack w = Abort w'
    /\ device w' = device w /\ decks w' = decks w.
Proof.
  intros Hd Hcap. unfold register_deck.
  erewrite bind_Ret; [|reflexivity]. cbv beta. rewrite Hd.
  erewrite bind_Ret; [|reflexivity]. erewrite bind_Ret; [|reflexivity].
  erewrite bind_Ret; [|reflexivity]. cbn [decks set_heap].
  apply Z.ltb_ge in Hcap. rewrite Hcap. by eexists.
Qed.

(** With JACK and [malloc] granting everything, a [jack_init] below
    capacity returns 0 and appends the deck; at capacity it ends in the
    failed assertion before [device] or [decks] is written. *)
Lemma jack_init_granted (dv : dev_ptr) (name : string) (w : world) (d : device_t) :
  grants_all env -> String.length name <= 20 ->
  heap w !! dv = Some d ->
  length (device w) = Z.to_nat MAX_DECKS ->
  (0 <= decks w <= MAX_DECKS)%Z ->
  if (decks w <? MAX_DECKS)%Z
  then exists w', jack_init env dv name w = Ret 0%Z w'
         /\ registered w' = registered w ++ [Some dv]
         /\ decks w' = (decks w + 1)%Z
         /\ length (device w') = length (device w)
  else exists w', jack_init env dv name w = Abort w'
         /\ device w' = device w /\ decks w' = decks w.
Proof.
  intros Hg Hname Hd Hlen Hdecks. rewrite jack_init_split.
  destruct (connect_deck_granted name w Hg Hname) as (jack & w1 & Hconn & Hh & Hdev & Hn).
  erewrite bind_Ret; [|exact Hconn]. cbn [fst snd Z.eqb].
  assert (Hd1 : heap w1 !! dv = Some d) by (by rewrite Hh).
  destruct (Z.ltb_spec (decks w) MAX_DECKS) as [Hlt|Hge].
  - destruct (register_deck_appends dv jack w1 d Hd1) as (w' & Hrun & Hreg & Hk & Hl & _).
    { rewrite Hn, Hdev, Hlen. unfold MAX_DECKS in *. lia. }
    { by rewrite Hn. }
    exists w'. split; [exact Hrun|].
    unfold registered in *. rewrite Hn, Hdev in *. done.
  - destruct (register_deck_full dv jack w1 d Hd1) as (w' & Hrun & Hdev' & Hn').
    { by rewrite Hn. }
    exists w'. split; [exact Hrun|]. split; congruence.
Qed.

Lemma connect_deck_quiet (name : string) (w : world) (c : client_t) :
  client w = Some c ->
  match connect_deck env name w with
  | Ret _ w' | Abort w' =>
      client w' = Some c /\ logs (fun ev => is_connect ev = false) w w'
  | Fault => True
  end.
Proof.
  intros Hc.
  pose (rest := let* ok := call EvMalloc (env_malloc env) in
                if negb ok then ret ((-1)%Z, fresh_jack)
                else register_ports env fresh_jack name).
  assert (Hrest : steps (fun w w' => keeps_client w w'
                          /\ logs (fun ev => is_connect ev = false) w w') rest).
  { assert (PreOrder (fun w w' => keeps_client w w'
                        /\ logs (fun ev => is_connect ev = false) w w')).
    { split.
      - intros x. split; reflexivity.
      - intros x y z [A1 B1] [A2 B2]. split; etrans; eauto. }
    unfold rest. steps_auto.
    - apply steps_call. intros w0. split; [done|by apply logs_call].
    - apply register_ports_steps; [exact _|]. intros w0 c0 s f.
      split; [done|by apply logs_call]. }
  assert (Heq : connect_deck env name w = rest w).
  { unfold connect_deck, bind at 1, get. rewrite Hc. reflexivity. }
  rewrite Heq. specialize (Hrest w).
  destruct (rest w) as [a w'|w'|]; [| |done]; destruct Hrest as [Hk Hl];
    (split; [by rewrite Hk|done]).
Qed.

Lemma register_deck_quiet (dv : dev_ptr) (jack : jack_t) :
  steps (fun w w' => client w' = client w /\ trace w' = trace w)
        (register_deck dv jack).
Proof.
  assert (PreOrder (fun w w' : world => client w' = client w /\ trace w' = trace w)).
  { split; [by intros x|]. intros x y z [A1 B1] [A2 B2]. split; congruence. }
  unfold register_deck, store_device. steps_auto;
    apply steps_modify; by intros.
Qed.

Lemma logs_any_call (ev : event) (w : world) :
  logs (fun _ => True) w (set_trace (trace w ++ [ev]) w).
Proof. by apply logs_call. Qed.

Lemma connect_deck_opens (name : string) (w : world) :
  client w = None ->
  match connect_deck env name w with
  | Ret _ w' | Abort w' => exists t, trace w' = trace w ++ EvClientOpen "xwax" :: t
  | Fault => True
  end.
Proof.
  intros Hc.
  pose (w1 := set_trace (trace w ++ [EvClientOpen "xwax"]) w).
  pose (r0 := env_client_open env (trace w1)).
  pose (rest :=
    let* r := (let* _ := modify (set_client r0.1) in
               match r0.1 with
               | None => ret (-1)%Z
               | Some c =>
                   let* rc := call (EvSetProcessCallback c)
                                (env_set_process_callback env) in
                   if negb (rc =? 0)%Z then ret (-1)%Z
                   else
                     let* _ := call (EvOnShutdown c) (fun _ => tt) in
                     let* hz := call (EvGetSampleRate c) (env_sample_rate env) in
                     let* _ := modify (set_rate (int_of_nframes hz)) in
                     ret 0%Z
               end) in
    if (r =? -1)%Z then ret ((-1)%Z, fresh_jack)
    else
      let* ok := call EvMalloc (env_malloc env) in
      if negb ok then ret ((-1)%Z, fresh_jack)
      else register_ports env fresh_jack name).
  assert (Heq : connect_deck env name w = rest w1).
  { unfold connect_deck, bind at 1, get. rewrite Hc. reflexivity. }
  assert (Hrest : steps (logs (fun _ => True)) rest).
  { unfold rest. steps_auto;
      first [ apply steps_call; intros ?; apply logs_any_call
            | apply steps_modify; intros ?; by apply logs_same_trace
            | apply register_ports_steps; [exact _|intros; apply logs_any_call] ]. }
  rewrite Heq. specialize (Hrest w1).
  destruct (rest w1) as [a w'|w'|]; [| |done]; destruct Hrest as (t & Et & _);
    exists t; rewrite Et; unfold w1; cbn [trace set_trace]; by rewrite <- app_assoc.
Qed.

(** C7 (as amended): a [jack_init] that finds the client handle set
    neither opens a client connection nor installs the process callback,
    and leaves the handle set; so after a failure at callback installation,
    which leaves the handle set, no later [jack_init] does either.  A
    [jack_init] that finds the handle null starts by opening the client
    connection; a failure at client open leaves the handle null, so the
    next [jack_init] tries the connection again. *)
Theorem jack_init_reconnect (dv : dev_ptr) (name : string) (w : world) :
  (forall c, client w = Some c ->
     match jack_init env dv name w with
     | Ret _ w' | Abort w' =>
         client w' = Some c
         /\ exists t, trace w' = trace w ++ t
                      /\ Forall (fun ev => is_connect ev = false) t
     | Fault => True
     end)
  /\ (client w = None ->
      match jack_init env dv name w with
      | Ret _ w' | Abort w' =>
          exists t, trace w' = trace w ++ EvClientOpen "xwax" :: t
      | Fault => True
      end)
  /\ (client w = None ->
      forall c st,
        env_client_open env (trace w ++ [EvClientOpen "xwax"]) = (Some c, st) ->
        env_set_process_callback env
          (trace w ++ [EvClientOpen "xwax"; EvSetProcessCallback c]) <> 0%Z ->
        exists w', jack_init env dv name w = Ret (-1)%Z w' /\ client w' = Some c)
  /\ (client w = None ->
      (env_client_open env (trace w ++ [EvClientOpen "xwax"])).1 = None ->
      exists w', jack_init env dv name w = Ret (-1)%Z w'
                 /\ client w' = None
                 /\ trace w' = trace w ++ [EvClientOpen "xwax"]).
Proof.
  split; [|split; [|split]].
  - intros c Hc. rewrite jack_init_split. unfold bind.
    pose proof (connect_deck_quiet name w c Hc) as Hconn.
    destruct (connect_deck env name w) as [rj w1|w1|]; [|done|done].
    destruct Hconn as [Hc1 Hl1].
    destruct (rj.1 =? -1)%Z; [done|].
    pose proof (register_deck_quiet dv rj.2 w1) as Hreg.
    destruct (register_deck dv rj.2 w1) as [r w2|w2|]; [| |done];
      destruct Hreg as [Hc2 Ht2]; destruct Hl1 as (t & Et & Ft);
      (split; [congruence|]); exists t; (split; [congruence|done]).
  - intros Hc. rewrite jack_init_split. unfold bind.
    pose proof (connect_deck_opens name w Hc) as Hconn.
    destruct (connect_deck env name w) as [rj w1|w1|]; [|done|done].
    destruct (rj.1 =? -1)%Z; [done|].
    pose proof (register_deck_quiet dv rj.2 w1) as Hreg.
    destruct (register_deck dv rj.2 w1) as [r w2|w2|]; [| |done];
      destruct Hreg as [_ Ht2]; destruct Hconn as (t & Et);
      exists t; congruence.
  - intros Hc c st Hopen Hcb.
    unfold jack_init, bind at 1, get. rewrite Hc.
    unfold start_jack_client, bind, call, modify, ret.
    proj. rewrite Hopen. cbn [fst]. proj.
    rewrite <- app_assoc. cbn [app].
    apply Z.eqb_neq in Hcb. rewrite Hcb. cbn [negb Z.eqb]. by eexists.
  - intros Hc Hopen.
    unfold jack_init, bind at 1, get. rewrite Hc.
    unfold start_jack_client, bind, call, modify, ret.
    proj. rewrite Hopen. cbn [Z.eqb]. by eexists.
Qed.

End JackInit.

(** ** The capacity of the registry *)

Section Capacity.
Context (env : environment).

(** What a completed registration proper tells about the world it ran in. *)
Lemma register_deck_inv (dv : dev_ptr) (jack : jack_t) (w w' : world) (r : Z) :
  register_deck dv jack w = Ret r w' ->
  exists d, heap w !! dv = Some d
    /\ (decks w < MAX_DECKS)%Z
    /\ (0 <= decks w < Z.of_nat (length (device w)))%Z.
Proof.
  unfold register_deck. intros Hrun.
  apply bind_Ret_inv in Hrun as (od & w0 & Hget & Hrun). injection Hget as <- <-.
  destruct (heap w !! dv) as [d|] eqn:Hd; [|done]. exists d. split; [done|].
  apply bind_Ret_inv in Hrun as (d' & w0 & Hdef & Hrun). injection Hdef as <- <-.
  apply bind_Ret_inv in Hrun as ([] & w0 & Hmod & Hrun). injection Hmod as <-.
  apply bind_Ret_inv in Hrun as (n & w0 & Hget & Hrun). injection Hget as <- <-.
  cbn [decks set_heap] in Hrun.
  apply bind_Ret_inv in Hrun as ([] & w0 & Hassert & Hrun).
  destruct (decks w <? MAX_DECKS)%Z eqn:Hcap; [|done].
  injection Hassert as <-. apply Z.ltb_lt in Hcap. split; [done|].
  apply bind_Ret_inv in Hrun as ([] & w0 & Hstore & _).
  unfold store_device, bind, get in Hstore. cbn [device set_heap] in Hstore.
  by destruct (decide (0 <= decks w < Z.of_nat (length (device w)))%Z).
Qed.

(** At capacity the registration proper ends in the assertion, with the
    array and the count as they were. *)
Lemma register_deck_at_capacity (dv : dev_ptr) (jack : jack_t) (w : world) :
  (MAX_DECKS <= decks w)%Z ->
  match register_deck dv jack w with
  | Ret _ _ => False
  | Abort w' => device w' = device w /\ decks w' = decks w
  | Fault => True
  end.
Proof.
  intros Hcap. destruct (heap w !! dv) as [d|] eqn:Hd.
  - destruct (register_deck_full dv jack w d Hd Hcap) as (w' & -> & Hkeep). exact Hkeep.
  - unfold register_deck, bind, get, defined. by rewrite Hd.
Qed.

Lemma jack_init_success_inv (dv : dev_ptr) (name : string) (w w' : world) :
  jack_init env dv name w = Ret 0%Z w' ->
  (decks w < MAX_DECKS)%Z
  /\ (0 <= decks w < Z.of_nat (length (device w)))%Z
  /\ registered w' = registered w ++ [Some dv]
  /\ decks w' = (decks w + 1)%Z
  /\ length (device w') = length (device w).
Proof.
  rewrite jack_init_split. intros (rj & w1 & Hconn & Hrest)%bind_Ret_inv.
  pose proof (connect_deck_keeps_registry env name w) as Hkeep.
  rewrite Hconn in Hkeep. destruct Hkeep as (Hh & Hdev & Hn).
  destruct (rj.1 =? -1)%Z; [done|].
  destruct (register_deck_inv _ _ _ _ _ Hrest) as (d & Hd & Hcap & Hslot).
  destruct (register_deck_appends dv rj.2 w1 d Hd Hslot Hcap)
    as (w'' & Hrun & Hreg & Hk & Hl & _).
  rewrite Hrest in Hrun. injection Hrun as <-.
  unfold registered in *. rewrite Hn, Hdev in *. done.
Qed.

(** The invariant of the registry along any sequence of initialisations
    from program start. *)
Lemma registrations_registry (h : gmap dev_ptr device_t)
    (pb : gmap port_t (list float32)) (dvs : list dev_ptr) (w : world) :
  registrations env (initial_world h pb) dvs w ->
  registered w = Some <$> dvs
  /\ decks w = Z.of_nat (length dvs)
  /\ length (device w) = Z.to_nat MAX_DECKS
  /\ (Z.of_nat (length dvs) <= MAX_DECKS)%Z.
Proof.
  induction 1 as [|dvs w1 w2 dv name _ IH Hrun|dvs w1 w2 dv name _ IH Hrun].
  - unfold MAX_DECKS. by repeat split.
  - destruct IH as (Hreg & Hn & Hlen & Hle).
    apply jack_init_success_inv in Hrun as (Hcap & Hslot & Hreg' & Hn' & Hlen').
    rewrite length_app, fmap_app. simpl. split; [by rewrite Hreg', Hreg|].
    split; [lia|]. split; [congruence|]. lia.
  - destruct IH as (Hreg & Hn & Hlen & Hle).
    apply jack_init_failure_keeps_registry in Hrun as (_ & Hdev & Hn').
    unfold registered in *. rewrite Hdev, Hn'. done.
Qed.

End Capacity.

Section CapacityTheorem.
Context (env : environment).

(** C5: along every sequence of deck initialisations from program start
    the registered decks are exactly those of the calls that returned 0, in
    call order, and never more than [MAX_DECKS].  Once [MAX_DECKS] decks
    are registered no further [jack_init] returns 0 or writes [device] or
    [decks]; when its earlier steps succeed it ends in the failed
    assertion.  Below [MAX_DECKS] such a [jack_init] returns 0 and appends
    its deck. *)
Theorem registry_capacity (h : gmap dev_ptr device_t)
    (pb : gmap port_t (list float32)) (dvs : list dev_ptr) (w : world) :
  registrations env (initial_world h pb) dvs w ->
  (registered w = Some <$> dvs /\ (Z.of_nat (length dvs) <= MAX_DECKS)%Z)
  /\ (Z.of_nat (length dvs) = MAX_DECKS ->
      forall (dv : dev_ptr) (name : string),
        match jack_init env dv name w with
        | Ret r w' => r = (-1)%Z /\ device w' = device w /\ decks w' = decks w
        | Abort w' => device w' = device w /\ decks w' = decks w
        | Fault => True
        end)
  /\ (forall (dv : dev_ptr) (name : string) (d : device_t),
        grants_all env -> String.length name <= 20 -> heap w !! dv = Some d ->
        if (Z.of_nat (length dvs) <? MAX_DECKS)%Z
        then exists w', jack_init env dv name w = Ret 0%Z w'
               /\ registered w' = Some <$> (dvs ++ [dv])
        else exists w', jack_init env dv name w = Abort w'
               /\ device w' = device w /\ decks w' = decks w).
Proof.
  intros Hseq.
  destruct (registrations_registry env h pb dvs w Hseq) as (Hreg & Hn & Hlen & Hle).
  split; [done|]. split.
  - intros Hfull dv name. rewrite jack_init_split. unfold bind.
    pose proof (connect_deck_keeps_registry env name w) as Hkeep.
    destruct (connect_deck env name w) as [rj w1|w1|]; [| |done].
    + destruct Hkeep as (_ & Hdev & Hk). destruct (rj.1 =? -1)%Z; [done|].
      pose proof (register_deck_at_capacity dv rj.2 w1 ltac:(lia)) as Hcap.
      destruct (register_deck dv rj.2 w1) as [r w2|w2|]; [done| |done].
      destruct Hcap. split; congruence.
    + by destruct Hkeep as (_ & Hdev & Hk).
  - intros dv name d Hg Hname Hd.
    pose proof (jack_init_granted env dv name w d Hg Hname Hd Hlen ltac:(lia)) as Hrun.
    assert (Hc : (decks w <? MAX_DECKS)%Z = (Z.of_nat (length dvs) <? MAX_DECKS)%Z)
      by (by rewrite Hn).
    rewrite Hc in Hrun. destruct (Z.of_nat (length dvs) <? MAX_DECKS)%Z; [|done].
    destruct Hrun as (w' & Hrun & Hreg' & _). exists w'. split; [done|].
    by rewrite Hreg', Hreg, fmap_app.
Qed.

End CapacityTheorem.


(** ** Further properties of the converters *)

Section ShortSamples.
Local Open Scope Z_scope.

(** The sample a nonzero [signed short] converts to. *)
Lemma to_sample_nonzero (t : Z) :
  t <> 0 -> -32768 <= t <= 32767 ->
  let d := Zdigits2 (Z.abs t) in
  1 <= d <= 16
  /\ Zpos (Z.to_pos (Z.abs t * 2 ^ (24 - d))) = Z.abs t * 2 ^ (24 - d)
  /\ Zdigits2 (Z.abs t * 2 ^ (24 - d)) = 24
  /\ to_sample t
     = S754_finite (t <? 0) (Z.to_pos (Z.abs t * 2 ^ (24 - d))) (d - 39).
Proof.
  intros Hnz Ht d.
  assert (Hd : 1 <= d <= 16).
  { unfold d. rewrite Zdigits2_log2 by lia.
    pose proof (Z.log2_nonneg (Z.abs t)).
    assert (Z.log2 (Z.abs t) < 16) by (apply Z.log2_lt_pow2; lia). lia. }
  assert (HM : Zpos (Z.to_pos (Z.abs t * 2 ^ (24 - d))) = Z.abs t * 2 ^ (24 - d)).
  { apply Z2Pos.id. apply Z.mul_pos_pos; [lia|]. apply Z.pow_pos_nonneg; lia. }
  assert (HD : Zdigits2 (Z.abs t * 2 ^ (24 - d)) = 24).
  { rewrite Zdigits2_mul_pow2_pos by lia. fold d. lia. }
  split; [exact Hd|]. split; [exact HM|]. split; [exact HD|].
  unfold to_sample. rewrite of_Z_small by lia. fold d.
  rewrite div_SCALE_normal; [| |lia].
  - f_equal. lia.
  - by rewrite HM.
Qed.

Lemma to_sample_valid (t : Z) :
  -32768 <= t <= 32767 ->
  valid (to_sample t) = true /\ is_finite (to_sample t) = true.
Proof.
  intros Ht. destruct (Z.eq_dec t 0) as [->|Hnz]; [done|].
  destruct (to_sample_nonzero t Hnz Ht) as (Hd & HM & HD & ->).
  split; [|done].
  unfold valid, valid_binary, bounded, canonical_mantissa, fexp, SpecFloat.emin.
  change (Zpos (digits2_pos ?q)) with (Zdigits2 (Zpos q)). rewrite HM, HD.
  change prec with 24. change emax with 128.
  apply andb_true_intro. split; [apply Z.eqb_eq|apply Z.leb_le]; lia.
Qed.

Lemma to_short_to_sample `{T : Target} (t : Z) :
  -32768 <= t <= 32767 -> to_short (to_sample t) = t.
Proof.
  intros Ht. destruct (Z.eq_dec t 0) as [->|Hnz]; [done|].
  pose proof (to_sample_valid t Ht) as [Hv _].
  destruct (to_sample_nonzero t Hnz Ht) as (Hd & HM & HD & E).
  rewrite E in Hv |- *. set (d := Zdigits2 (Z.abs t)) in *.
  unfold to_short, short_of_float.
  rewrite trunc_mul_SCALE; [|exact Hv|].
  2:{ unfold scaled_exponent. rewrite HM, HD. lia. }
  rewrite HM. replace (d - 39 + 15) with (- (24 - d)) by lia.
  rewrite Z.shiftl_opp_r, Z.shiftr_div_pow2, Z.div_mul by lia.
  assert (Hc : cond_Zopp (t <? 0) (Z.abs t) = t).
  { destruct (Z.ltb_spec t 0); simpl; lia. }
  rewrite Hc.
  assert (Hr : ((SHRT_MIN <=? t) && (t <=? SHRT_MAX))%bool = true).
  { apply andb_true_intro. unfold SHRT_MIN, SHRT_MAX.
    split; apply Z.leb_le; lia. }
  by rewrite Hr.
Qed.

End ShortSamples.

Section ConverterExtras.
Context `{T : Target}.

Lemma holds_shorts_initialised (b : list cell) (n : nat) :
  holds_shorts b n -> initialised b 0 n.
Proof. intros H i Hi. destruct (H i Hi) as (s & Hs & _). by exists s. Qed.

(** X1: [uninterleave] stores, for each frame [f < N] and channel [c], the
    sample [(float)buf[2 * f + c] / 32768] at index [f] of channel [c]'s
    buffer; for every [signed short] that sample is a well-formed finite
    binary32 value equal to [s / 32768] exactly (the conversion never rounds).
    Samples at index [N] and beyond, the buffer lengths and [buf] itself are
    left as they were. *)
Theorem uninterleave_exact (N : nat) (out0 out1 : list float32) (b : list cell) :
  N <= length out0 -> N <= length out1 -> holds_shorts b (2 * N) ->
  exists out0' out1' : list float32,
    uninterleave [Cursor out0 0; Cursor out1 0] (Cursor b 0) N
    = Some ([Cursor out0' N; Cursor out1' N], Cursor b (2 * N))
    /\ length out0' = length out0 /\ length out1' = length out1
    /\ (forall i, N <= i -> out0' !! i = out0 !! i /\ out1' !! i = out1 !! i)
    /\ forall (c f : nat) (s : Z),
         c < DEVICE_CHANNELS -> f < N ->
         b !! (DEVICE_CHANNELS * f + c) = Some (Some s) ->
         exists (ch' : list float32) (v : float32),
           [out0'; out1'] !! c = Some ch' /\ ch' !! f = Some v
           /\ v = to_sample s
           /\ valid v = true /\ is_finite v = true
           /\ (to_Q v == s # 32768)%Q.
Proof.
  intros H0 H1 Hb.
  destruct (uninterleave_spec N out0 out1 0 0 b 0)
    as (out0' & out1' & Hrun & [Hl0 Hl1] & Hk0 & Hk1 & Hw); [lia|lia| |].
  { by apply holds_shorts_initialised. }
  exists out0', out1'. split; [exact Hrun|]. split; [exact Hl0|]. split; [exact Hl1|].
  split.
  { intros i Hi. split; [apply Hk0|apply Hk1]; lia. }
  intros c f s Hc Hf Hs. unfold DEVICE_CHANNELS in *.
  destruct (Hw f Hf) as [E0 E1]. rewrite !Nat.add_0_l in E0, E1.
  assert (Hr : (-32768 <= s <= 32767)%Z).
  { destruct (Hb (2 * f + c) ltac:(lia)) as (s' & Hs' & Hr). congruence. }
  destruct (to_sample_valid s Hr) as [Hv Hfin].
  destruct c as [|[|c]]; [| |lia].
  - exists out0', (to_sample s). rewrite Nat.add_0_r in Hs.
    rewrite E0, Hs. repeat split; try done. by apply div_of_short.
  - exists out1', (to_sample s).
    rewrite E1, Hs. repeat split; try done. by apply div_of_short.
Qed.

(** X2: 16-bit PCM survives the round trip through the JACK sample format
    unchanged: [uninterleave] of [2 * N] signed shorts followed by
    [interleave] of the resulting buffers gives back the same [2 * N]
    shorts, whatever the target machine does for out-of-range casts. *)
Theorem pcm_roundtrip_exact (N : nat) (out0 out1 : list float32)
    (b b2 : list cell) :
  N <= length out0 -> N <= length out1 -> holds_shorts b (2 * N) ->
  2 * N <= length b2 ->
  exists (out0' out1' : list float32) (b2' : list cell),
    uninterleave [Cursor out0 0; Cursor out1 0] (Cursor b 0) N
    = Some ([Cursor out0' N; Cursor out1' N], Cursor b (2 * N))
    /\ interleave (Cursor b2 0) [Cursor out0' 0; Cursor out1' 0] N
       = Some (Cursor b2' (2 * N), [Cursor out0' N; Cursor out1' N])
    /\ forall i, i < 2 * N -> b2' !! i = b !! i.
Proof.
  intros H0 H1 Hb Hb2.
  destruct (uninterleave_spec N out0 out1 0 0 b 0)
    as (out0' & out1' & Hrun & [Hl0 Hl1] & _ & _ & Hw); [lia|lia| |].
  { by apply holds_shorts_initialised. }
  destruct (interleave_spec N b2 0 out0' out1' 0 0)
    as (b2' & Hrun' & _ & _ & Hin); [lia|lia|lia|].
  exists out0', out1', b2'. split; [exact Hrun|]. split; [exact Hrun'|].
  intros i Hi.
  pose proof (Nat.div_mod_eq i 2) as Hdm.
  pose proof (Nat.mod_upper_bound i 2 ltac:(lia)) as Hm.
  assert (Hf : i / 2 < N) by lia.
  destruct (Hw _ Hf) as [E0 E1]. destruct (Hin _ Hf) as [F0 F1].
  rewrite !Nat.add_0_l in E0, E1, F0, F1.
  destruct (Hb i Hi) as (s & Hs & Hr).
  destruct (i mod 2) as [|[|r]] eqn:Hmod; [| |lia].
  - replace i with (2 * (i / 2)) at 1 by lia. rewrite F0, E0.
    replace (2 * (i / 2)) with i by lia. rewrite Hs. simpl.
    by rewrite to_short_to_sample.
  - replace i with (2 * (i / 2) + 1) at 1 by lia. rewrite F1, E1.
    replace (2 * (i / 2) + 1) with i by lia. rewrite Hs. simpl.
    by rewrite to_short_to_sample.
Qed.

End ConverterExtras.

Section ConverterBounds.
Context `{T : Target}.

(** A pass of the inner loop of [interleave] that is defined found a
    sample behind each input pointer and room for two cells. *)
Lemma interleave_frame_inv (b : list cell) (bp : nat) (a0 a1 : list float32)
    (o0 o1 : nat) (st : cursor cell * list (cursor float32)) :
  for_channels interleave_sample (Cursor b bp, [Cursor a0 o0; Cursor a1 o1])
  = Some st ->
  o0 < length a0 /\ o1 < length a1 /\ bp + 1 < length b.
Proof.
  rewrite for_channels_unfold. unfold interleave_sample, deref, store. simpl.
  destruct (a0 !! o0) as [x0|] eqn:H0; [|done]. simpl.
  destruct (decide (bp < length b)) as [Hb|]; [|done]. simpl.
  destruct (a1 !! o1) as [x1|] eqn:H1; [|done]. simpl.
  rewrite length_insert.
  destruct (decide (S bp < length b)) as [Hb'|]; [|done]. intros _.
  apply lookup_lt_Some in H0, H1. lia.
Qed.

Lemma interleave_defined (N : nat) :
  forall (b : list cell) (bp : nat) (a0 a1 : list float32) (o0 o1 : nat),
  is_Some (interleave (Cursor b bp) [Cursor a0 o0; Cursor a1 o1] N) ->
  N = 0 \/ (bp + 2 * N <= length b /\ o0 + N <= length a0 /\ o1 + N <= length a1).
Proof.
  induction N as [|N IH]; intros b bp a0 a1 o0 o1 [st Hst]; [by left|]. right.
  change (interleave ?c ?j (S N))
    with (for_channels interleave_sample (c, j) ≫= fun st => interleave st.1 st.2 N)
    in Hst.
  destruct (for_channels interleave_sample (Cursor b bp, [Cursor a0 o0; Cursor a1 o1]))
    as [st1|] eqn:Hf; [|done].
  pose proof (interleave_frame_inv _ _ _ _ _ _ _ Hf) as (L0 & L1 & Lb).
  destruct (lookup_lt_is_Some_2 a0 o0 L0) as [x0 Hx0].
  destruct (lookup_lt_is_Some_2 a1 o1 L1) as [x1 Hx1].
  rewrite (interleave_frame _ _ _ _ _ _ x0 x1) in Hf by done.
  injection Hf as <-. cbn [mbind option_bind fst snd] in Hst.
  destruct (IH _ _ _ _ _ _ (mk_is_Some _ _ Hst)) as [->|(Hb & H0 & H1)]; [lia|].
  rewrite !length_insert in Hb. lia.
Qed.

Lemma uninterleave_frame_inv (a0 a1 : list float32) (o0 o1 : nat) (b : list cell)
    (bp : nat) (st : list (cursor float32) * cursor cell) :
  for_channels uninterleave_sample ([Cursor a0 o0; Cursor a1 o1], Cursor b bp)
  = Some st ->
  o0 < length a0 /\ o1 < length a1
  /\ exists s0 s1 : Z, b !! bp = Some (Some s0) /\ b !! S bp = Some (Some s1).
Proof.
  rewrite for_channels_unfold. unfold uninterleave_sample, deref, store. simpl.
  destruct (b !! bp) as [[s0|]|] eqn:Hs0; [|done|done]. simpl.
  destruct (decide (o0 < length a0)) as [L0|]; [|done]. simpl.
  destruct (b !! S bp) as [[s1|]|] eqn:Hs1; [|done|done]. simpl.
  destruct (decide (o1 < length a1)) as [L1|]; [|done]. intros _.
  split; [done|]. split; [done|]. by exists s0, s1.
Qed.

Lemma uninterleave_defined (N : nat) :
  forall (a0 a1 : list float32) (o0 o1 : nat) (b : list cell) (bp : nat),
  is_Some (uninterleave [Cursor a0 o0; Cursor a1 o1] (Cursor b bp) N) ->
  N = 0 \/ (o0 + N <= length a0 /\ o1 + N <= length a1 /\ initialised b bp (2 * N)).
Proof.
  induction N as [|N IH]; intros a0 a1 o0 o1 b bp [st Hst]; [by left|]. right.
  change (uninterleave ?j ?c (S N))
    with (for_channels uninterleave_sample (j, c)
            ≫= fun st => uninterleave st.1 st.2 N) in Hst.
  destruct (for_channels uninterleave_sample ([Cursor a0 o0; Cursor a1 o1], Cursor b bp))
    as [st1|] eqn:Hf; [|done].
  pose proof (uninterleave_frame_inv _ _ _ _ _ _ _ Hf) as (L0 & L1 & s0 & s1 & Hs0 & Hs1).
  rewrite (uninterleave_frame _ _ _ _ _ _ s0 s1) in Hf by done.
  injection Hf as <-. cbn [mbind option_bind fst snd] in Hst.
  assert (Hfirst : forall i, i < 2 -> exists s, b !! (bp + i) = Some (Some s)).
  { intros [|[|i]] Hi; [| |lia].
    - exists s0. by rewrite Nat.add_0_r.
    - exists s1. by replace (bp + 1) with (S bp) by lia. }
  destruct (IH _ _ _ _ _ _ (mk_is_Some _ _ Hst)) as [->|(H0 & H1 & Hb)].
  { split; [lia|]. split; [lia|]. intros i Hi. apply Hfirst. lia. }
  rewrite !length_insert in H0, H1. split; [lia|]. split; [lia|].
  intros i Hi. destruct (decide (i < 2)) as [Hlt|Hge]; [by apply Hfirst|].
  destruct (Hb (i - 2) ltac:(lia)) as [s Hs]. exists s. rewrite <- Hs. f_equal. lia.
Qed.

(** X3: [interleave] stays within its arrays exactly when the destination
    has room for [2 * N] cells and each input channel holds [N] samples
    (for [N = 0] it touches nothing); when it does, it leaves the input
    buffers as they were, both input pointers advanced by [N], the
    destination pointer advanced by [2 * N], and every cell from index
    [2 * N] on untouched. *)
Theorem interleave_stays_in_bounds (N : nat) (in0 in1 : list float32) (b : list cell) :
  (is_Some (interleave (Cursor b 0) [Cursor in0 0; Cursor in1 0] N)
   <-> 2 * N <= length b /\ N <= length in0 /\ N <= length in1)
  /\ forall (st : cursor cell * list (cursor float32)),
       interleave (Cursor b 0) [Cursor in0 0; Cursor in1 0] N = Some st ->
       st.2 = [Cursor in0 N; Cursor in1 N]
       /\ pos st.1 = 2 * N
       /\ length (arr st.1) = length b
       /\ forall i, 2 * N <= i -> arr st.1 !! i = b !! i.
Proof.
  split; [split|].
  - intros Hs. destruct (interleave_defined _ _ _ _ _ _ _ Hs) as [->|H]; lia.
  - intros (Hb & H0 & H1).
    destruct (interleave_cells N in0 in1 b Hb H0 H1) as (b' & -> & _). by eexists.
  - intros st Hst.
    destruct (interleave_defined _ _ _ _ _ _ _ (mk_is_Some _ _ Hst)) as [->|H].
    { injection Hst as <-. by repeat split. }
    destruct (interleave_cells N in0 in1 b) as (b' & Hrun & Hlen & Hout & _); try lia.
    rewrite Hrun in Hst. injection Hst as <-. by repeat split.
Qed.

(** X4: [uninterleave] has defined behaviour exactly when each output
    channel has room for [N] samples and the first [2 * N] cells of [buf]
    have been written; when it does, [buf] is unchanged and only the first
    [N] samples of each output buffer are overwritten. *)
Theorem uninterleave_needs_written_cells (N : nat) (out0 out1 : list float32) (b : list cell) :
  (is_Some (uninterleave [Cursor out0 0; Cursor out1 0] (Cursor b 0) N)
   <-> N <= length out0 /\ N <= length out1 /\ initialised b 0 (2 * N))
  /\ forall (st : list (cursor float32) * cursor cell),
       uninterleave [Cursor out0 0; Cursor out1 0] (Cursor b 0) N = Some st ->
       st.2 = Cursor b (2 * N)
       /\ exists out0' out1' : list float32,
            st.1 = [Cursor out0' N; Cursor out1' N]
            /\ length out0' = length out0 /\ length out1' = length out1
            /\ forall i, N <= i -> out0' !! i = out0 !! i /\ out1' !! i = out1 !! i.
Proof.
  assert (Hrun : N <= length out0 -> N <= length out1 -> initialised b 0 (2 * N) ->
    exists out0' out1' : list float32,
      uninterleave [Cursor out0 0; Cursor out1 0] (Cursor b 0) N
      = Some ([Cursor out0' N; Cursor out1' N], Cursor b (2 * N))
      /\ length out0' = length out0 /\ length out1' = length out1
      /\ forall i, N <= i -> out0' !! i = out0 !! i /\ out1' !! i = out1 !! i).
  { intros H0 H1 Hb.
    destruct (uninterleave_spec N out0 out1 0 0 b 0)
      as (out0' & out1' & Hrun & [Hl0 Hl1] & Hk0 & Hk1 & _); [lia|lia|done|].
    exists out0', out1'. split; [exact Hrun|]. split; [done|]. split; [done|].
    intros i Hi. split; [apply Hk0|apply Hk1]; lia. }
  split; [split|].
  - intros Hs. destruct (uninterleave_defined _ _ _ _ _ _ _ Hs) as [->|H].
    + split; [lia|]. split; [lia|]. intros i Hi. lia.
    + done.
  - intros (H0 & H1 & Hb). destruct (Hrun H0 H1 Hb) as (o0 & o1 & -> & _). by eexists.
  - intros st Hst.
    destruct (uninterleave_defined _ _ _ _ _ _ _ (mk_is_Some _ _ Hst))
      as [->|(H0 & H1 & Hb)].
    { injection Hst as <-. split; [done|]. exists out0, out1. by repeat split. }
    destruct (Hrun H0 H1 Hb) as (o0 & o1 & E & Hl0 & Hl1 & Hk).
    rewrite E in Hst. injection Hst as <-. split; [done|]. by exists o0, o1.
Qed.

End ConverterBounds.

(** ** Further properties of the set-up code *)

Lemma sprintf_overflows (size : nat) (s : string) :
  size <= String.length s -> sprintf size s = None.
Proof.
  intros Hlen. unfold sprintf.
  assert (H : forallb (fun wr => wr.1 <? size) (sprintf_writes s) = false).
  { apply not_true_is_false. intros Hall. rewrite forallb_forall in Hall.
    specialize (Hall (String.length s, Ascii.zero)).
    assert (In (String.length s, Ascii.zero) (sprintf_writes s)) as Hin.
    { apply list_elem_of_In. unfold sprintf_writes. apply elem_of_lookup_imap.
      exists (String.length s), Ascii.zero. split; [done|].
      rewrite lookup_app_r; rewrite length_list_ascii_of_string; [|lia].
      by rewrite Nat.sub_diag. }
    specialize (Hall Hin). simpl in Hall. apply Nat.ltb_lt in Hall. lia. }
  by rewrite H.
Qed.

(** What [sprintf] overflows, and what [register_ports] does then. *)
Section RegisterPortsMore.
Context (env : environment).

Lemma register_ports_long_name (jack : jack_t) (name : string) (w : world) :
  20 < String.length name -> register_ports env jack name w = Fault.
Proof.
  intros Hname.
  change (register_ports_from env [0; 1] jack name w = Fault).
  cbn [register_ports_from]. unfold bind at 1. unfold register_port.
  unfold bind at 1. simpl (defined (channel !! 0)). unfold ret at 1.
  unfold bind at 1. rewrite sprintf_overflows; [done|].
  rewrite length_port_name_format. unfold PORT_NAME_SIZE. simpl. lia.
Qed.

Lemma register_ports_run (jack : jack_t) (name : string) (w : world) :
  String.length name <= 20 ->
  exists (r : Z) (jack' : jack_t) (w' : world) (k : nat),
    register_ports env jack name w = Ret (r, jack') w'
    /\ 1 <= k <= 4
    /\ w' = set_trace (trace w ++ take k (port_requests (client w) name)) w
    /\ (forall j, 0 < j < k ->
          is_Some (env_port_register env
                     (trace w ++ take j (port_requests (client w) name))))
    /\ (r = 0%Z /\ k = 4 /\ is_Some (env_port_register env (trace w'))
        \/ r = (-1)%Z /\ env_port_register env (trace w') = None).
Proof.
  intros Hname.
  assert (Hfit : forall kind c,
            kind = "_timecode_"%string \/ kind = "_playback_"%string ->
            String.length (port_name_format name kind c) < PORT_NAME_SIZE).
  { intros kind c Hkind. rewrite length_port_name_format. unfold PORT_NAME_SIZE.
    destruct Hkind as [-> | ->]; simpl; lia. }
  change (register_ports env jack name w)
    with (register_ports_from env [0; 1] jack name w).
  cbn [register_ports_from].
  rewrite (bind_Ret _ _ _ _ _
             (register_port_run env name "_timecode_" 0 JackPortIsInput w "L"%char
                eq_refl (Hfit _ _ (or_introl eq_refl)))).
  cbv beta iota zeta. proj.
  change (port_name_format name "_timecode_" "L") with (name ++ "_timecode_L")%string.
  match goal with |- context [env_port_register env ?t] =>
    destruct (env_port_register env t) as [tl|] eqn:E1
  end.
  2:{ exists (-1)%Z. eexists _, _, 1. split; [reflexivity|]. split; [lia|].
      split; [reflexivity|]. split; [intros j Hj; lia|]. right. by split. }
  match goal with |- context [bind (register_port _ _ _ _ _) _ ?w1] =>
    rewrite (bind_Ret _ _ _ _ _
               (register_port_run env name "_playback_" 0 JackPortIsOutput w1 "L"%char
                  eq_refl (Hfit _ _ (or_intror eq_refl))))
  end.
  cbv beta iota zeta. proj. rewrite <- !app_assoc. cbn [app].
  change (port_name_format name "_playback_" "L") with (name ++ "_playback_L")%string.
  match goal with |- context [env_port_register env ?t] =>
    destruct (env_port_register env t) as [pl|] eqn:E2
  end.
  2:{ exists (-1)%Z. eexists _, _, 2. split; [reflexivity|]. split; [lia|].
      split; [reflexivity|]. split.
      - intros [|[|j]] Hj; try lia. simpl take. by rewrite E1.
      - right. by split. }
  cbn [register_ports_from].
  match goal with |- context [bind (register_port _ _ _ _ _) _ ?w1] =>
    rewrite (bind_Ret _ _ _ _ _
               (register_port_run env name "_timecode_" 1 JackPortIsInput w1 "R"%char
                  eq_refl (Hfit _ _ (or_introl eq_refl))))
  end.
  cbv beta iota zeta. proj. rewrite <- !app_assoc. cbn [app].
  change (port_name_format name "_timecode_" "R") with (name ++ "_timecode_R")%string.
  match goal with |- context [env_port_register env ?t] =>
    destruct (env_port_register env t) as [tr|] eqn:E3
  end.
  2:{ exists (-1)%Z. eexists _, _, 3. split; [reflexivity|]. split; [lia|].
      split; [reflexivity|]. split.
      - intros [|[|[|j]]] Hj; try lia; simpl take; [by rewrite E1|by rewrite E2].
      - right. by split. }
  match goal with |- context [bind (register_port _ _ _ _ _) _ ?w1] =>
    rewrite (bind_Ret _ _ _ _ _
               (register_port_run env name "_playback_" 1 JackPortIsOutput w1 "R"%char
                  eq_refl (Hfit _ _ (or_intror eq_refl))))
  end.
  cbv beta iota zeta. proj. rewrite <- !app_assoc. cbn [app].
  change (port_name_format name "_playback_" "R") with (name ++ "_playback_R")%string.
  assert (Hprefix : forall j, 0 < j < 4 ->
            is_Some (env_port_register env
                       (trace w ++ take j (port_requests (client w) name)))).
  { intros [|[|[|[|j]]]] Hj; try lia; simpl take;
      [by rewrite E1|by rewrite E2|by rewrite E3]. }
  match goal with |- context [env_port_register env ?t] =>
    destruct (env_port_register env t) as [pr|] eqn:E4
  end.
  - exists 0%Z. eexists _, _, 4. split; [reflexivity|]. split; [lia|].
    split; [reflexivity|]. split; [exact Hprefix|]. left. proj. simpl take.
    by rewrite E4.
  - exists (-1)%Z. eexists _, _, 4. split; [reflexivity|]. split; [lia|].
    split; [reflexivity|]. split; [exact Hprefix|]. right. by split.
Qed.

(** X8: [register_ports] never asserts and has undefined behaviour exactly
    when the deck name is longer than 20 characters.  Otherwise it returns
    0 or -1 after between one and four [jack_port_register] calls, made in
    the order timecode L, playback L, timecode R, playback R and logged with
    nothing else changed: it stops at the first port JACK refuses, returning
    -1 without undoing the registrations already granted, and returns 0 only
    when all four were granted. *)
Theorem register_ports_outcomes (jack : jack_t) (name : string) (w : world) :
  match register_ports env jack name w with
  | Ret (r, jack') w' =>
      String.length name <= 20
      /\ exists k : nat,
           1 <= k <= 4
           /\ w' = set_trace (trace w ++ take k (port_requests (client w) name)) w
           /\ (forall j, 0 < j < k ->
                 is_Some (env_port_register env
                            (trace w ++ take j (port_requests (client w) name))))
           /\ (r = 0%Z /\ k = 4 /\ is_Some (env_port_register env (trace w'))
               \/ r = (-1)%Z /\ env_port_register env (trace w') = None)
  | Abort _ => False
  | Fault => 20 < String.length name
  end.
Proof.
  destruct (le_gt_dec (String.length name) 20) as [Hname|Hname].
  - destruct (register_ports_run jack name w Hname) as (r & jack' & w' & k & -> & H).
    split; [done|]. by exists k.
  - by rewrite register_ports_long_name.
Qed.

End RegisterPortsMore.

(** ** The session across deck initialisations *)

#[global] Instance session_kept_preorder : PreOrder session_kept.
Proof.
  split.
  - intros w. split; [done|]. split; [done|]. reflexivity.
  - intros w1 w2 w3 (A1 & B1 & C1) (A2 & B2 & C2).
    split; [congruence|]. split; [congruence|]. by etrans.
Qed.

Lemma count_events_none (p : event -> bool) (t : list event) :
  Forall (fun ev => p ev = false) t -> count_events p t = 0.
Proof.
  unfold count_events. induction 1 as [|ev t Hev _ IH]; [done|].
  simpl. by rewrite Hev.
Qed.

Section SessionSetup.
Context (env : environment).

(** [start_jack_client] step by step. *)
Lemma start_jack_client_run (w : world) :
  let t1 := trace w ++ [EvClientOpen "xwax"] in
  start_jack_client env w
  = match (env_client_open env t1).1 with
    | None => Ret (-1)%Z (set_client None (set_trace t1 w))
    | Some c =>
        let t2 := t1 ++ [EvSetProcessCallback c] in
        let w2 := set_trace t2 (set_client (Some c) (set_trace t1 w)) in
        if (env_set_process_callback env t2 =? 0)%Z
        then
          let t4 := (t2 ++ [EvOnShutdown c]) ++ [EvGetSampleRate c] in
          Ret 0%Z (set_rate (int_of_nframes (env_sample_rate env t4))
                     (set_trace t4 (set_trace (t2 ++ [EvOnShutdown c]) w2)))
        else Ret (-1)%Z w2
    end.
Proof.
  cbv zeta. unfold start_jack_client, bind, call, modify. proj.
  destruct (env_client_open env _).1 as [c|]; [|done]. proj.
  by destruct (env_set_process_callback env _ =? 0)%Z.
Qed.

Lemma connect_deck_unfold (name : string) (w : world) :
  connect_deck env name w
  = match client w with
    | Some _ => allocate_deck env name w
    | None =>
        bind (start_jack_client env)
             (fun r => if (r =? -1)%Z then ret ((-1)%Z, fresh_jack)
                       else allocate_deck env name) w
    end.
Proof. unfold connect_deck, bind at 1, get. by destruct (client w). Qed.

Lemma session_kept_call (ev : event) (w : world) :
  is_deck_setup ev = true -> session_kept w (set_trace (trace w ++ [ev]) w).
Proof. intros Hev. split; [done|]. split; [done|]. by apply logs_call. Qed.

Lemma session_kept_quiet (w w' : world) :
  client w' = client w -> rate w' = rate w -> trace w' = trace w ->
  session_kept w w'.
Proof. intros Hc Hr Ht. split; [done|]. split; [done|]. by apply logs_same_trace. Qed.

Lemma allocate_deck_session (name : string) :
  steps session_kept (allocate_deck env name).
Proof.
  unfold allocate_deck. steps_auto.
  - apply steps_call. intros w. by apply session_kept_call.
  - apply register_ports_steps; [exact _|]. intros w c s f. by apply session_kept_call.
Qed.

Lemma register_deck_session (dv : dev_ptr) (jack : jack_t) :
  steps session_kept (register_deck dv jack).
Proof.
  unfold register_deck, store_device. steps_auto;
    apply steps_modify; intros w; by apply session_kept_quiet.
Qed.

Lemma finish_deck_session (dv : dev_ptr) (rj : Z * jack_t) :
  steps session_kept
    (if (rj.1 =? -1)%Z then ret (-1)%Z else register_deck dv rj.2).
Proof.
  destruct (rj.1 =? -1)%Z; [apply steps_ret; exact _|apply register_deck_session].
Qed.

(** With the client handle set, [jack_init] leaves the session alone. *)
Lemma jack_init_session_set (dv : dev_ptr) (name : string) (w : world) :
  is_Some (client w) ->
  match jack_init env dv name w with
  | Ret _ w' | Abort w' => session_kept w w'
  | Fault => True
  end.
Proof.
  intros [c Hc]. rewrite jack_init_split.
  assert (Hs : steps session_kept
                 (bind (allocate_deck env name)
                    (fun rj => if (rj.1 =? -1)%Z then ret (-1)%Z
                               else register_deck dv rj.2))).
  { apply steps_bind; [exact _|apply allocate_deck_session|].
    intros rj. apply finish_deck_session. }
  specialize (Hs w). unfold bind in *. rewrite connect_deck_unfold, Hc. exact Hs.
Qed.

(** With the client handle null, a [jack_init] that returns has first run
    [start_jack_client], and has left the session alone after that. *)
Lemma jack_init_session_null (dv : dev_ptr) (name : string) (w w' : world) (r : Z) :
  client w = None ->
  jack_init env dv name w = Ret r w' ->
  exists (r1 : Z) (w1 : world),
    start_jack_client env w = Ret r1 w1
    /\ session_kept w1 w'
    /\ (r = 0%Z -> r1 = 0%Z).
Proof.
  intros Hc. rewrite jack_init_split.
  intros (rj & w2 & Hconn & Hrest)%bind_Ret_inv.
  rewrite connect_deck_unfold, Hc in Hconn.
  apply bind_Ret_inv in Hconn as (r1 & w1 & Hstart & Halloc).
  exists r1, w1. split; [exact Hstart|].
  pose proof (finish_deck_session dv rj w2) as Hfin. rewrite Hrest in Hfin.
  pose proof (start_jack_client_run w) as Hrun. cbv zeta in Hrun.
  rewrite Hstart in Hrun.
  destruct (r1 =? -1)%Z eqn:Hr1.
  - injection Halloc as <- <-. split; [exact Hfin|].
    intros ->. cbn [fst Z.eqb] in Hrest. by injection Hrest.
  - pose proof (allocate_deck_session name w1) as Ha. rewrite Halloc in Ha.
    split; [by etrans|]. intros _.
    destruct (env_client_open env _).1 as [c|]; [|by injection Hrun as -> _].
    destruct (env_set_process_callback env _ =? 0)%Z; by injection Hrun as -> _.
Qed.

Lemma int_of_nframes_small (n : Z) :
  (0 <= n <= INT_MAX)%Z -> int_of_nframes n = n.
Proof.
  unfold int_of_nframes, wrap32, INT_MAX. intros Hn.
  rewrite Z.mod_small by lia. lia.
Qed.

(** X7: [start_jack_client] always returns, with the registry, the device
    records and the port buffers untouched, and [client] holding what
    [jack_client_open] answered.  When that is NULL it returns -1 after that
    one call.  Otherwise it installs the process callback: on a nonzero
    answer it returns -1 with the client handle still set (the connection
    is not closed) and [rate] as before; on 0 it registers the shutdown
    callback, asks JACK for the sample rate and returns 0 with [rate]
    holding the answer converted from [jack_nframes_t] to [int]: the answer
    itself when it is at most [INT_MAX], the answer less 2^32 (a negative
    rate) when it is larger. *)
Theorem start_jack_client_outcomes (w : world) :
  exists (r : Z) (w' : world) (t : list event),
    start_jack_client env w = Ret r w'
    /\ trace w' = trace w ++ EvClientOpen "xwax" :: t
    /\ client w' = (env_client_open env (trace w ++ [EvClientOpen "xwax"])).1
    /\ heap w' = heap w /\ device w' = device w /\ decks w' = decks w
    /\ port_buffers w' = port_buffers w
    /\ match client w' with
       | None => r = (-1)%Z /\ t = [] /\ rate w' = rate w
       | Some c =>
           if (env_set_process_callback env
                 (trace w ++ [EvClientOpen "xwax"; EvSetProcessCallback c]) =? 0)%Z
           then r = 0%Z
                /\ t = [EvSetProcessCallback c; EvOnShutdown c; EvGetSampleRate c]
                /\ (let hz := env_sample_rate env (trace w') in
                    ((0 <= hz <= INT_MAX)%Z -> rate w' = hz)
                    /\ ((INT_MAX < hz < 2 ^ 32)%Z -> rate w' = (hz - 2 ^ 32)%Z))
           else r = (-1)%Z /\ t = [EvSetProcessCallback c] /\ rate w' = rate w
       end.
Proof.
  rewrite start_jack_client_run. cbv zeta.
  destruct (env_client_open env _).1 as [c|] eqn:Hopen.
  - rewrite <- (app_assoc (trace w) [_] [_]). cbn [app].
    destruct (env_set_process_callback env _ =? 0)%Z eqn:Hcb.
    + eexists 0%Z, _, [_; _; _]. split; [reflexivity|]. proj.
      rewrite Hcb. rewrite <- !app_assoc. cbn [app].
      do 7 (split; [done|]). split; [done|]. split.
      * by apply int_of_nframes_small.
      * intros Hhz. unfold int_of_nframes, wrap32, INT_MAX in *.
        change (2 ^ 32)%Z with 4294967296%Z in *.
        replace (env_sample_rate env _ + 2147483648)%Z
          with (1 * 4294967296
                + (env_sample_rate env
                     (trace w ++ [EvClientOpen "xwax"; EvSetProcessCallback c;
                                  EvOnShutdown c; EvGetSampleRate c])
                   - 2147483648))%Z by lia.
        rewrite Z.add_comm, Z.mod_add, Z.mod_small by lia. lia.
    + eexists (-1)%Z, _, [_]. split; [reflexivity|]. proj.
      rewrite Hcb. by repeat split.
  - eexists (-1)%Z, _, []. split; [reflexivity|]. proj. by repeat split.
Qed.

End SessionSetup.

#[global] Instance keeps_setup_preorder : PreOrder keeps_setup.
Proof.
  split.
  - by intros w.
  - intros w1 w2 w3 (A1 & B1 & C1 & D1 & E1) (A2 & B2 & C2 & D2 & E2).
    repeat split; congruence.
Qed.

Lemma bind_Fault {A B} (m : M A) (k : A -> M B) (w : world) :
  m w = Fault -> bind m k w = Fault.
Proof. intros H. unfold bind. by rewrite H. Qed.

Section DeckSetup.
Context (env : environment).

Lemma allocate_deck_inv (name : string) (w w' : world) (rj : Z * jack_t) :
  allocate_deck env name w = Ret rj w' -> (rj.1 =? -1)%Z = false ->
  String.length name <= 20
  /\ exists pi0 pi1 po0 po1 : port_t,
       rj.1 = 0%Z
       /\ input_port rj.2 = [Some pi0; Some pi1]
       /\ output_port rj.2 = [Some po0; Some po1].
Proof.
  unfold allocate_deck. intros (ok & w1 & Hcall & Hrun)%bind_Ret_inv Hr.
  destruct (negb ok).
  { injection Hrun as <- <-. done. }
  destruct (le_gt_dec (String.length name) 20) as [Hname|Hname];
    [|by rewrite register_ports_long_name in Hrun].
  destruct (register_ports_run env fresh_jack name w1 Hname)
    as (r & jack' & w2 & k & Hrun' & _ & _ & _ & Hcases).
  rewrite Hrun in Hrun'. injection Hrun' as -> ->.
  destruct Hcases as [(-> & _ & _)|(-> & _)]; [|done].
  split; [exact Hname|].
  apply register_ports_inv in Hrun as (tl & pl & tr & pr & _ & Hi & Ho).
  by exists tl, tr, pl, pr.
Qed.

(** What the registration proper does to the world. *)
Lemma register_deck_run (dv : dev_ptr) (jack : jack_t) (w w' : world) (r : Z) :
  register_deck dv jack w = Ret r w' ->
  exists d : device_t,
    heap w !! dv = Some d
    /\ (0 <= decks w < MAX_DECKS)%Z
    /\ (decks w < Z.of_nat (length (device w)))%Z
    /\ r = 0%Z
    /\ w' = set_decks (decks w + 1)%Z
              (set_device (<[Z.to_nat (decks w) := Some dv]> (device w))
                 (set_heap (<[dv := install jack d]> (heap w)) w)).
Proof.
  intros Hrun.
  destruct (register_deck_inv _ _ _ _ _ Hrun) as (d & Hd & Hcap & Hslot).
  exists d. split; [exact Hd|]. split; [lia|]. split; [lia|].
  revert Hrun. unfold register_deck.
  erewrite bind_Ret; [|reflexivity]. cbv beta. rewrite Hd.
  erewrite bind_Ret; [|reflexivity]. erewrite bind_Ret; [|reflexivity].
  erewrite bind_Ret; [|reflexivity]. cbn [decks set_heap].
  apply Z.ltb_lt in Hcap. rewrite Hcap. erewrite bind_Ret; [|reflexivity].
  erewrite bind_Ret; [|by apply store_device_run].
  erewrite bind_Ret; [|reflexivity]. by intros [= <- <-].
Qed.

Lemma connect_deck_inv (name : string) (w w1 : world) (rj : Z * jack_t) :
  connect_deck env name w = Ret rj w1 -> (rj.1 =? -1)%Z = false ->
  String.length name <= 20
  /\ is_Some (client w1)
  /\ exists pi0 pi1 po0 po1 : port_t,
       input_port rj.2 = [Some pi0; Some pi1]
       /\ output_port rj.2 = [Some po0; Some po1].
Proof.
  rewrite connect_deck_unfold. intros Hrun Hr.
  assert (Hfrom : forall w0, is_Some (client w0) ->
            allocate_deck env name w0 = Ret rj w1 ->
            String.length name <= 20
            /\ is_Some (client w1)
            /\ exists pi0 pi1 po0 po1 : port_t,
                 input_port rj.2 = [Some pi0; Some pi1]
                 /\ output_port rj.2 = [Some po0; Some po1]).
  { intros w0 Hc Ha.
    destruct (allocate_deck_inv _ _ _ _ Ha Hr) as (Hname & p0 & p1 & q0 & q1 & _ & Hi & Ho).
    pose proof (allocate_deck_session env name w0) as Hs. rewrite Ha in Hs.
    destruct Hs as (Ec & _). split; [exact Hname|]. split; [by rewrite Ec|].
    by exists p0, p1, q0, q1. }
  destruct (client w) as [c|] eqn:Hc.
  - apply (Hfrom w); [by rewrite Hc|exact Hrun].
  - apply bind_Ret_inv in Hrun as (r1 & w0 & Hstart & Halloc).
    destruct (r1 =? -1)%Z eqn:Hr1.
    { injection Halloc as <- <-. done. }
    apply (Hfrom w0); [|exact Halloc].
    pose proof (start_jack_client_run env w) as Hrun. cbv zeta in Hrun.
    rewrite Hstart in Hrun.
    destruct (env_client_open env _).1 as [c|].
    + destruct (env_set_process_callback env _ =? 0)%Z;
        injection Hrun as _ ->; by eexists.
    + by injection Hrun as -> _.
Qed.

(** What a successful [jack_init] has done. *)
Lemma jack_init_ok_inv (dv : dev_ptr) (name : string) (w w' : world) :
  jack_init env dv name w = Ret 0%Z w' ->
  exists (d : device_t) (jack : jack_t) (pi0 pi1 po0 po1 : port_t),
    heap w !! dv = Some d
    /\ heap w' = <[dv := install jack d]> (heap w)
    /\ input_port jack = [Some pi0; Some pi1]
    /\ output_port jack = [Some po0; Some po1]
    /\ (0 <= decks w < MAX_DECKS)%Z
    /\ decks w' = (decks w + 1)%Z
    /\ device w' = <[Z.to_nat (decks w) := Some dv]> (device w)
    /\ is_Some (client w')
    /\ String.length name <= 20.
Proof.
  rewrite jack_init_split. intros (rj & w1 & Hconn & Hrest)%bind_Ret_inv.
  pose proof (connect_deck_keeps_registry env name w) as Hkeep.
  rewrite Hconn in Hkeep. destruct Hkeep as (Hh & Hdev & Hn).
  destruct (rj.1 =? -1)%Z eqn:Hr; [done|].
  destruct (connect_deck_inv _ _ _ _ Hconn Hr)
    as (Hname & Hc & p0 & p1 & q0 & q1 & Hi & Ho).
  destruct (register_deck_run _ _ _ _ _ Hrest) as (d & Hd & Hcap & _ & _ & ->).
  exists d, rj.2, p0, p1, q0, q1. proj. rewrite <- Hh, <- Hdev, <- Hn.
  repeat split; try done; lia.
Qed.


(** X9: with a deck name longer than 20 characters [jack_init] never
    returns 0: it fails with -1 at client start-up or at the allocation, or
    else overflows [port_name] in [register_ports]; the latter is what
    happens whenever the client handle is set and [malloc] succeeds. *)
Theorem jack_init_long_name (dv : dev_ptr) (name : string) (w : world) :
  20 < String.length name ->
  match jack_init env dv name w with
  | Ret r w' => r = (-1)%Z
  | Abort _ => False
  | Fault => True
  end
  /\ (is_Some (client w) -> env_malloc env (trace w ++ [EvMalloc]) = true ->
      jack_init env dv name w = Fault).
Proof.
  intros Hname. split.
  - rewrite jack_init_split. unfold bind.
    destruct (connect_deck env name w) as [rj w1|w1|] eqn:Hconn; [| |done].
    + destruct (rj.1 =? -1)%Z eqn:Hr; [done|].
      apply connect_deck_inv in Hconn as (Hle & _); [lia|done].
    + pose proof (connect_deck_unfold env name w) as Hu. rewrite Hconn in Hu.
      assert (Ha : forall w0, allocate_deck env name w0 <> Abort w1).
      { intros w0. unfold allocate_deck, bind, call.
        destruct (negb _); [done|]. by rewrite register_ports_long_name. }
      destruct (client w); [by apply (Ha w)|].
      unfold bind in Hu. pose proof (start_jack_client_run env w) as Hrun.
      cbv zeta in Hrun. rewrite Hrun in Hu.
      destruct (env_client_open env _).1 as [c|].
      * destruct (env_set_process_callback env _ =? 0)%Z; [|done].
        cbn [Z.eqb] in Hu. by eapply Ha.
      * done.
  - intros [c Hc] Hm. rewrite jack_init_split. apply bind_Fault.
    rewrite connect_deck_unfold, Hc. unfold allocate_deck, bind, call. proj.
    rewrite Hm. cbn [negb]. by rewrite register_ports_long_name.
Qed.

End DeckSetup.

Section SetupOnce.
Context (env : environment).

Lemma deck_setup_counts (t : list event) :
  Forall (fun ev => is_deck_setup ev = true) t ->
  count_events is_install t = 0 /\ count_events is_rate_query t = 0.
Proof.
  intros Ht. split; apply count_events_none; (eapply Forall_impl; [exact Ht|]);
    by intros [].
Qed.

Lemma start_jack_client_counts (w w1 : world) (r1 : Z) :
  start_jack_client env w = Ret r1 w1 ->
  exists t : list event,
    trace w1 = trace w ++ t
    /\ count_events is_install t <= 1
    /\ count_events is_rate_query t <= count_events is_install t
    /\ (client w1 = None -> count_events is_install t = 0)
    /\ (r1 = 0%Z -> is_Some (client w1)).
Proof.
  rewrite start_jack_client_run. cbv zeta.
  destruct (env_client_open env _).1 as [c|].
  - destruct (env_set_process_callback env _ =? 0)%Z; intros [= <- <-]; proj.
    + exists [EvClientOpen "xwax"; EvSetProcessCallback c; EvOnShutdown c;
              EvGetSampleRate c].
      split; [by rewrite <- !app_assoc|]. unfold count_events. simpl.
      split; [lia|]. split; [lia|]. split; [done|]. by eexists.
    + exists [EvClientOpen "xwax"; EvSetProcessCallback c].
      split; [by rewrite <- !app_assoc|]. unfold count_events. simpl.
      split; [lia|]. split; [lia|]. split; done.
  - intros [= <- <-]. proj. exists [EvClientOpen "xwax"].
    split; [done|]. unfold count_events. simpl. split; [lia|]. split; [lia|]. done.
Qed.

(** What one returning [jack_init] adds to the session set-up. *)
Lemma jack_init_setup_step (dv : dev_ptr) (name : string) (w w' : world) (r : Z) :
  jack_init env dv name w = Ret r w' ->
  exists t : list event,
    trace w' = trace w ++ t
    /\ (is_Some (client w) ->
        client w' = client w
        /\ count_events is_install t = 0 /\ count_events is_rate_query t = 0)
    /\ (client w = None ->
        count_events is_install t <= 1
        /\ count_events is_rate_query t <= count_events is_install t
        /\ (client w' = None -> count_events is_install t = 0)
        /\ (r = 0%Z -> is_Some (client w'))).
Proof.
  intros Hrun. destruct (client w) as [c|] eqn:Hc.
  - pose proof (jack_init_session_set env dv name w ltac:(by rewrite Hc)) as Hs.
    rewrite Hrun in Hs. destruct Hs as (Ec & _ & t & Et & Ht).
    exists t. split; [exact Et|]. split; [|done]. intros _.
    split; [by rewrite Ec|]. by apply deck_setup_counts.
  - destruct (jack_init_session_null env dv name w w' r Hc Hrun)
      as (r1 & w1 & Hstart & (Ec & _ & t2 & Et2 & Ht2) & Hr).
    destruct (start_jack_client_counts _ _ _ Hstart) as (t1 & Et1 & C1 & C2 & C3 & C4).
    destruct (deck_setup_counts t2 Ht2) as [D1 D2].
    exists (t1 ++ t2). split; [by rewrite Et2, Et1, app_assoc|].
    split; [by intros [? ?]|]. intros _. rewrite !count_events_app, D1, D2.
    split; [lia|]. split; [lia|]. split.
    + rewrite Ec. intros Hn. specialize (C3 Hn). lia.
    + intros Hr0. rewrite Ec. by apply C4, Hr.
Qed.

(** X11: along every sequence of [jack_init] calls from program start the
    process callback is installed at most once and the sample rate is
    queried at most once, and only after an installation; while the client
    handle is null no callback has been installed and no deck is registered;
    once a deck is registered the client handle is set. *)
Theorem session_set_up_once (h : gmap dev_ptr device_t)
    (pb : gmap port_t (list float32)) (dvs : list dev_ptr) (w : world) :
  registrations env (initial_world h pb) dvs w ->
  count_events is_install (trace w) <= 1
  /\ count_events is_rate_query (trace w) <= count_events is_install (trace w)
  /\ (client w = None -> count_events is_install (trace w) = 0 /\ dvs = [])
  /\ (dvs <> [] -> is_Some (client w)).
Proof.
  induction 1 as [|dvs w1 w2 dv name _ IH Hrun|dvs w1 w2 dv name _ IH Hrun].
  - unfold count_events. simpl. split; [lia|]. split; [lia|]. split; [done|].
    by intros [].
  - destruct IH as (I1 & I2 & I3 & I4).
    destruct (jack_init_setup_step _ _ _ _ _ Hrun) as (t & Et & Hset & Hnull).
    rewrite Et, !count_events_app.
    destruct (client w1) as [c|] eqn:Hc.
    + destruct Hset as (Ec & C1 & C2); [done|]. rewrite C1, C2.
      split; [lia|]. split; [lia|]. split; [by rewrite Ec|].
      intros _. by rewrite Ec.
    + destruct Hnull as (C1 & C2 & C3 & C4); [done|].
      destruct I3 as [I3 _]; [done|].
      split; [lia|]. split; [lia|]. split.
      * intros Hn. destruct (C4 eq_refl) as [c Hc']. congruence.
      * intros _. by apply C4.
  - destruct IH as (I1 & I2 & I3 & I4).
    destruct (jack_init_setup_step _ _ _ _ _ Hrun) as (t & Et & Hset & Hnull).
    rewrite Et, !count_events_app.
    destruct (client w1) as [c|] eqn:Hc.
    + destruct Hset as (Ec & C1 & C2); [done|]. rewrite C1, C2.
      split; [lia|]. split; [lia|]. split; [by rewrite Ec|].
      intros _. by rewrite Ec.
    + destruct Hnull as (C1 & C2 & C3 & C4); [done|].
      destruct I3 as [I3 ->]; [done|].
      split; [lia|]. split; [lia|]. split; [|done].
      intros Hn. specialize (C3 Hn). split; [lia|done].
Qed.

Lemma install_installed (d : device_t) (jack : jack_t) (pi0 pi1 po0 po1 : port_t)
    (hp : gmap dev_ptr device_t) (dv : dev_ptr) (w : world) :
  input_port jack = [Some pi0; Some pi1] ->
  output_port jack = [Some po0; Some po1] ->
  heap w = <[dv := install jack d]> hp ->
  deck_installed w dv.
Proof.
  intros Hi Ho Hh. exists (install jack d), jack, pi0, pi1, po0, po1.
  rewrite Hh, lookup_insert_eq. by repeat split.
Qed.

Lemma registrations_installed (w0 : world) (dvs : list dev_ptr) (w : world) :
  registrations env w0 dvs w -> Forall (deck_installed w) dvs.
Proof.
  induction 1 as [|dvs w1 w2 dv name _ IH Hrun|dvs w1 w2 dv name _ IH Hrun].
  - constructor.
  - destruct (jack_init_ok_inv env _ _ _ _ Hrun)
      as (d & jack & p0 & p1 & q0 & q1 & Hd & Hh & Hi & Ho & _).
    pose proof (install_installed d jack p0 p1 q0 q1 _ dv w2 Hi Ho Hh) as Hnew.
    apply Forall_app. split; [|by constructor].
    eapply Forall_impl; [exact IH|]. intros dv' Hold.
    destruct (decide (dv' = dv)) as [->|Hne]; [exact Hnew|].
    destruct Hold as (d' & jack' & a & b & c & e & Hd' & Hrest).
    exists d', jack', a, b, c, e. split; [|exact Hrest].
    by rewrite Hh, lookup_insert_ne.
  - apply jack_init_failure_keeps_registry in Hrun as (Hh & _).
    eapply Forall_impl; [exact IH|]. intros dv' (d' & jack' & a & b & c & e & Hd' & Hrest).
    exists d', jack', a, b, c, e. split; [by rewrite Hh|exact Hrest].
Qed.

(** X13: after any sequence of [jack_init] calls, every deck whose call
    returned 0 has its backend state in place: its record points to a
    [struct jack_t] with four ports assigned, [pollfds] and [handle] are
    null and the hooks are [start], [stop] and [clear] of jack.c; later
    initialisations, successful or failed, do not undo that. *)
Theorem registered_decks_installed (w0 : world) (dvs : list dev_ptr) (w : world) :
  registrations env w0 dvs w -> Forall (deck_installed w) dvs.
Proof. apply registrations_installed. Qed.

End SetupOnce.

(** ** Further properties of the process cycle *)

Section CycleSafety.
Context {T : Target}.

Lemma process_deck_keeps_setup (env : environment) (dv : dev_ptr) (N : nat) :
  steps keeps_setup (process_deck env dv N).
Proof.
  unfold process_deck, commit_buffer.
  steps_auto; try (apply get_buffer_steps; exact _); steps_leaf.
Qed.

Lemma callback_body_keeps_setup (env : environment) (N n : nat) :
  steps keeps_setup (callback_body env N n).
Proof.
  unfold callback_body. steps_auto. apply process_deck_keeps_setup.
Qed.

Lemma process_callback_loop (env : environment) (N : nat) (w : world) :
  process_callback env N w
  = bind (for_each (callback_body env N) (seq 0 (Z.to_nat (decks w))))
         (fun _ => ret 0%Z) w.
Proof. reflexivity. Qed.

Lemma process_callback_keeps_setup (env : environment) (N : nat) :
  steps keeps_setup (process_callback env N).
Proof.
  intros w. rewrite process_callback_loop.
  assert (Hs : steps keeps_setup
                 (bind (for_each (callback_body env N) (seq 0 (Z.to_nat (decks w))))
                       (fun _ => ret 0%Z))).
  { steps_auto. apply callback_body_keeps_setup. }
  apply Hs.
Qed.

(** X6: [process_callback] never writes [client], [rate], [decks],
    [device] or a device record, whether it returns or ends in a failed
    assertion; with no deck registered it returns 0 at once, making no call
    and touching no buffer. *)
Theorem process_callback_frame (env : environment) (N : nat) (w : world) :
  match process_callback env N w with
  | Ret _ w' | Abort w' => keeps_setup w w'
  | Fault => True
  end
  /\ ((decks w <= 0)%Z -> process_callback env N w = Ret 0%Z w).
Proof.
  split; [apply process_callback_keeps_setup|].
  intros Hk. rewrite process_callback_loop.
  replace (Z.to_nat (decks w)) with 0 by lia. reflexivity.
Qed.

Lemma interleave_overrun (N : nat) (in0 in1 : list float32) (b : list cell) :
  length b < 2 * N \/ length in0 < N \/ length in1 < N ->
  interleave (Cursor b 0) [Cursor in0 0; Cursor in1 0] N = None.
Proof.
  intros Hbad.
  destruct (interleave (Cursor b 0) [Cursor in0 0; Cursor in1 0] N) as [st|] eqn:Hst;
    [|done].
  destruct (interleave_defined _ _ _ _ _ _ _ (mk_is_Some _ _ Hst)) as [->|H]; lia.
Qed.

(** X5: [process_deck] has no check of [nframes] against its local buffer
    of 1024 frames: for a deck whose input buffers JACK provides, a cycle of
    more than 1024 frames (or of more frames than an input buffer holds)
    runs [interleave] off the end of an array, which is undefined
    behaviour. *)
Theorem process_deck_overrun (env : environment) (dv : dev_ptr) (N : nat)
    (w : world) (d : device_t) (jack : jack_t) (pi0 pi1 : port_t)
    (in0 in1 : list float32) :
  heap w !! dv = Some d -> local d = Some jack ->
  input_port jack = [Some pi0; Some pi1] ->
  port_buffers w !! pi0 = Some in0 -> port_buffers w !! pi1 = Some in1 ->
  1024 < N \/ length in0 < N \/ length in1 < N ->
  process_deck env dv N w = Fault.
Proof.
  intros Hd Hl Ei H0 H1 Hbad. unfold process_deck.
  step. step. rewrite Hd. step. rewrite Hl. step.
  erewrite bind_Ret; [|eapply (get_buffers_ready _ 0 _ pi0 pi1 in0 in1)].
  2:{ split; [exact Ei|]. proj. split; [exact H0|]. split; [exact H1|]. lia. }
  cbn [fmap list_fmap]. rewrite interleave_overrun; [done|].
  rewrite length_replicate. unfold BUF_LEN. lia.
Qed.





End CycleSafety.

(** ** The statements at concrete inputs *)

Lemma roundtrip_within_one_step_witness :
  exists (b' : list cell) (out0' out1' : list float32),
    interleave (T:=x86_64) (Cursor (replicate 4 None) 0)
      [Cursor [one; S754_zero false] 0; Cursor [three_quarters_step; SFopp one] 0] 2
    = Some (Cursor b' (2 * 2),
            [Cursor [one; S754_zero false] 2; Cursor [three_quarters_step; SFopp one] 2])
    /\ uninterleave [Cursor [one; one] 0; Cursor [one; one] 0] (Cursor b' 0) 2
       = Some ([Cursor out0' 2; Cursor out1' 2], Cursor b' (2 * 2))
    /\ forall (c f : nat) (ch : list float32) (v : float32),
         [[one; S754_zero false]; [three_quarters_step; SFopp one]] !! c = Some ch ->
         f < 2 -> ch !! f = Some v ->
         valid v = true -> is_finite v = true ->
         (- (1) <= to_Q v <= 32767 # 32768)%Q ->
         exists (ch' : list float32) (v' : float32),
           [out0'; out1'] !! c = Some ch' /\ ch' !! f = Some v'
           /\ (Qabs (to_Q v' - to_Q v) <= 1 # 32768)%Q.
Proof.
  apply (roundtrip_within_one_step (T:=x86_64) 2); simpl; lia.
Defined.

Lemma demo_env_grants_all : grants_all demo_env.
Proof. repeat split; intros t; by eexists. Qed.

Lemma demo_deck_a_ready : deck_ready demo_world 2 0.
Proof.
  exists demo_deck_a, (Jack [Some 10; Some 11] [Some 12; Some 13]), 10, 11, 12, 13.
  do 4 eexists. repeat split; try (vm_compute; reflexivity); simpl; lia.
Qed.

Lemma demo_deck_b_ready : deck_ready demo_world 2 1.
Proof.
  exists demo_deck_b, (Jack [Some 20; Some 21] [Some 22; Some 23]), 20, 21, 22, 23.
  do 4 eexists. repeat split; try (vm_compute; reflexivity); simpl; lia.
Qed.

Lemma interleave_truncates_in_range_witness :
  exists b' : list cell,
    interleave (T:=x86_64) (Cursor (replicate 4 None) 0)
      [Cursor [one; three_quarters_step] 0; Cursor [S754_zero true; SFopp one] 0] 2
    = Some (Cursor b' (2 * 2),
            [Cursor [one; three_quarters_step] 2; Cursor [S754_zero true; SFopp one] 2])
    /\ forall (c f : nat) (ch : list float32) (v : float32),
         [[one; three_quarters_step]; [S754_zero true; SFopp one]] !! c = Some ch ->
         f < 2 -> ch !! f = Some v ->
         b' !! (DEVICE_CHANNELS * f + c) = Some (Some (to_short (T:=x86_64) v))
         /\ (valid v = true -> is_finite v = true ->
             ((SHRT_MIN <= Qtrunc (to_Q v * inject_Z SCALE) <= SHRT_MAX)%Z ->
              to_short (T:=x86_64) v = Qtrunc (to_Q v * inject_Z SCALE))
             /\ (~ (SHRT_MIN <= Qtrunc (to_Q v * inject_Z SCALE) <= SHRT_MAX)%Z ->
                 to_short (T:=x86_64) v
                 = wrap16 (fp_invalid (Target:=x86_64) (mul v (of_Z SCALE))))).
Proof.
  apply (interleave_truncates_in_range (T:=x86_64) 2); simpl; lia.
Defined.

(** The sample 0.75/32768 is stored as 0, where rounding to nearest gives 1.
    For the sample 1.5 rounding gives 49152, which no [signed short] holds:
    a build that converts with SSE stores -16384, one that converts with the
    x87 unit stores -32768. *)
Lemma interleave_does_not_round :
  valid three_quarters_step = true
  /\ (to_Q three_quarters_step * inject_Z SCALE == 3 # 4)%Q
  /\ Qround (to_Q three_quarters_step * inject_Z SCALE) = 1%Z
  /\ interleave (T:=x86_64) (Cursor [None; None] 0)
       [Cursor [three_quarters_step] 0; Cursor [S754_zero false] 0] 1
     = Some (Cursor [Some 0%Z; Some 0%Z] 2,
             [Cursor [three_quarters_step] 1; Cursor [S754_zero false] 1])
  /\ valid one_and_a_half = true
  /\ Qround (to_Q one_and_a_half * inject_Z SCALE) = 49152%Z
  /\ interleave (T:=x86_64) (Cursor [None; None] 0)
       [Cursor [one_and_a_half] 0; Cursor [S754_zero false] 0] 1
     = Some (Cursor [Some (-16384)%Z; Some 0%Z] 2,
             [Cursor [one_and_a_half] 1; Cursor [S754_zero false] 1])
  /\ interleave (T:=x87) (Cursor [None; None] 0)
       [Cursor [one_and_a_half] 0; Cursor [S754_zero false] 0] 1
     = Some (Cursor [Some (-32768)%Z; Some 0%Z] 2,
             [Cursor [one_and_a_half] 1; Cursor [S754_zero false] 1]).
Proof. repeat split. Qed.



Lemma process_deck_cycle_witness :
  (exists (w' : world) (pcm : list cell) (out0' out1' : list float32),
     process_deck (T:=x86_64) demo_env 0 2 demo_world = Ret tt w'
     /\ trace w' = trace demo_world ++ deck_events 0 demo_deck_a 2 (rate demo_world) pcm
     /\ interleaved (T:=x86_64) 2
          [one; three_quarters_step; S754_zero false]
          [one; three_quarters_step; S754_zero false] pcm
     /\ count_events is_submit (deck_events 0 demo_deck_a 2 (rate demo_world) pcm)
        = match timecoder demo_deck_a with Some _ => 1 | None => 0 end
     /\ count_events is_collect (deck_events 0 demo_deck_a 2 (rate demo_world) pcm) = 1
     /\ port_buffers w' = <[13 := out1']> (<[12 := out0']> (port_buffers demo_world))
     /\ rendered 2 0 (env_player_collect demo_env (trace w'))
          [one; three_quarters_step; S754_zero false] out0'
     /\ rendered 2 1 (env_player_collect demo_env (trace w'))
          [one; three_quarters_step; S754_zero false] out1')
  /\ exists w' : world,
       process_deck (T:=x86_64) demo_env 0 2
         (set_port_buffers (delete 13 demo_buffers) demo_world) = Abort w'
       /\ output_untouched (set_port_buffers (delete 13 demo_buffers) demo_world) w'.
Proof.
  split.
  - apply (process_deck_cycle (T:=x86_64) demo_env 0 2 demo_world demo_deck_a
             (Jack [Some 10; Some 11] [Some 12; Some 13]) 10 11 12 13);
      try reflexivity; try lia;
      (split; [reflexivity|]; split; [reflexivity|]; split; [reflexivity|]; simpl; lia).
  - destruct (process_deck_cycle (T:=x86_64) demo_env 0 2
                (set_port_buffers (delete 13 demo_buffers) demo_world) demo_deck_a
                (Jack [Some 10; Some 11] [Some 12; Some 13]) 10 11 12 13 [] [] [] [])
      as (_ & Hquiet & Haborts).
    destruct Haborts as [w' Hrun]; try reflexivity; try lia.
    + intros a Ha. vm_compute in Ha. injection Ha as <-. simpl. lia.
    + intros a Ha. vm_compute in Ha. injection Ha as <-. simpl. lia.
    + unfold buffer_missing. do 3 apply Exists_cons_tl. apply Exists_cons_hd.
      reflexivity.
    + exists w'. split; [exact Hrun|]. apply Hquiet. exact Hrun.
Defined.

(** A deck without a timecoder gets no submit call; when JACK has no
    buffer for an output port the assertion ends the cycle before the
    player is asked and before any output frame is written; and a cycle of
    1025 frames runs off the end of the local buffer. *)
Lemma process_deck_skips_submit_or_aborts :
  match process_deck (T:=x86_64) demo_env 1 2 demo_world with
  | Ret _ w' =>
      count_events is_submit (trace w') = 0
      /\ count_events is_collect (trace w') = 1
  | _ => False
  end
  /\ match process_deck (T:=x86_64) demo_env 0 2
             (set_port_buffers (delete 13 demo_buffers) demo_world) with
     | Abort w' =>
         count_events is_collect (trace w') = 0
         /\ port_buffers w' !! 12 = demo_buffers !! 12
     | _ => False
     end
  /\ process_deck (T:=x86_64) demo_env 0 1025
       (set_port_buffers long_buffers demo_world) = Fault.
Proof. vm_compute. repeat split. Qed.

Lemma process_callback_order_witness :
  exists w' : world,
    process_callback (T:=x86_64) demo_env 2 demo_world = Ret 0%Z w'
    /\ deck_calls (trace w') = [(0, 2); (1, 2)].
Proof.
  destruct (process_callback_order (T:=x86_64) demo_env 2 demo_world)
    as (Hcalls & Hruns & _).
  destruct (Hruns [0; 1]) as [w' Hrun].
  - reflexivity.
  - simpl. lia.
  - repeat constructor; [exact demo_deck_a_ready|exact demo_deck_b_ready].
  - lia.
  - exists w'. split; [exact Hrun|].
    destruct (Hcalls 0%Z w' Hrun) as (_ & t & dvs & Et & Hreg & Hc).
    simpl in Et. rewrite Et, Hc.
    destruct dvs as [|a [|b [|? ?]]]; try discriminate Hreg.
    injection Hreg as <- <-. reflexivity.
Defined.

(** With no buffer for the first input port of deck A the cycle ends in
    the assertion inside deck A: nothing is returned and deck B, although
    registered, is never entered. *)
Lemma process_callback_stops_at_failed_assert :
  registered demo_world = [Some 0; Some 1]
  /\ match process_callback (T:=x86_64) demo_env 2
             (set_port_buffers (delete 10 demo_buffers) demo_world) with
     | Abort w' => deck_calls (trace w') = [(0, 2)]
     | _ => False
     end.
Proof. vm_compute. split; reflexivity. Qed.

Lemma four_registrations :
  registrations demo_env cold_world [0; 1; 0; 1] four_deck_world.
Proof.
  apply (init_done demo_env cold_world [0; 1; 0] three_deck_world _ 1 "deckD").
  - apply (init_done demo_env cold_world [0; 1] two_deck_world _ 0 "deckC").
    + apply (init_done demo_env cold_world [0] one_deck_world _ 1 "deckB").
      * apply (init_done demo_env cold_world [] cold_world _ 0 "deckA").
        -- apply init_none.
        -- vm_compute. reflexivity.
      * vm_compute. reflexivity.
    + vm_compute. reflexivity.
  - vm_compute. reflexivity.
Defined.

Lemma registry_capacity_witness :
  registered four_deck_world = [Some 0; Some 1; Some 0; Some 1]
  /\ exists w', jack_init demo_env 1 "deckE" four_deck_world = Abort w'
       /\ device w' = device four_deck_world /\ decks w' = decks four_deck_world.
Proof.
  destruct (registry_capacity demo_env _ _ _ _ four_registrations)
    as ([Hreg _] & _ & Hnext).
  split; [exact Hreg|].
  apply (Hnext 1 "deckE"%string
           (default (blank_deck None 9) (heap four_deck_world !! 1)));
    [exact demo_env_grants_all|simpl; lia|vm_compute; reflexivity].
Defined.

Lemma register_ports_names_witness :
  exists (jack' : jack_t) (w' : world),
    register_ports demo_env fresh_jack "deckA" demo_world = Ret (0%Z, jack') w'
    /\ trace w'
       = [EvPortRegister (Some 1) "deckA_timecode_L" JackPortIsInput;
          EvPortRegister (Some 1) "deckA_playback_L" JackPortIsOutput;
          EvPortRegister (Some 1) "deckA_timecode_R" JackPortIsInput;
          EvPortRegister (Some 1) "deckA_playback_R" JackPortIsOutput].
Proof.
  destruct (register_ports_names demo_env fresh_jack "deckA" demo_world) as [Hinv Hrun].
  destruct Hrun as (jack' & w' & Hrun).
  - simpl. lia.
  - intros t. by eexists.
  - exists jack', w'. split; [exact Hrun|].
    destruct (Hinv jack' w' Hrun) as (tl & pl & tr & pr & Et & _). exact Et.
Defined.

(** The first [jack_init] fails at client open, the second opens the
    client again and succeeds; and after a failure at callback installation
    the next [jack_init] succeeds as well. *)
Lemma later_jack_init_succeeds :
  match jack_init env_flaky 0 "deckA" cold_world with
  | Ret r1 w1 =>
      r1 = (-1)%Z
      /\ match jack_init env_flaky 1 "deckB" w1 with
         | Ret r2 w2 =>
             r2 = 0%Z /\ decks w2 = 1%Z
             /\ List.filter is_connect (trace w2)
                = [EvClientOpen "xwax"; EvClientOpen "xwax"; EvSetProcessCallback 1]
         | _ => False
         end
  | _ => False
  end
  /\ match jack_init env_no_callback 0 "deckA" cold_world with
     | Ret r1 w1 =>
         r1 = (-1)%Z
         /\ match jack_init env_no_callback 1 "deckB" w1 with
            | Ret r2 w2 => r2 = 0%Z /\ decks w2 = 1%Z
            | _ => False
            end
     | _ => False
     end.
Proof. vm_compute. repeat split. Qed.

Lemma jack_init_reconnect_witness :
  (exists w', jack_init env_flaky 0 "deckA" cold_world = Ret (-1)%Z w'
      /\ client w' = None
      /\ trace w' = trace cold_world ++ [EvClientOpen "xwax"])
  /\ (exists w', jack_init env_no_callback 0 "deckA" cold_world = Ret (-1)%Z w'
        /\ client w' = Some 1).
Proof.
  split.
  - destruct (jack_init_reconnect env_flaky 0 "deckA" cold_world) as (_ & _ & _ & H4).
    apply H4; reflexivity.
  - destruct (jack_init_reconnect env_no_callback 0 "deckA" cold_world)
      as (_ & _ & H3 & _).
    apply (H3 eq_refl 1 0%Z); [reflexivity|discriminate].
Defined.

Lemma jack_init_failure_frame_witness :
  (heap (after_init env_flaky 0 "deckA" cold_world) !! 0 = heap cold_world !! 0
   /\ heap (after_init env_flaky 0 "deckA" cold_world) = heap cold_world
   /\ device (after_init env_flaky 0 "deckA" cold_world) = device cold_world
   /\ decks (after_init env_flaky 0 "deckA" cold_world) = decks cold_world)
  /\ (heap (after_init env_no_memory 0 "deckA" cold_world) !! 0 = heap cold_world !! 0
      /\ heap (after_init env_no_memory 0 "deckA" cold_world) = heap cold_world
      /\ device (after_init env_no_memory 0 "deckA" cold_world) = device cold_world
      /\ decks (after_init env_no_memory 0 "deckA" cold_world) = decks cold_world)
  /\ (heap (after_init env_no_ports 0 "deckA" cold_world) !! 0 = heap cold_world !! 0
      /\ heap (after_init env_no_ports 0 "deckA" cold_world) = heap cold_world
      /\ device (after_init env_no_ports 0 "deckA" cold_world) = device cold_world
      /\ decks (after_init env_no_ports 0 "deckA" cold_world) = decks cold_world).
Proof.
  split; [|split].
  - apply (jack_init_failure_frame env_flaky 0 "deckA" cold_world).
    vm_compute. reflexivity.
  - apply (jack_init_failure_frame env_no_memory 0 "deckA" cold_world).
    vm_compute. reflexivity.
  - apply (jack_init_failure_frame env_no_ports 0 "deckA" cold_world).
    vm_compute. reflexivity.
Defined.

Lemma port_name_in_bounds_witness :
  PORT_NAME_SIZE = 32
  /\ Forall (fun wr => wr.1 < PORT_NAME_SIZE)
            (sprintf_writes (port_name_format "twenty_characters_ok" "_playback_" "R"))
  /\ sprintf PORT_NAME_SIZE (port_name_format "twenty_characters_ok" "_playback_" "R")
     = Some (port_name_format "twenty_characters_ok" "_playback_" "R").
Proof.
  apply (port_name_in_bounds "twenty_characters_ok" "_playback_" 1 "R");
    [simpl; lia|by right|reflexivity].
Defined.

(** ** The further statements at concrete inputs *)

Lemma two_shorts (s0 s1 : Z) :
  (-32768 <= s0 <= 32767)%Z -> (-32768 <= s1 <= 32767)%Z ->
  holds_shorts [Some s0; Some s1] (2 * 1).
Proof.
  intros H0 H1 [|[|i]] Hi; [by exists s0|by exists s1|simpl in Hi; lia].
Qed.

Lemma uninterleave_exact_witness :
  exists (out0' out1' : list float32) (v : float32),
    uninterleave [Cursor [one] 0; Cursor [one] 0]
      (Cursor [Some 16384%Z; Some (-32768)%Z] 0) 1
    = Some ([Cursor out0' 1; Cursor out1' 1],
            Cursor [Some 16384%Z; Some (-32768)%Z] (2 * 1))
    /\ out1' !! 0 = Some v
    /\ valid v = true
    /\ (to_Q v == (-32768) # 32768)%Q.
Proof.
  destruct (uninterleave_exact 1 [one] [one] [Some 16384%Z; Some (-32768)%Z])
    as (out0' & out1' & Hrun & _ & _ & _ & Hval);
    [simpl; lia|simpl; lia|apply two_shorts; lia|].
  destruct (Hval 1 0 (-32768)%Z) as (ch' & v & Hch & Hv & _ & Hvalid & _ & Hq);
    [unfold DEVICE_CHANNELS; lia|lia|reflexivity|].
  injection Hch as <-.
  exists out0', out1', v. split; [exact Hrun|]. split; [exact Hv|].
  split; [exact Hvalid|exact Hq].
Defined.

Lemma pcm_roundtrip_exact_witness :
  exists (out0' out1' : list float32) (b2' : list cell),
    uninterleave [Cursor [one] 0; Cursor [one] 0]
      (Cursor [Some 12345%Z; Some (-32768)%Z] 0) 1
    = Some ([Cursor out0' 1; Cursor out1' 1],
            Cursor [Some 12345%Z; Some (-32768)%Z] (2 * 1))
    /\ interleave (T:=x86_64) (Cursor [None; None] 0)
         [Cursor out0' 0; Cursor out1' 0] 1
       = Some (Cursor b2' (2 * 1), [Cursor out0' 1; Cursor out1' 1])
    /\ forall i, i < 2 * 1 -> b2' !! i = [Some 12345%Z; Some (-32768)%Z] !! i.
Proof.
  apply (pcm_roundtrip_exact (T:=x86_64) 1 [one] [one]
           [Some 12345%Z; Some (-32768)%Z] [None; None]);
    [simpl; lia|simpl; lia|apply two_shorts; lia|simpl; lia].
Defined.

Lemma process_deck_overrun_witness :
  process_deck (T:=x86_64) demo_env 0 1025
    (set_port_buffers long_buffers demo_world) = Fault.
Proof.
  apply (process_deck_overrun (T:=x86_64) demo_env 0 1025
           (set_port_buffers long_buffers demo_world) demo_deck_a
           (Jack [Some 10; Some 11] [Some 12; Some 13]) 10 11
           (replicate 1025 (S754_zero false)) (replicate 1025 (S754_zero false)));
    try (vm_compute; reflexivity).
  left. lia.
Defined.

Lemma process_callback_frame_witness :
  process_callback (T:=x86_64) demo_env 64 cold_world = Ret 0%Z cold_world.
Proof.
  destruct (process_callback_frame (T:=x86_64) demo_env 64 cold_world) as [_ Hempty].
  apply Hempty. simpl. lia.
Defined.

Lemma start_jack_client_outcomes_witness :
  exists w' : world,
    start_jack_client env_high_rate cold_world = Ret 0%Z w'
    /\ rate w' = (-294967296)%Z.
Proof.
  destruct (start_jack_client_outcomes env_high_rate cold_world)
    as (r & w' & t & Hrun & _ & Hc & _ & _ & _ & _ & Hm).
  change (client w' = Some 1) in Hc. rewrite Hc in Hm.
  change (r = 0%Z
          /\ t = [EvSetProcessCallback 1; EvOnShutdown 1; EvGetSampleRate 1]
          /\ ((0 <= 4000000000 <= INT_MAX)%Z -> rate w' = 4000000000%Z)
          /\ ((INT_MAX < 4000000000 < 2 ^ 32)%Z
              -> rate w' = (4000000000 - 2 ^ 32)%Z)) in Hm.
  destruct Hm as (-> & _ & _ & Hbig).
  exists w'. split; [exact Hrun|]. apply Hbig. unfold INT_MAX. lia.
Defined.


Lemma jack_init_long_name_witness :
  jack_init demo_env 0 long_name demo_world = Fault.
Proof.
  destruct (jack_init_long_name demo_env 0 long_name demo_world) as [_ Hfault];
    [simpl; lia|].
  apply Hfault; [by eexists|reflexivity].
Defined.

Lemma session_set_up_once_witness :
  count_events is_install (trace four_deck_world) <= 1
  /\ count_events is_rate_query (trace four_deck_world)
     <= count_events is_install (trace four_deck_world)
  /\ (client four_deck_world = None ->
      count_events is_install (trace four_deck_world) = 0 /\ [0; 1; 0; 1] = [])
  /\ ([0; 1; 0; 1] <> [] -> is_Some (client four_deck_world)).
Proof. exact (session_set_up_once demo_env _ _ _ _ four_registrations). Defined.

Lemma registered_decks_installed_witness :
  Forall (deck_installed four_deck_world) [0; 1; 0; 1].
Proof. exact (registered_decks_installed demo_env _ _ _ four_registrations). Defined.




